(** * TPMS decoders of flipperzero-tpms: a shallow embedding

    The five decoders under [protocols/] (Ford, GM, Toyota, Hyundai, Nissan)
    are translated function by function.  Machine integers are [Z] with the
    wrap-around of their C type written out, byte buffers are [list Z],
    [float] values are IEEE-754 binary32 numbers ([spec_float] with a 24-bit
    mantissa), and the in-place mutation of the decoder instance is explicit
    state passing: [feed] returns the new instance together with a flag that
    tells whether the result callback was invoked during the call. *)

From Stdlib Require Import ZArith List Bool Lia String QArith Qabs.
From Stdlib Require Import SpecFloat.
Import ListNotations.
Open Scope Z_scope.

(** ** Machine integers *)

Definition wrap (w : Z) (x : Z) : Z := x mod 2 ^ w.
Definition u8 : Z -> Z := wrap 8.
Definition u16 : Z -> Z := wrap 16.
Definition u32 : Z -> Z := wrap 32.
Definition u64 : Z -> Z := wrap 64.

Definition is_u8 (x : Z) : Prop := 0 <= x < 256.

(** [data[i]] on a byte buffer. *)
Definition byte_at (data : list Z) (i : nat) : Z := nth i data 0.

(** [data[i] = v]; every index written by the decoders is a constant inside
    the array, a write past the end does not occur and is modelled as
    leaving the buffer alone. *)
Fixpoint array_set (data : list Z) (i : nat) (v : Z) : list Z :=
  match data, i with
  | [], _ => []
  | _ :: tl, O => v :: tl
  | hd :: tl, S j => hd :: array_set tl j v
  end.

(** [memset(buf, 0, sizeof(buf))] for an array of [n] bytes. *)
Definition memset_zero (n : nat) : list Z := repeat 0 n.

(** ** binary32 arithmetic *)

Module Float32.

Definition prec : Z := 24.
Definition emax : Z := 128.

Definition float : Type := spec_float.

(** Conversion of an integer to [float] (exact below 2^24). *)
Definition of_int (z : Z) : float := binary_normalize prec emax z 0 false.

Definition mul : float -> float -> float := SFmul prec emax.
Definition sub : float -> float -> float := SFsub prec emax.
Definition div : float -> float -> float := SFdiv prec emax.
Definition ltb : float -> float -> bool := SFltb.

(** The literal [n/d] written in decimal, rounded to the nearest binary32
    number (both [n] and [d] are below 2^24, so the correctly rounded
    quotient is the correctly rounded literal). *)
Definition literal (n d : Z) : float := div (of_int n) (of_int d).

(** The rational value of a finite number. *)
Definition to_Q (x : float) : Q :=
  match x with
  | S754_finite s m e =>
      let v := if s then Z.neg m else Z.pos m in
      if 0 <=? e then inject_Z (v * 2 ^ e) else Qmake v (Z.to_pos (2 ^ (- e)))
  | _ => 0%Q
  end.

Definition is_finite (x : float) : bool :=
  match x with
  | S754_finite _ _ _ | S754_zero _ => true
  | _ => false
  end.

End Float32.

(** ** Firmware helpers used by every decoder

    The decoders are compiled against the Flipper firmware; the helpers
    below are declared in its headers and are not part of [protocols/]. *)

(** Modelled from the spec: the macro [DURATION_DIFF] of the firmware's
    sub-GHz headers is missing; section 4.4 compares an edge duration with
    [te_short] within [te_delta], that is by the absolute difference. *)
Definition DURATION_DIFF (x y : Z) : Z := if x <? y then y - x else x - y.

(** Modelled from the spec: the type [SubGhzBlockDecoder] is declared in the
    firmware; section 3 gives the decoder state as a step, an unsigned integer
    accumulator ([uint64_t decode_data]) and a bit count
    ([uint8_t decode_count_bit]).  The step is the enumeration of the
    protocol that owns the block. *)
Record SubGhzBlockDecoder (Step : Type) : Type := mkBlockDecoder {
  parser_step : Step;
  decode_data : Z;
  decode_count_bit : Z
}.
Arguments mkBlockDecoder {Step} _ _ _.
Arguments parser_step {Step} _.
Arguments decode_data {Step} _.
Arguments decode_count_bit {Step} _.

Definition set_parser_step {Step : Type} (d : SubGhzBlockDecoder Step) (st : Step)
  : SubGhzBlockDecoder Step :=
  mkBlockDecoder st (decode_data d) (decode_count_bit d).

(** Modelled from the spec: [subghz_protocol_blocks_add_bit] is a firmware
    function; section 4.1: it appends [bit] as the new least-significant bit of the
    rolling accumulator and increments the count, with no bound of its own
    (the accumulator is 64 bits wide and the count 8 bits wide). *)
Definition subghz_protocol_blocks_add_bit {Step : Type}
    (d : SubGhzBlockDecoder Step) (bit : bool) : SubGhzBlockDecoder Step :=
  mkBlockDecoder (parser_step d)
                 (u64 (Z.lor (Z.shiftl (decode_data d) 1) (Z.b2z bit)))
                 (u8 (decode_count_bit d + 1)).

(** One round of the bit loop of a CRC-8: [crc] is a [uint8_t]. *)
Definition crc8_shift (poly crc : Z) : Z :=
  if Z.land crc 0x80 =? 0 then u8 (Z.shiftl crc 1)
  else u8 (Z.lxor (Z.shiftl crc 1) poly).

(** The byte loop shared by [gm_crc8], [hyundai_crc8], [nissan_crc8] and the
    firmware's CRC-8: the three functions of [protocols/] differ in the
    polynomial only. *)
Definition crc8_loop (poly init : Z) (data : list Z) (len : nat) : Z :=
  fold_left
    (fun crc i => Nat.iter 8 (crc8_shift poly) (u8 (Z.lxor crc (byte_at data i))))
    (seq 0 len) init.

(** Modelled from the spec: [subghz_protocol_blocks_crc8] is a firmware
    function; section 4.4 and the glossary: a CRC-8 parameterised by polynomial and
    initial value, most significant bit first. *)
Definition subghz_protocol_blocks_crc8
    (message : list Z) (size : nat) (polynomial init : Z) : Z :=
  crc8_loop polynomial init message size.

(** Manchester recoverer of the firmware's toolbox. *)
Inductive ManchesterState : Type :=
| ManchesterStateStart1
| ManchesterStateMid1
| ManchesterStateMid0
| ManchesterStateStart0.

Inductive ManchesterEvent : Type :=
| ManchesterEventShortLow
| ManchesterEventShortHigh
| ManchesterEventLongLow
| ManchesterEventLongHigh
| ManchesterEventReset.

Definition manchester_state_value (s : ManchesterState) : Z :=
  match s with
  | ManchesterStateStart1 => 0
  | ManchesterStateMid1 => 1
  | ManchesterStateMid0 => 2
  | ManchesterStateStart0 => 3
  end.

Definition manchester_state_of_value (v : Z) : ManchesterState :=
  if v =? 0 then ManchesterStateStart1
  else if v =? 1 then ManchesterStateMid1
  else if v =? 2 then ManchesterStateMid0
  else ManchesterStateStart0.

Definition manchester_event_value (e : ManchesterEvent) : Z :=
  match e with
  | ManchesterEventShortLow => 0
  | ManchesterEventShortHigh => 2
  | ManchesterEventLongLow => 4
  | ManchesterEventLongHigh => 6
  | ManchesterEventReset => 8
  end.

Definition manchester_transitions (s : ManchesterState) : Z :=
  match s with
  | ManchesterStateStart1 => 0x01 (* 0b00000001 *)
  | ManchesterStateMid1 => 0x91 (* 0b10010001 *)
  | ManchesterStateMid0 => 0x9B (* 0b10011011 *)
  | ManchesterStateStart0 => 0xFB (* 0b11111011 *)
  end.

Definition manchester_reset_state : ManchesterState := ManchesterStateMid1.

Definition same_manchester_state (a b : ManchesterState) : bool :=
  manchester_state_value a =? manchester_state_value b.

(** Modelled from the spec: [manchester_advance] is a firmware function;
    section 4.2: a phase automaton over short and long level events, in which every
    second qualifying transition yields one recovered bit.  The result is the
    next state, with [Some bit] where the C function returns true and stores
    [bit] through its last argument.  No theorem below depends on the
    transition table. *)
Definition manchester_advance (state : ManchesterState) (event : ManchesterEvent)
  : ManchesterState * option bool :=
  match event with
  | ManchesterEventReset => (manchester_reset_state, None)
  | _ =>
      let new_state :=
        manchester_state_of_value
          (Z.land (Z.shiftr (manchester_transitions state)
                            (manchester_event_value event)) 0x3) in
      if same_manchester_state new_state state then (manchester_reset_state, None)
      else match new_state with
           | ManchesterStateMid0 => (new_state, Some false)
           | ManchesterStateMid1 => (new_state, Some true)
           | _ => (new_state, None)
           end
  end.

(** Timing constants of a protocol. *)
Record SubGhzBlockConst : Type := mkBlockConst {
  te_short : Z;
  te_long : Z;
  te_delta : Z;
  min_count_bit_for_found : Z
}.

(** The part of [SubGhzProtocolDecoderBase] the decoders read: whether a
    result callback is registered ([instance->base.callback] is not NULL). *)
Record SubGhzProtocolDecoderBase : Type := mkBase {
  callback : bool
}.

(** ** The decoded reading *)

Module Generic.

(** Modelled from the spec: [TPMSBlockGeneric] is declared in
    [protocols/tpms_generic.h], which is missing; section 3 lists its fields. *)
Record t : Type := mk {
  protocol_name : string;
  id : Z;
  battery_low : Z;
  pressure : Float32.float;
  temperature : Float32.float;
  data : Z;
  data_count_bit : Z
}.

Definition set_id (g : t) (v : Z) : t :=
  mk (protocol_name g) v (battery_low g) (pressure g) (temperature g)
     (data g) (data_count_bit g).

End Generic.

(** [(uint32_t)a << 24 | (uint32_t)b << 16 | (uint32_t)c << 8 | d]. *)
Definition pack32 (a b c d : Z) : Z :=
  Z.lor (Z.lor (Z.lor (u32 (Z.shiftl a 24)) (u32 (Z.shiftl b 16)))
               (u32 (Z.shiftl c 8))) d.

(** [(uint64_t)data[0] << 56 | ... | data[7]]. *)
Definition pack64 (data : list Z) : Z :=
  Z.lor (Z.lor (Z.lor (Z.lor (Z.lor (Z.lor (Z.lor
    (u64 (Z.shiftl (byte_at data 0) 56))
    (u64 (Z.shiftl (byte_at data 1) 48)))
    (u64 (Z.shiftl (byte_at data 2) 40)))
    (u64 (Z.shiftl (byte_at data 3) 32)))
    (u64 (Z.shiftl (byte_at data 4) 24)))
    (u64 (Z.shiftl (byte_at data 5) 16)))
    (u64 (Z.shiftl (byte_at data 6) 8)))
    (byte_at data 7).

(** [for(i = 0; i < n; i++) acc |= (uint64_t)data[i] << ((top - i) * 8)],
    the raw-data loop of the GM, Nissan and Hyundai analysis functions.  With
    [top = 8] (GM, Nissan) index 0 is shifted by 64, the width of the type,
    which C leaves undefined; here the byte is moved out of the 64-bit word,
    and no statement below is about the [data] field of these two
    protocols. *)
Definition pack_raw (data : list Z) (top : Z) (n : nat) : Z :=
  fold_left
    (fun acc i =>
       Z.lor acc (u64 (Z.shiftl (byte_at data i) ((top - Z.of_nat i) * 8))))
    (seq 0 n) 0.

(** [for(i = 0; i < n; i++) buf[off + i] = (decode_data >> ((top - i) * 8)) & 0xFF].
    With [top = 8] (Toyota) index 0 is read with a shift by 64, the width of
    the type, which C leaves undefined; here it reads zero.  The statements
    below are either about frames on which a shift count taken modulo 64
    reads zero as well, or do not say what byte 0 of the Toyota buffer is. *)
Definition unpack_bytes (decode_data : Z) (top : Z) (off n : nat) (buf : list Z)
  : list Z :=
  fold_left
    (fun b i =>
       array_set b (off + i)
         (Z.land (Z.shiftr decode_data ((top - Z.of_nat i) * 8)) 0xFF))
    (seq 0 n) buf.

(** ** Ford ([protocols/ford_tpms.c]) *)

Module Ford.

Definition tpms_protocol_ford_const : SubGhzBlockConst :=
  mkBlockConst 52 52 15 64.

Inductive FordDecoderStep : Type :=
| FordDecoderStepReset
| FordDecoderStepSync
| FordDecoderStepData.

Record TPMSProtocolDecoderFord : Type := mk {
  base : SubGhzProtocolDecoderBase;
  decoder : SubGhzBlockDecoder FordDecoderStep;
  generic : Generic.t;
  manchester_data : list Z;
  manchester_state : ManchesterState
}.

Definition set_decoder (i : TPMSProtocolDecoderFord) d : TPMSProtocolDecoderFord :=
  mk (base i) d (generic i) (manchester_data i) (manchester_state i).
Definition set_step (i : TPMSProtocolDecoderFord) st : TPMSProtocolDecoderFord :=
  set_decoder i (set_parser_step (decoder i) st).
Definition set_generic (i : TPMSProtocolDecoderFord) g : TPMSProtocolDecoderFord :=
  mk (base i) (decoder i) g (manchester_data i) (manchester_state i).
Definition set_manchester_data (i : TPMSProtocolDecoderFord) b : TPMSProtocolDecoderFord :=
  mk (base i) (decoder i) (generic i) b (manchester_state i).
Definition set_manchester_state (i : TPMSProtocolDecoderFord) m : TPMSProtocolDecoderFord :=
  mk (base i) (decoder i) (generic i) (manchester_data i) m.

Definition tpms_protocol_decoder_ford_reset (instance : TPMSProtocolDecoderFord)
  : TPMSProtocolDecoderFord :=
  set_manchester_state (set_step instance FordDecoderStepReset) ManchesterStateStart1.

(** [checksum] is a [uint8_t]: every [+=] wraps at 256. *)
Definition tpms_protocol_ford_check_checksum (data : list Z) : bool :=
  let checksum :=
    fold_left (fun c i => u8 (c + byte_at data i)) (seq 0 7) 0 in
  Z.land checksum 0xff =? byte_at data 7.

(** [pressure_raw]: byte 4, with [0x100] or-ed in when [data[6] & 0x20]. *)
Definition pressure_raw (data : list Z) : Z :=
  if Z.land (byte_at data 6) 0x20 =? 0 then byte_at data 4
  else Z.lor (byte_at data 4) 0x100.

Definition tpms_protocol_ford_analyze (instance : Generic.t) (data : list Z)
  : Generic.t :=
  let id := pack32 (byte_at data 0) (byte_at data 1) (byte_at data 2) (byte_at data 3) in
  let pressure_psi :=
    Float32.mul (Float32.of_int (pressure_raw data)) (Float32.literal 25 100) in
  let pressure := Float32.mul pressure_psi (Float32.literal 689476 10000000) in
  let temperature_valid := Z.land (byte_at data 5) 0x80 =? 0 in
  let temperature :=
    if temperature_valid
    then Float32.sub (Float32.of_int (Z.land (byte_at data 5) 0x7f)) (Float32.of_int 56)
    else Float32.of_int (-1000) in
  let flags := byte_at data 6 in
  Generic.mk (Generic.protocol_name instance) id flags pressure temperature
             (pack64 data) 64.

(** [DURATION_DIFF(duration, te_short) < te_delta], the test that opens the
    three cases of [feed]. *)
Definition in_tolerance (duration : Z) : bool :=
  DURATION_DIFF duration (te_short tpms_protocol_ford_const)
  <? te_delta tpms_protocol_ford_const.

Definition tpms_protocol_decoder_ford_feed
    (instance : TPMSProtocolDecoderFord) (level : bool) (duration : Z)
  : TPMSProtocolDecoderFord * bool :=
  match parser_step (decoder instance) with
  | FordDecoderStepReset =>
      if level && in_tolerance duration then
        (set_manchester_state
           (set_decoder instance (mkBlockDecoder FordDecoderStepSync 0 0))
           ManchesterStateStart1, false)
      else (instance, false)
  | FordDecoderStepSync =>
      if in_tolerance duration then
        let instance :=
          set_decoder instance (subghz_protocol_blocks_add_bit (decoder instance) level) in
        if 16 <=? decode_count_bit (decoder instance) then
          let sync_check :=
            Z.land (Z.shiftr (decode_data (decoder instance))
                             (decode_count_bit (decoder instance) - 16)) 0xFFFF in
          let instance :=
            if sync_check =? 0xaaa9 then
              set_manchester_data
                (set_manchester_state
                   (set_decoder instance (mkBlockDecoder FordDecoderStepData 0 0))
                   ManchesterStateStart1)
                (memset_zero 8)
            else instance in
          if 32 <? decode_count_bit (decoder instance)
          then (set_step instance FordDecoderStepReset, false)
          else (instance, false)
        else (instance, false)
      else (set_step instance FordDecoderStepReset, false)
  | FordDecoderStepData =>
      if in_tolerance duration then
        let event :=
          if level then ManchesterEventShortHigh else ManchesterEventShortLow in
        let '(next_state, bit) := manchester_advance (manchester_state instance) event in
        let instance := set_manchester_state instance next_state in
        match bit with
        | Some bit =>
            let instance :=
              set_decoder instance (subghz_protocol_blocks_add_bit (decoder instance) bit) in
            if min_count_bit_for_found tpms_protocol_ford_const
               <=? decode_count_bit (decoder instance) then
              let instance :=
                set_manchester_data instance
                  (unpack_bytes (decode_data (decoder instance)) 7 0 8
                                (manchester_data instance)) in
              if tpms_protocol_ford_check_checksum (manchester_data instance) then
                let instance :=
                  set_generic instance
                    (tpms_protocol_ford_analyze (generic instance)
                                                (manchester_data instance)) in
                (set_step instance FordDecoderStepReset, callback (base instance))
              else (set_step instance FordDecoderStepReset, false)
            else (instance, false)
        | None => (instance, false)
        end
      else (set_step instance FordDecoderStepReset, false)
  end.

End Ford.

(** ** GM ([protocols/gm_tpms.c]) *)

Module GM.

Definition tpms_protocol_gm_const : SubGhzBlockConst :=
  mkBlockConst 100 100 20 72.

Inductive GMDecoderStep : Type :=
| GMDecoderStepReset
| GMDecoderStepPreamble
| GMDecoderStepSync
| GMDecoderStepData.

Record TPMSProtocolDecoderGM : Type := mk {
  base : SubGhzProtocolDecoderBase;
  decoder : SubGhzBlockDecoder GMDecoderStep;
  generic : Generic.t;
  manchester_data : list Z;
  manchester_state : ManchesterState
}.

Definition set_decoder (i : TPMSProtocolDecoderGM) d : TPMSProtocolDecoderGM :=
  mk (base i) d (generic i) (manchester_data i) (manchester_state i).
Definition set_step (i : TPMSProtocolDecoderGM) st : TPMSProtocolDecoderGM :=
  set_decoder i (set_parser_step (decoder i) st).
Definition set_generic (i : TPMSProtocolDecoderGM) g : TPMSProtocolDecoderGM :=
  mk (base i) (decoder i) g (manchester_data i) (manchester_state i).
Definition set_manchester_data (i : TPMSProtocolDecoderGM) b : TPMSProtocolDecoderGM :=
  mk (base i) (decoder i) (generic i) b (manchester_state i).
Definition set_manchester_state (i : TPMSProtocolDecoderGM) m : TPMSProtocolDecoderGM :=
  mk (base i) (decoder i) (generic i) (manchester_data i) m.

Definition gm_crc8 (data : list Z) (len : nat) : Z := crc8_loop 0x31 0x00 data len.

Definition tpms_protocol_decoder_gm_reset (instance : TPMSProtocolDecoderGM)
  : TPMSProtocolDecoderGM :=
  set_manchester_state (set_step instance GMDecoderStepReset) ManchesterStateStart1.

Definition tpms_protocol_gm_check_crc (data : list Z) : bool :=
  let calc_crc := gm_crc8 data 8 in
  calc_crc =? byte_at data 8.

Definition tpms_protocol_gm_analyze (instance : Generic.t) (data : list Z)
  : Generic.t :=
  let id := pack32 (byte_at data 2) (byte_at data 3) (byte_at data 4) (byte_at data 5) in
  let status := byte_at data 6 in
  let pressure_raw := byte_at data 7 in
  let pressure_kpa := Float32.sub (Float32.of_int pressure_raw) (Float32.of_int 50) in
  let pressure := Float32.mul pressure_kpa (Float32.literal 1 100) in
  let temp_raw := byte_at data 8 in
  let temperature := Float32.sub (Float32.of_int temp_raw) (Float32.of_int 40) in
  let battery_low := Z.land status 0x40 =? 0x40 in
  Generic.mk (Generic.protocol_name instance) id (Z.b2z battery_low) pressure
             temperature (pack_raw data 8 9) 72.

(** [DURATION_DIFF(duration, te_short) < te_delta], the test that opens the
    three cases of [feed]. *)
Definition in_tolerance (duration : Z) : bool :=
  DURATION_DIFF duration (te_short tpms_protocol_gm_const)
  <? te_delta tpms_protocol_gm_const.

Definition tpms_protocol_decoder_gm_feed
    (instance : TPMSProtocolDecoderGM) (level : bool) (duration : Z)
  : TPMSProtocolDecoderGM * bool :=
  match parser_step (decoder instance) with
  | GMDecoderStepReset =>
      if level && in_tolerance duration then
        (set_manchester_state
           (set_decoder instance (mkBlockDecoder GMDecoderStepPreamble 0 0))
           ManchesterStateStart1, false)
      else (instance, false)
  | GMDecoderStepPreamble =>
      if in_tolerance duration then
        let instance :=
          set_decoder instance (subghz_protocol_blocks_add_bit (decoder instance) level) in
        if 16 <=? decode_count_bit (decoder instance) then
          let pattern :=
            Z.land (Z.shiftr (decode_data (decoder instance))
                             (decode_count_bit (decoder instance) - 16)) 0xFFFF in
          let instance :=
            if pattern =? 0x555D then
              set_manchester_data
                (set_manchester_state
                   (set_decoder instance (mkBlockDecoder GMDecoderStepData 0 0))
                   ManchesterStateStart1)
                (memset_zero 9)
            else instance in
          if 32 <? decode_count_bit (decoder instance)
          then (set_step instance GMDecoderStepReset, false)
          else (instance, false)
        else (instance, false)
      else (set_step instance GMDecoderStepReset, false)
  | GMDecoderStepSync => (instance, false)   (* no case in the switch *)
  | GMDecoderStepData =>
      if in_tolerance duration then
        let event :=
          if level then ManchesterEventShortHigh else ManchesterEventShortLow in
        let '(next_state, bit) := manchester_advance (manchester_state instance) event in
        let instance := set_manchester_state instance next_state in
        match bit with
        | Some bit =>
            let instance :=
              set_decoder instance (subghz_protocol_blocks_add_bit (decoder instance) bit) in
            if min_count_bit_for_found tpms_protocol_gm_const
               <=? decode_count_bit (decoder instance) then
              let instance :=
                set_manchester_data instance
                  (unpack_bytes (decode_data (decoder instance)) 6 2 7
                     (array_set (array_set (manchester_data instance) 0 0x55) 1 0x5D)) in
              if tpms_protocol_gm_check_crc (manchester_data instance) then
                let instance :=
                  set_generic instance
                    (tpms_protocol_gm_analyze (generic instance)
                                              (manchester_data instance)) in
                (set_step instance GMDecoderStepReset, callback (base instance))
              else (set_step instance GMDecoderStepReset, false)
            else (instance, false)
        | None => (instance, false)
        end
      else (set_step instance GMDecoderStepReset, false)
  end.

End GM.

(** ** Hyundai ([protocols/hyundai_tpms.c]) *)

Module Hyundai.

Definition tpms_protocol_hyundai_const : SubGhzBlockConst :=
  mkBlockConst 50 50 15 80.

Inductive HyundaiDecoderStep : Type :=
| HyundaiDecoderStepReset
| HyundaiDecoderStepPreamble
| HyundaiDecoderStepData.

Record TPMSProtocolDecoderHyundai : Type := mk {
  base : SubGhzProtocolDecoderBase;
  decoder : SubGhzBlockDecoder HyundaiDecoderStep;
  generic : Generic.t;
  manchester_data : list Z;
  manchester_state : ManchesterState
}.

Definition set_decoder (i : TPMSProtocolDecoderHyundai) d : TPMSProtocolDecoderHyundai :=
  mk (base i) d (generic i) (manchester_data i) (manchester_state i).
Definition set_step (i : TPMSProtocolDecoderHyundai) st : TPMSProtocolDecoderHyundai :=
  set_decoder i (set_parser_step (decoder i) st).
Definition set_generic (i : TPMSProtocolDecoderHyundai) g : TPMSProtocolDecoderHyundai :=
  mk (base i) (decoder i) g (manchester_data i) (manchester_state i).
Definition set_manchester_data (i : TPMSProtocolDecoderHyundai) b
  : TPMSProtocolDecoderHyundai :=
  mk (base i) (decoder i) (generic i) b (manchester_state i).
Definition set_manchester_state (i : TPMSProtocolDecoderHyundai) m
  : TPMSProtocolDecoderHyundai :=
  mk (base i) (decoder i) (generic i) (manchester_data i) m.

Definition hyundai_crc8 (data : list Z) (len : nat) : Z :=
  crc8_loop 0x31 0x00 data len.

Definition tpms_protocol_decoder_hyundai_reset (instance : TPMSProtocolDecoderHyundai)
  : TPMSProtocolDecoderHyundai :=
  set_manchester_state (set_step instance HyundaiDecoderStepReset) ManchesterStateStart1.

Definition tpms_protocol_hyundai_check_crc (data : list Z) : bool :=
  let calc_crc := hyundai_crc8 data 9 in
  calc_crc =? byte_at data 9.

Definition tpms_protocol_hyundai_analyze (instance : Generic.t) (data : list Z)
  : Generic.t :=
  let id := pack32 (byte_at data 3) (byte_at data 4) (byte_at data 5) (byte_at data 6) in
  let status := byte_at data 7 in
  let pressure_raw := byte_at data 8 in
  let pressure_kpa := Float32.sub (Float32.of_int pressure_raw) (Float32.of_int 40) in
  let pressure_kpa :=
    if Float32.ltb pressure_kpa (Float32.of_int 0) then Float32.of_int 0
    else pressure_kpa in
  let pressure := Float32.mul pressure_kpa (Float32.literal 1 100) in
  let temp_raw := byte_at data 9 in
  let temperature := Float32.sub (Float32.of_int temp_raw) (Float32.of_int 50) in
  let battery_low := Z.land status 0x40 =? 0x40 in
  (* the loop runs to 10 and stores under [if(i < 8)] *)
  Generic.mk (Generic.protocol_name instance) id (Z.b2z battery_low) pressure
             temperature (pack_raw data 7 8) 80.

(** [DURATION_DIFF(duration, te_short) < te_delta], the test that opens the
    three cases of [feed]. *)
Definition in_tolerance (duration : Z) : bool :=
  DURATION_DIFF duration (te_short tpms_protocol_hyundai_const)
  <? te_delta tpms_protocol_hyundai_const.

Definition tpms_protocol_decoder_hyundai_feed
    (instance : TPMSProtocolDecoderHyundai) (level : bool) (duration : Z)
  : TPMSProtocolDecoderHyundai * bool :=
  match parser_step (decoder instance) with
  | HyundaiDecoderStepReset =>
      if level && in_tolerance duration then
        (set_manchester_state
           (set_decoder instance (mkBlockDecoder HyundaiDecoderStepPreamble 0 0))
           ManchesterStateStart1, false)
      else (instance, false)
  | HyundaiDecoderStepPreamble =>
      if in_tolerance duration then
        let instance :=
          set_decoder instance (subghz_protocol_blocks_add_bit (decoder instance) level) in
        if 28 <=? decode_count_bit (decoder instance) then
          let pattern := Z.land (decode_data (decoder instance)) 0x0FFFFFFF in
          let instance :=
            if pattern =? 0x5555556 then
              set_manchester_data
                (set_manchester_state
                   (set_decoder instance (mkBlockDecoder HyundaiDecoderStepData 0 0))
                   ManchesterStateStart1)
                (memset_zero 10)
            else instance in
          if 40 <? decode_count_bit (decoder instance)
          then (set_step instance HyundaiDecoderStepReset, false)
          else (instance, false)
        else (instance, false)
      else (set_step instance HyundaiDecoderStepReset, false)
  | HyundaiDecoderStepData =>
      if in_tolerance duration then
        let event :=
          if level then ManchesterEventShortHigh else ManchesterEventShortLow in
        let '(next_state, bit) := manchester_advance (manchester_state instance) event in
        let instance := set_manchester_state instance next_state in
        match bit with
        | Some bit =>
            let instance :=
              set_decoder instance (subghz_protocol_blocks_add_bit (decoder instance) bit) in
            if min_count_bit_for_found tpms_protocol_hyundai_const
               <=? decode_count_bit (decoder instance) then
              let instance :=
                set_manchester_data instance
                  (unpack_bytes (decode_data (decoder instance)) 6 3 7
                     (array_set
                        (array_set (array_set (manchester_data instance) 0 0x55) 1 0x55)
                        2 0x56)) in
              if tpms_protocol_hyundai_check_crc (manchester_data instance) then
                let instance :=
                  set_generic instance
                    (tpms_protocol_hyundai_analyze (generic instance)
                                                   (manchester_data instance)) in
                (set_step instance HyundaiDecoderStepReset, callback (base instance))
              else (set_step instance HyundaiDecoderStepReset, false)
            else (instance, false)
        | None => (instance, false)
        end
      else (set_step instance HyundaiDecoderStepReset, false)
  end.

End Hyundai.

(** ** Toyota ([protocols/toyota_tpms.c]) *)

Module Toyota.

Definition tpms_protocol_toyota_const : SubGhzBlockConst :=
  mkBlockConst 52 52 15 72.

Inductive ToyotaDecoderStep : Type :=
| ToyotaDecoderStepReset
| ToyotaDecoderStepSync
| ToyotaDecoderStepData.

Record TPMSProtocolDecoderToyota : Type := mk {
  base : SubGhzProtocolDecoderBase;
  decoder : SubGhzBlockDecoder ToyotaDecoderStep;
  generic : Generic.t;
  manchester_data : list Z;
  manchester_bit_count : Z;
  looking_for_sync : bool;
  sync_found_bits : Z
}.

Definition set_decoder (i : TPMSProtocolDecoderToyota) d : TPMSProtocolDecoderToyota :=
  mk (base i) d (generic i) (manchester_data i) (manchester_bit_count i)
     (looking_for_sync i) (sync_found_bits i).
Definition set_step (i : TPMSProtocolDecoderToyota) st : TPMSProtocolDecoderToyota :=
  set_decoder i (set_parser_step (decoder i) st).
Definition set_generic (i : TPMSProtocolDecoderToyota) g : TPMSProtocolDecoderToyota :=
  mk (base i) (decoder i) g (manchester_data i) (manchester_bit_count i)
     (looking_for_sync i) (sync_found_bits i).
Definition set_manchester_data (i : TPMSProtocolDecoderToyota) b
  : TPMSProtocolDecoderToyota :=
  mk (base i) (decoder i) (generic i) b (manchester_bit_count i)
     (looking_for_sync i) (sync_found_bits i).
Definition set_manchester_bit_count (i : TPMSProtocolDecoderToyota) n
  : TPMSProtocolDecoderToyota :=
  mk (base i) (decoder i) (generic i) (manchester_data i) n
     (looking_for_sync i) (sync_found_bits i).

Definition tpms_protocol_decoder_toyota_reset (instance : TPMSProtocolDecoderToyota)
  : TPMSProtocolDecoderToyota :=
  mk (base instance)
     (set_parser_step (decoder instance) ToyotaDecoderStepReset)
     (generic instance) (manchester_data instance) 0 true 0.

Definition tpms_protocol_toyota_check_crc (data : list Z) : bool :=
  let crc := subghz_protocol_blocks_crc8 data 8 0x07 0x80 in
  crc =? byte_at data 8.

(** The two copies of the pressure: [uint8_t] locals of the analysis. *)
Definition pressure1 (data : list Z) : Z :=
  u8 (Z.lor (Z.shiftl (Z.land (byte_at data 4) 0x7f) 1) (Z.shiftr (byte_at data 5) 7)).
Definition pressure2 (data : list Z) : Z :=
  u8 (Z.lxor (byte_at data 7) 0xff).

Definition tpms_protocol_toyota_analyze (instance : Generic.t) (data : list Z)
  : Generic.t :=
  let instance :=
    Generic.set_id instance
      (pack32 (byte_at data 0) (byte_at data 1) (byte_at data 2) (byte_at data 3)) in
  let status := u8 (Z.lor (Z.land (byte_at data 4) 0x80) (Z.land (byte_at data 6) 0x7f)) in
  let temp :=
    u8 (Z.lor (Z.shiftl (Z.land (byte_at data 5) 0x7f) 1) (Z.shiftr (byte_at data 6) 7)) in
  if negb (pressure1 data =? pressure2 data) then instance   (* return *)
  else
    let temperature := Float32.sub (Float32.of_int temp) (Float32.of_int 40) in
    let pressure :=
      Float32.mul
        (Float32.sub (Float32.mul (Float32.of_int (pressure1 data)) (Float32.literal 25 100))
                     (Float32.of_int 7))
        (Float32.literal 689476 10000000) in
    let battery_low := if Z.land status 0x80 =? 0 then 0 else 1 in
    Generic.mk (Generic.protocol_name instance) (Generic.id instance) battery_low
               pressure temperature (pack64 data) 72.

(** [DURATION_DIFF(duration, te_short) < te_delta], the test that opens the
    three cases of [feed]. *)
Definition in_tolerance (duration : Z) : bool :=
  DURATION_DIFF duration (te_short tpms_protocol_toyota_const)
  <? te_delta tpms_protocol_toyota_const.

(** In the data step the frame is 72 bits while [decode_data] holds 64: the
    first eight bits are shifted out, and byte 0 is read with a shift by 64,
    the whole width of the word, which C leaves undefined (see
    [unpack_bytes]). *)
Definition tpms_protocol_decoder_toyota_feed
    (instance : TPMSProtocolDecoderToyota) (level : bool) (duration : Z)
  : TPMSProtocolDecoderToyota * bool :=
  match parser_step (decoder instance) with
  | ToyotaDecoderStepReset =>
      if level && in_tolerance duration then
        (set_manchester_bit_count
           (set_decoder instance (mkBlockDecoder ToyotaDecoderStepSync 0 0)) 0, false)
      else (instance, false)
  | ToyotaDecoderStepSync =>
      if in_tolerance duration then
        let instance :=
          set_decoder instance (subghz_protocol_blocks_add_bit (decoder instance) level) in
        if 12 <=? decode_count_bit (decoder instance) then
          let sync_check :=
            Z.land (Z.shiftr (decode_data (decoder instance))
                             (decode_count_bit (decoder instance) - 12)) 0xFFF in
          let instance :=
            if sync_check =? 0xa9e then
              set_manchester_data
                (set_manchester_bit_count
                   (set_decoder instance (mkBlockDecoder ToyotaDecoderStepData 0 0)) 0)
                (memset_zero 10)
            else instance in
          if 24 <? decode_count_bit (decoder instance)
          then (set_step instance ToyotaDecoderStepReset, false)
          else (instance, false)
        else (instance, false)
      else (set_step instance ToyotaDecoderStepReset, false)
  | ToyotaDecoderStepData =>
      if in_tolerance duration then
        let instance :=
          set_decoder instance (subghz_protocol_blocks_add_bit (decoder instance) level) in
        if min_count_bit_for_found tpms_protocol_toyota_const
           <=? decode_count_bit (decoder instance) then
          let instance :=
            set_manchester_data instance
              (unpack_bytes (decode_data (decoder instance)) 8 0 9
                            (manchester_data instance)) in
          if tpms_protocol_toyota_check_crc (manchester_data instance) then
            let instance :=
              set_generic instance
                (tpms_protocol_toyota_analyze (generic instance)
                                              (manchester_data instance)) in
            (set_step instance ToyotaDecoderStepReset, callback (base instance))
          else (set_step instance ToyotaDecoderStepReset, false)
        else (instance, false)
      else (set_step instance ToyotaDecoderStepReset, false)
  end.

End Toyota.

(** ** Nissan ([protocols/nissan_tpms.c]) *)

Module Nissan.

Definition NISSAN_SYNC_PATTERN : Z := 0x5A.

Definition tpms_protocol_nissan_const : SubGhzBlockConst :=
  mkBlockConst 52 104 15 72.

Inductive NissanDecoderStep : Type :=
| NissanDecoderStepReset
| NissanDecoderStepPreamble
| NissanDecoderStepData.

Record TPMSProtocolDecoderNissan : Type := mk {
  base : SubGhzProtocolDecoderBase;
  decoder : SubGhzBlockDecoder NissanDecoderStep;
  generic : Generic.t;
  pwm_data : list Z;
  last_level : bool;
  last_duration : Z
}.

Definition set_decoder (i : TPMSProtocolDecoderNissan) d : TPMSProtocolDecoderNissan :=
  mk (base i) d (generic i) (pwm_data i) (last_level i) (last_duration i).
Definition set_step (i : TPMSProtocolDecoderNissan) st : TPMSProtocolDecoderNissan :=
  set_decoder i (set_parser_step (decoder i) st).
Definition set_generic (i : TPMSProtocolDecoderNissan) g : TPMSProtocolDecoderNissan :=
  mk (base i) (decoder i) g (pwm_data i) (last_level i) (last_duration i).
Definition set_pwm_data (i : TPMSProtocolDecoderNissan) b : TPMSProtocolDecoderNissan :=
  mk (base i) (decoder i) (generic i) b (last_level i) (last_duration i).
Definition set_last (i : TPMSProtocolDecoderNissan) (level : bool) (duration : Z)
  : TPMSProtocolDecoderNissan :=
  mk (base i) (decoder i) (generic i) (pwm_data i) level duration.

Definition nissan_crc8 (data : list Z) (len : nat) : Z :=
  crc8_loop 0x07 0x00 data len.

Definition tpms_protocol_decoder_nissan_reset (instance : TPMSProtocolDecoderNissan)
  : TPMSProtocolDecoderNissan :=
  set_last (set_step instance NissanDecoderStepReset) false 0.

Definition tpms_protocol_nissan_check_crc (data : list Z) : bool :=
  let calc_crc := nissan_crc8 data 8 in
  calc_crc =? byte_at data 8.

Definition tpms_protocol_nissan_analyze (instance : Generic.t) (data : list Z)
  : Generic.t :=
  let id := pack32 (byte_at data 1) (byte_at data 2) (byte_at data 3) (byte_at data 4) in
  let pressure_raw := Z.lor (u16 (Z.shiftl (byte_at data 5) 8)) (byte_at data 6) in
  let pressure_kpa := Float32.mul (Float32.of_int pressure_raw) (Float32.literal 25 100) in
  let pressure := Float32.mul pressure_kpa (Float32.literal 1 100) in
  let temp_raw := byte_at data 7 in
  let temperature := Float32.sub (Float32.of_int temp_raw) (Float32.of_int 40) in
  let flags := byte_at data 8 in
  let battery_low := Z.land flags 0x80 =? 0x80 in
  Generic.mk (Generic.protocol_name instance) id (Z.b2z battery_low) pressure
             temperature (pack_raw data 8 9) 72.

(** The PWM discriminator of the preamble and data steps:
    [Some true] for bit 1, [Some false] for bit 0, [None] for the branch that
    resets the decoder. *)
Definition pwm_bit (last_duration : Z) : option bool :=
  if te_long tpms_protocol_nissan_const - te_delta tpms_protocol_nissan_const
     <=? last_duration then Some true
  else if te_short tpms_protocol_nissan_const - te_delta tpms_protocol_nissan_const
          <=? last_duration then Some false
  else None.

Definition tpms_protocol_decoder_nissan_feed
    (instance : TPMSProtocolDecoderNissan) (level : bool) (duration : Z)
  : TPMSProtocolDecoderNissan * bool :=
  match parser_step (decoder instance) with
  | NissanDecoderStepReset =>
      if level && (te_long tpms_protocol_nissan_const
                   - te_delta tpms_protocol_nissan_const <=? duration) then
        (set_decoder instance (mkBlockDecoder NissanDecoderStepPreamble 0 0), false)
      else (instance, false)
  | NissanDecoderStepPreamble =>
      if negb level then
        match pwm_bit (last_duration instance) with
        | None => (set_step instance NissanDecoderStepReset, false)   (* break *)
        | Some bit_value =>
            let instance :=
              set_decoder instance
                (subghz_protocol_blocks_add_bit (decoder instance) bit_value) in
            let instance :=
              if 28 <=? decode_count_bit (decoder instance) then
                let sync_check := Z.land (decode_data (decoder instance)) 0xFF in
                let instance :=
                  if sync_check =? NISSAN_SYNC_PATTERN then
                    set_pwm_data
                      (set_decoder instance (mkBlockDecoder NissanDecoderStepData 0 0))
                      (memset_zero 9)
                  else instance in
                if 40 <? decode_count_bit (decoder instance)
                then set_step instance NissanDecoderStepReset
                else instance
              else instance in
            (set_last instance level duration, false)
        end
      else (set_last instance level duration, false)
  | NissanDecoderStepData =>
      if negb level then
        match pwm_bit (last_duration instance) with
        | None => (set_step instance NissanDecoderStepReset, false)   (* break *)
        | Some bit_value =>
            let instance :=
              set_decoder instance
                (subghz_protocol_blocks_add_bit (decoder instance) bit_value) in
            if min_count_bit_for_found tpms_protocol_nissan_const
               <=? decode_count_bit (decoder instance) then
              let instance :=
                set_pwm_data instance
                  (unpack_bytes (decode_data (decoder instance)) 7 1 8
                     (array_set (pwm_data instance) 0 NISSAN_SYNC_PATTERN)) in
              if tpms_protocol_nissan_check_crc (pwm_data instance) then
                let instance :=
                  set_generic instance
                    (tpms_protocol_nissan_analyze (generic instance)
                                                  (pwm_data instance)) in
                (set_last (set_step instance NissanDecoderStepReset) level duration,
                 callback (base instance))
              else
                (set_last (set_step instance NissanDecoderStepReset) level duration, false)
            else (set_last instance level duration, false)
        end
      else (set_last instance level duration, false)
  end.

End Nissan.

(** ** Persisted readings *)

(** Modelled from the spec: the persisted record is owned by the firmware's
    key-value file format; section 6 lists what a record carries: protocol
    name, frequency preset, raw bit pattern and bit count.  A field that is
    absent from a malformed or truncated record is [None]. *)
Record FlipperFormat : Type := mkFlipperFormat {
  record_protocol : option string;
  record_preset : option string;
  record_key : option Z;
  record_bit : option Z
}.

(** Modelled from the spec: the status type belongs to the firmware;
    section 4.4: the status signals malformed or truncated data, and a
    bit-count mismatch is a hard validation failure. *)
Inductive SubGhzProtocolStatus : Type :=
| SubGhzProtocolStatusOk
| SubGhzProtocolStatusError
| SubGhzProtocolStatusErrorValueBitCount.

(** Modelled from the spec: [tpms_block_generic_deserialize] lives in
    [protocols/tpms_generic.c], which is missing; section 4.4: it restores
    the last reading (raw bit pattern and bit count) from a record and fails
    on malformed or truncated data. *)
Definition tpms_block_generic_deserialize (instance : Generic.t) (ff : FlipperFormat)
  : Generic.t * SubGhzProtocolStatus :=
  match record_protocol ff, record_key ff, record_bit ff with
  | Some _, Some key, Some bit =>
      (Generic.mk (Generic.protocol_name instance) (Generic.id instance)
                  (Generic.battery_low instance) (Generic.pressure instance)
                  (Generic.temperature instance) key bit,
       SubGhzProtocolStatusOk)
  | _, _, _ => (instance, SubGhzProtocolStatusError)
  end.

(** Modelled from the spec: [tpms_block_generic_deserialize_check_count_bit]
    lives in [protocols/tpms_generic.c], which is missing; section 6:
    deserialize must reject any record whose bit count does not equal the
    protocol's fixed [min_count_bit_for_found]. *)
Definition tpms_block_generic_deserialize_check_count_bit
    (instance : Generic.t) (ff : FlipperFormat) (count_bit : Z)
  : Generic.t * SubGhzProtocolStatus :=
  match tpms_block_generic_deserialize instance ff with
  | (instance, SubGhzProtocolStatusOk) =>
      if Generic.data_count_bit instance =? count_bit
      then (instance, SubGhzProtocolStatusOk)
      else (instance, SubGhzProtocolStatusErrorValueBitCount)
  | (instance, ret) => (instance, ret)
  end.

Definition tpms_protocol_decoder_ford_deserialize
    (instance : Ford.TPMSProtocolDecoderFord) (flipper_format : FlipperFormat)
  : Ford.TPMSProtocolDecoderFord * SubGhzProtocolStatus :=
  let '(g, ret) :=
    tpms_block_generic_deserialize_check_count_bit
      (Ford.generic instance) flipper_format
      (min_count_bit_for_found Ford.tpms_protocol_ford_const) in
  (Ford.set_generic instance g, ret).

Definition tpms_protocol_decoder_gm_deserialize
    (instance : GM.TPMSProtocolDecoderGM) (flipper_format : FlipperFormat)
  : GM.TPMSProtocolDecoderGM * SubGhzProtocolStatus :=
  let '(g, ret) :=
    tpms_block_generic_deserialize_check_count_bit
      (GM.generic instance) flipper_format
      (min_count_bit_for_found GM.tpms_protocol_gm_const) in
  (GM.set_generic instance g, ret).

Definition tpms_protocol_decoder_hyundai_deserialize
    (instance : Hyundai.TPMSProtocolDecoderHyundai) (flipper_format : FlipperFormat)
  : Hyundai.TPMSProtocolDecoderHyundai * SubGhzProtocolStatus :=
  let '(g, ret) :=
    tpms_block_generic_deserialize_check_count_bit
      (Hyundai.generic instance) flipper_format
      (min_count_bit_for_found Hyundai.tpms_protocol_hyundai_const) in
  (Hyundai.set_generic instance g, ret).

Definition tpms_protocol_decoder_toyota_deserialize
    (instance : Toyota.TPMSProtocolDecoderToyota) (flipper_format : FlipperFormat)
  : Toyota.TPMSProtocolDecoderToyota * SubGhzProtocolStatus :=
  let '(g, ret) :=
    tpms_block_generic_deserialize_check_count_bit
      (Toyota.generic instance) flipper_format
      (min_count_bit_for_found Toyota.tpms_protocol_toyota_const) in
  (Toyota.set_generic instance g, ret).

Definition tpms_protocol_decoder_nissan_deserialize
    (instance : Nissan.TPMSProtocolDecoderNissan) (flipper_format : FlipperFormat)
  : Nissan.TPMSProtocolDecoderNissan * SubGhzProtocolStatus :=
  let '(g, ret) :=
    tpms_block_generic_deserialize_check_count_bit
      (Nissan.generic instance) flipper_format
      (min_count_bit_for_found Nissan.tpms_protocol_nissan_const) in
  (Nissan.set_generic instance g, ret).

(** ** The decoder interface and the registry *)

(** The uniform view of a protocol's [parser_step]. *)
Inductive Phase : Type :=
| PhaseReset        (* the initial step *)
| PhaseSync         (* searching the sync pattern *)
| PhaseData         (* collecting the frame *)
| PhaseUnused.      (* an enumerator without a case in [feed] *)

(** The table of operations every protocol exports
    ([const SubGhzProtocolDecoder tpms_protocol_*_decoder]), together with the
    projections of the instance that the properties below observe. *)
Record SubGhzProtocolDecoder : Type := mkDecoder {
  instance : Type;
  reset : instance -> instance;
  feed : instance -> bool -> Z -> instance * bool;
  deserialize : instance -> FlipperFormat -> instance * SubGhzProtocolStatus;
  phase : instance -> Phase;
  accumulator : instance -> Z;
  count_bit : instance -> Z;
  reading : instance -> Generic.t;
  frame : instance -> list Z;
  validate : list Z -> bool;
  block_const : SubGhzBlockConst;
  overflow_ceiling : Z
}.

Definition ford_phase (st : Ford.FordDecoderStep) : Phase :=
  match st with
  | Ford.FordDecoderStepReset => PhaseReset
  | Ford.FordDecoderStepSync => PhaseSync
  | Ford.FordDecoderStepData => PhaseData
  end.

Definition gm_phase (st : GM.GMDecoderStep) : Phase :=
  match st with
  | GM.GMDecoderStepReset => PhaseReset
  | GM.GMDecoderStepPreamble => PhaseSync
  | GM.GMDecoderStepSync => PhaseUnused
  | GM.GMDecoderStepData => PhaseData
  end.

Definition hyundai_phase (st : Hyundai.HyundaiDecoderStep) : Phase :=
  match st with
  | Hyundai.HyundaiDecoderStepReset => PhaseReset
  | Hyundai.HyundaiDecoderStepPreamble => PhaseSync
  | Hyundai.HyundaiDecoderStepData => PhaseData
  end.

Definition toyota_phase (st : Toyota.ToyotaDecoderStep) : Phase :=
  match st with
  | Toyota.ToyotaDecoderStepReset => PhaseReset
  | Toyota.ToyotaDecoderStepSync => PhaseSync
  | Toyota.ToyotaDecoderStepData => PhaseData
  end.

Definition nissan_phase (st : Nissan.NissanDecoderStep) : Phase :=
  match st with
  | Nissan.NissanDecoderStepReset => PhaseReset
  | Nissan.NissanDecoderStepPreamble => PhaseSync
  | Nissan.NissanDecoderStepData => PhaseData
  end.

Definition tpms_protocol_ford_decoder : SubGhzProtocolDecoder :=
  mkDecoder Ford.TPMSProtocolDecoderFord
    Ford.tpms_protocol_decoder_ford_reset
    Ford.tpms_protocol_decoder_ford_feed
    tpms_protocol_decoder_ford_deserialize
    (fun i => ford_phase (parser_step (Ford.decoder i)))
    (fun i => decode_data (Ford.decoder i))
    (fun i => decode_count_bit (Ford.decoder i))
    Ford.generic Ford.manchester_data
    Ford.tpms_protocol_ford_check_checksum
    Ford.tpms_protocol_ford_const 32.

Definition tpms_protocol_gm_decoder : SubGhzProtocolDecoder :=
  mkDecoder GM.TPMSProtocolDecoderGM
    GM.tpms_protocol_decoder_gm_reset
    GM.tpms_protocol_decoder_gm_feed
    tpms_protocol_decoder_gm_deserialize
    (fun i => gm_phase (parser_step (GM.decoder i)))
    (fun i => decode_data (GM.decoder i))
    (fun i => decode_count_bit (GM.decoder i))
    GM.generic GM.manchester_data
    GM.tpms_protocol_gm_check_crc
    GM.tpms_protocol_gm_const 32.

Definition tpms_protocol_hyundai_decoder : SubGhzProtocolDecoder :=
  mkDecoder Hyundai.TPMSProtocolDecoderHyundai
    Hyundai.tpms_protocol_decoder_hyundai_reset
    Hyundai.tpms_protocol_decoder_hyundai_feed
    tpms_protocol_decoder_hyundai_deserialize
    (fun i => hyundai_phase (parser_step (Hyundai.decoder i)))
    (fun i => decode_data (Hyundai.decoder i))
    (fun i => decode_count_bit (Hyundai.decoder i))
    Hyundai.generic Hyundai.manchester_data
    Hyundai.tpms_protocol_hyundai_check_crc
    Hyundai.tpms_protocol_hyundai_const 40.

Definition tpms_protocol_toyota_decoder : SubGhzProtocolDecoder :=
  mkDecoder Toyota.TPMSProtocolDecoderToyota
    Toyota.tpms_protocol_decoder_toyota_reset
    Toyota.tpms_protocol_decoder_toyota_feed
    tpms_protocol_decoder_toyota_deserialize
    (fun i => toyota_phase (parser_step (Toyota.decoder i)))
    (fun i => decode_data (Toyota.decoder i))
    (fun i => decode_count_bit (Toyota.decoder i))
    Toyota.generic Toyota.manchester_data
    Toyota.tpms_protocol_toyota_check_crc
    Toyota.tpms_protocol_toyota_const 24.

Definition tpms_protocol_nissan_decoder : SubGhzProtocolDecoder :=
  mkDecoder Nissan.TPMSProtocolDecoderNissan
    Nissan.tpms_protocol_decoder_nissan_reset
    Nissan.tpms_protocol_decoder_nissan_feed
    tpms_protocol_decoder_nissan_deserialize
    (fun i => nissan_phase (parser_step (Nissan.decoder i)))
    (fun i => decode_data (Nissan.decoder i))
    (fun i => decode_count_bit (Nissan.decoder i))
    Nissan.generic Nissan.pwm_data
    Nissan.tpms_protocol_nissan_check_crc
    Nissan.tpms_protocol_nissan_const 40.

(** The protocols of [tpms_protocol_registry_items] whose source is present
    (the Schrader decoder is registered first and its file is missing). *)
Inductive TPMSProtocol : Type :=
| TPMSToyota
| TPMSFord
| TPMSGM
| TPMSNissan
| TPMSHyundai.

Definition tpms_protocol_registry_items : list TPMSProtocol :=
  [TPMSToyota; TPMSFord; TPMSGM; TPMSNissan; TPMSHyundai].

Definition protocol_decoder (p : TPMSProtocol) : SubGhzProtocolDecoder :=
  match p with
  | TPMSToyota => tpms_protocol_toyota_decoder
  | TPMSFord => tpms_protocol_ford_decoder
  | TPMSGM => tpms_protocol_gm_decoder
  | TPMSNissan => tpms_protocol_nissan_decoder
  | TPMSHyundai => tpms_protocol_hyundai_decoder
  end.

(** An edge event: level and duration in microseconds. *)
Definition Edge : Type := (bool * Z)%type.

(** Feeding a sequence of edges: the final instance and, for every call of
    [feed] that invoked the result callback, the instance as that call
    returned it.  The callback itself runs inside [feed], after the byte
    buffer, the reading and the bit count are written and before
    [parser_step] is set back to Reset (for Nissan, also before [last_level]
    and [last_duration] are recorded): of a recorded instance, the reading,
    the byte buffer, the accumulator and the count are those the callback
    saw, the step is not. *)
Fixpoint feed_all (D : SubGhzProtocolDecoder) (s : instance D) (edges : list Edge)
  : instance D * list (instance D) :=
  match edges with
  | [] => (s, [])
  | (level, duration) :: rest =>
      let '(s1, called) := feed D s level duration in
      let '(s2, calls) := feed_all D s1 rest in
      (s2, if called then s1 :: calls else calls)
  end.

(** What the host can do with an instance: feed an edge or reset it. *)
Inductive step (D : SubGhzProtocolDecoder) : instance D -> instance D -> Prop :=
| step_feed : forall s level duration, step D s (fst (feed D s level duration))
| step_reset : forall s, step D s (reset D s).

Inductive reachable (D : SubGhzProtocolDecoder) (s0 : instance D)
  : instance D -> Prop :=
| reachable_start : reachable D s0 s0
| reachable_step : forall s s', reachable D s0 s -> step D s s' -> reachable D s0 s'.

(** ** The vocabulary of the specification *)

(** A buffer of [n] bytes. *)
Definition frame_ok (n : nat) (data : list Z) : Prop :=
  List.length data = n /\ Forall is_u8 data.

(** The arithmetic sum of the first [n] bytes. *)
Definition sum_bytes (n : nat) (data : list Z) : Z :=
  fold_right Z.add 0 (firstn n data).

(** The big-endian value of four bytes. *)
Definition be32 (b0 b1 b2 b3 : Z) : Z :=
  b0 * 2 ^ 24 + b1 * 2 ^ 16 + b2 * 2 ^ 8 + b3.

(** Ford: byte 4 with bit [0x20] of byte 6 as the ninth bit. *)
Definition raw9bit (data : list Z) : Z :=
  byte_at data 4 + 256 * Z.b2z (Z.testbit (byte_at data 6) 5).

(** The binary32 computation of the Ford pressure from its raw value. *)
Definition ford_pressure_psi (raw : Z) : Float32.float :=
  Float32.mul (Float32.of_int raw) (Float32.literal 25 100).
Definition ford_pressure_bar (raw : Z) : Float32.float :=
  Float32.mul (ford_pressure_psi raw) (Float32.literal 689476 10000000).

(** Ford: the pressure of the specification, as an exact rational:
    raw x 0.25 PSI x 0.0689476 bar. *)
Definition ford_pressure_spec (raw : Z) : Q :=
  (inject_Z raw * (1 # 4) * (689476 # 10000000))%Q.

(** [x] is a finite binary32 number within [eps] of the rational [q]. *)
Definition close_to (x : Float32.float) (q eps : Q) : bool :=
  Float32.is_finite x && Qle_bool (Qabs (Float32.to_Q x - q)) eps.

(** [x] is a finite binary32 number whose value is the integer [z]. *)
Definition float_is_int (x : Float32.float) (z : Z) : bool :=
  Float32.is_finite x && Qeq_bool (Float32.to_Q x) (inject_Z z).

(** The outcome of one call of [feed] on instance [s]: either the callback
    was not invoked and the reading is untouched, or the frame assembled in
    the byte buffer passed the protocol's validation, in a call made in the
    data step that returns to the initial step. *)
Definition feed_outcome (D : SubGhzProtocolDecoder) (s : instance D)
    (r : instance D * bool) : Prop :=
  (snd r = false /\ reading D (fst r) = reading D s)
  \/ (validate D (frame D (fst r)) = true
      /\ phase D s = PhaseData
      /\ phase D (fst r) = PhaseReset
      /\ min_count_bit_for_found (block_const D) <= count_bit D (fst r)).

(** ** Test vectors *)

(** The [w] low bits of [v], most significant first. *)
Definition bits_msb (w : nat) (v : Z) : list bool :=
  map (fun i => Z.testbit v (Z.of_nat (w - 1 - i))) (seq 0 w).

Definition bits_of_bytes (bs : list Z) : list bool := flat_map (bits_msb 8) bs.

(** One edge of nominal duration [te] per bit, the level carrying the bit. *)
Definition edges_of_bits (te : Z) (bits : list bool) : list Edge :=
  map (fun b => (b, te)) bits.

Definition zero_reading (name : string) : Generic.t :=
  Generic.mk name 0 0 (S754_zero false) (S754_zero false) 0 0.

(** Instances after [alloc] and [reset], with a callback registered. *)
Definition ford_start : Ford.TPMSProtocolDecoderFord :=
  Ford.tpms_protocol_decoder_ford_reset
    (Ford.mk (mkBase true) (mkBlockDecoder Ford.FordDecoderStepReset 0 0)
       (zero_reading "Ford TPMS") (memset_zero 8) ManchesterStateStart1).

Definition gm_start : GM.TPMSProtocolDecoderGM :=
  GM.tpms_protocol_decoder_gm_reset
    (GM.mk (mkBase true) (mkBlockDecoder GM.GMDecoderStepReset 0 0)
       (zero_reading "GM TPMS") (memset_zero 9) ManchesterStateStart1).

Definition hyundai_start : Hyundai.TPMSProtocolDecoderHyundai :=
  Hyundai.tpms_protocol_decoder_hyundai_reset
    (Hyundai.mk (mkBase true) (mkBlockDecoder Hyundai.HyundaiDecoderStepReset 0 0)
       (zero_reading "Hyundai TPMS") (memset_zero 10) ManchesterStateStart1).

Definition nissan_start : Nissan.TPMSProtocolDecoderNissan :=
  Nissan.tpms_protocol_decoder_nissan_reset
    (Nissan.mk (mkBase true) (mkBlockDecoder Nissan.NissanDecoderStepReset 0 0)
       (zero_reading "Nissan TPMS") (memset_zero 9) false 0).

Definition toyota_start : Toyota.TPMSProtocolDecoderToyota :=
  Toyota.tpms_protocol_decoder_toyota_reset
    (Toyota.mk (mkBase true) (mkBlockDecoder Toyota.ToyotaDecoderStepReset 0 0)
       (zero_reading "Toyota TPMS") (memset_zero 10) 0 false 0).

(** A Toyota frame whose CRC is right and whose two pressure copies agree
    (0x64 and 0x9B xor 0xFF).  The CRC byte is zero, like byte 0: the byte
    that [feed] reads with a shift by 64 is then zero whether the shift
    clears the word or leaves it as it is. *)
Definition toyota_good_frame : list Z :=
  [0x00; 0xAA; 0xBB; 0x57; 0x32; 0x50; 0x00; 0x9B; 0x00].

(** A Toyota frame whose CRC is right (zero again) and whose two pressure
    copies differ (0x64 and 0x00 xor 0xFF). *)
Definition toyota_mismatch_frame : list Z :=
  [0x00; 0x12; 0x34; 0x54; 0x32; 0x50; 0x00; 0x00; 0x00].

(** The edges of a Toyota frame as the decoder reads them: one qualifying
    high edge, the twelve sync bits, the 72 frame bits. *)
Definition toyota_frame_edges (frame : list Z) : list Edge :=
  (true, 52) :: edges_of_bits 52 (bits_msb 12 0xA9E ++ bits_of_bytes frame).

(** ** The statements about reset, sync search and deserialize *)

(** The bit widths the specification fixes per protocol. *)
Definition expected_bits (p : TPMSProtocol) : Z :=
  match p with
  | TPMSFord => 64
  | TPMSGM | TPMSNissan | TPMSToyota => 72
  | TPMSHyundai => 80
  end.

(** The overflow ceilings the specification gives per protocol. *)
Definition expected_ceiling (p : TPMSProtocol) : Z :=
  match p with
  | TPMSFord | TPMSGM => 32
  | TPMSToyota => 24
  | TPMSHyundai | TPMSNissan => 40
  end.

(** Whether an edge is one on which the sync search shifts a bit in: every
    edge for the Manchester protocols, the low levels for the Nissan PWM
    decoder, which only records the others. *)
Definition accumulates (p : TPMSProtocol) (e : Edge) : bool :=
  match p with
  | TPMSNissan => negb (fst e)
  | _ => true
  end.

(** In the sync search the bit count is within the ceiling. *)
Definition sync_inv (D : SubGhzProtocolDecoder) (s : instance D) : Prop :=
  phase D s = PhaseSync -> 0 <= count_bit D s <= overflow_ceiling D.

(** What one call of [feed] can do to a sync search: give up, find the sync
    pattern, shift one more bit in below the ceiling, or (on an edge that
    does not accumulate) leave the accumulator alone. *)
Definition sync_progress (D : SubGhzProtocolDecoder) (acc : bool)
    (s s' : instance D) : Prop :=
  phase D s' = PhaseReset
  \/ (phase D s' = PhaseData /\ count_bit D s' = 0 /\ accumulator D s' = 0)
  \/ (phase D s' = PhaseSync
      /\ count_bit D s' = count_bit D s + 1
      /\ count_bit D s' <= overflow_ceiling D)
  \/ (acc = false
      /\ phase D s' = PhaseSync
      /\ count_bit D s' = count_bit D s
      /\ accumulator D s' = accumulator D s).

(** The line-code sub-state as [reset] writes it: [ManchesterStateStart1]
    for the Ford, GM and Hyundai decoders; a low last level of duration zero
    for the Nissan decoder; for the Toyota decoder no Manchester bit counted,
    the search for the sync pattern on and no sync bit found. *)
Definition line_code_initial (p : TPMSProtocol)
  : instance (protocol_decoder p) -> Prop :=
  match p with
  | TPMSToyota => fun s =>
      Toyota.manchester_bit_count s = 0
      /\ Toyota.looking_for_sync s = true
      /\ Toyota.sync_found_bits s = 0
  | TPMSFord => fun s => Ford.manchester_state s = ManchesterStateStart1
  | TPMSGM => fun s => GM.manchester_state s = ManchesterStateStart1
  | TPMSNissan => fun s =>
      Nissan.last_level s = false /\ Nissan.last_duration s = 0
  | TPMSHyundai => fun s => Hyundai.manchester_state s = ManchesterStateStart1
  end.

(** The claim that reset clears the accumulator, as the specification
    states it. *)
Definition reset_clears_accumulator (D : SubGhzProtocolDecoder) (s0 : instance D)
  : Prop :=
  forall s, reachable D s0 s ->
    phase D (reset D s) = PhaseReset
    /\ accumulator D (reset D s) = 0
    /\ count_bit D (reset D s) = 0.

(** The window of the specification: the [n] most recent bits. *)
Definition most_recent_bits (n : Z) (decode_data : Z) : Z :=
  Z.land decode_data (Z.ones n).

(** The window the Ford, GM and Toyota searches compare:
    [(decode_data >> (decode_count_bit - n)) & mask]. *)
Definition shifted_window (n : Z) (decode_data decode_count_bit : Z) : Z :=
  Z.land (Z.shiftr decode_data (decode_count_bit - n)) (Z.ones n).

(** A duration within [te - delta, te + delta]. *)
Definition in_window (duration te delta : Z) : bool :=
  (te - delta <=? duration) && (duration <=? te + delta).

(** The Ford sync search as it stands between two calls: the accumulator
    holds [decode_count_bit] bits, and once sixteen bits are in, the window
    compared so far is not the sync pattern. *)
Definition ford_search_inv (s : Ford.TPMSProtocolDecoderFord) : Prop :=
  parser_step (Ford.decoder s) = Ford.FordDecoderStepSync ->
  0 <= decode_count_bit (Ford.decoder s) <= 32
  /\ 0 <= decode_data (Ford.decoder s) < 2 ^ decode_count_bit (Ford.decoder s)
  /\ (16 <= decode_count_bit (Ford.decoder s) ->
      shifted_window 16 (decode_data (Ford.decoder s))
                     (decode_count_bit (Ford.decoder s)) <> 0xaaa9).

(** The claim that the Nissan discriminator works with two tolerance
    windows, as the specification states it: on a low level processed in the
    preamble or data step, bit 1 exactly for a recorded duration within
    104 +- 15, bit 0 exactly within 52 +- 15, and a return to the Reset step
    outside both windows. *)
Definition nissan_window_claim (s0 : Nissan.TPMSProtocolDecoderNissan) : Prop :=
  let D := tpms_protocol_nissan_decoder in
  forall (s : instance D) (duration : Z),
    reachable D s0 s ->
    phase D s = PhaseSync \/ phase D s = PhaseData ->
    let d := Nissan.last_duration s in
    (Nissan.pwm_bit d = Some true <-> in_window d 104 15 = true)
    /\ (Nissan.pwm_bit d = Some false <-> in_window d 52 15 = true)
    /\ (in_window d 104 15 = false -> in_window d 52 15 = false ->
        phase D (fst (feed D s false duration)) = PhaseReset).

(** ** Bits and bytes on the wire *)

(** The value of a bit sequence, most significant bit first. *)
Definition bits_value (bits : list bool) : Z :=
  fold_left (fun v b => 2 * v + Z.b2z b) bits 0.

(** The accumulator after the sequence of bits has been shifted in. *)
Definition add_bits {Step : Type} (d : SubGhzBlockDecoder Step) (bits : list bool)
  : SubGhzBlockDecoder Step :=
  fold_left subghz_protocol_blocks_add_bit bits d.

(** The Toyota instance after the call that completes a frame: the
    accumulator [d], the frame unpacked into the byte buffer, the reading
    analysed when the CRC passes, the step back at Reset. *)
Definition toyota_completed (s : Toyota.TPMSProtocolDecoderToyota)
    (d : SubGhzBlockDecoder Toyota.ToyotaDecoderStep)
  : Toyota.TPMSProtocolDecoderToyota :=
  let buf := unpack_bytes (decode_data d) 8 0 9 (Toyota.manchester_data s) in
  let s1 := Toyota.set_manchester_data (Toyota.set_decoder s d) buf in
  if Toyota.tpms_protocol_toyota_check_crc buf
  then Toyota.set_step
         (Toyota.set_generic s1
            (Toyota.tpms_protocol_toyota_analyze (Toyota.generic s) buf))
         Toyota.ToyotaDecoderStepReset
  else Toyota.set_step s1 Toyota.ToyotaDecoderStepReset.

(** ** Edge sequences *)

(** No two consecutive edges carry the same level, as in a signal that the
    radio reports by its transitions. *)
Fixpoint alternating (edges : list Edge) : bool :=
  match edges with
  | (l1, _) :: rest =>
      match rest with
      | (l2, _) :: _ => negb (Bool.eqb l1 l2) && alternating rest
      | [] => true
      end
  | [] => true
  end.

(** An edge that fails the test [DURATION_DIFF(duration, te_short) < te_delta]
    of the Ford, GM, Hyundai and Toyota decoders: its duration is at least
    [te_delta] away from [te_short].  (The Nissan decoder does not make this
    test: it compares durations with lower thresholds.) *)
Definition out_of_tolerance (c : SubGhzBlockConst) (e : Edge) : bool :=
  te_delta c <=? Z.abs (snd e - te_short c).

(** The bytes a validator reads: the summed or CRC-ed bytes and the check
    byte that follows them. *)
Definition checked_length (p : TPMSProtocol) : nat :=
  match p with
  | TPMSFord => 8
  | TPMSHyundai => 10
  | TPMSToyota | TPMSGM | TPMSNissan => 9
  end.

(** [B'] is [B] with the byte at index [k] changed, and no other. *)
Definition differs_only_at (k : nat) (B B' : list Z) : Prop :=
  byte_at B k <> byte_at B' k /\ forall i, i <> k -> byte_at B i = byte_at B' i.

(** A check value folded over the bytes at the indices [l], as the checksum
    and the CRC loops are. *)
Definition byte_fold (f : Z -> Z -> Z) (data : list Z) (l : list nat) (init : Z) : Z :=
  fold_left (fun c i => f c (byte_at data i)) l init.

(** One round of the CRC undone, for an odd polynomial: bit 0 of the result
    of a round is the bit that the round shifted out. *)
Definition crc8_unshift (poly crc : Z) : Z :=
  if Z.odd crc then Z.shiftr (Z.lxor crc poly) 1 + 0x80 else Z.shiftr crc 1.

(** The eight rounds of one CRC byte can be undone, as a check over the 256
    bytes. *)
Definition crc8_byte_invertible (poly : Z) : bool :=
  forallb (fun c => Nat.iter 8 (crc8_unshift poly) (Nat.iter 8 (crc8_shift poly) c) =? c)
          (map Z.of_nat (seq 0 256)).

(** ** Vocabulary of the analysis functions *)

(** [x < 0] on binary32 numbers. *)
Definition float_negative (x : Float32.float) : bool :=
  Float32.ltb x (Float32.of_int 0).

(** The big-endian value of a byte string. *)
Definition be_value (bytes : list Z) : Z :=
  fold_left (fun v b => 256 * v + b) bytes 0.

(** GM: the pressure computed from the raw byte, and its exact value in bar. *)
Definition gm_pressure_bar (raw : Z) : Float32.float :=
  Float32.mul (Float32.sub (Float32.of_int raw) (Float32.of_int 50))
              (Float32.literal 1 100).
Definition gm_pressure_spec (raw : Z) : Q :=
  (inject_Z (raw - 50) * (1 # 100))%Q.

(** Hyundai: the same with offset 40 and the clamp at zero. *)
Definition hyundai_pressure_bar (raw : Z) : Float32.float :=
  let kpa := Float32.sub (Float32.of_int raw) (Float32.of_int 40) in
  Float32.mul (if Float32.ltb kpa (Float32.of_int 0) then Float32.of_int 0 else kpa)
              (Float32.literal 1 100).
Definition hyundai_pressure_spec (raw : Z) : Q :=
  (inject_Z (Z.max 0 (raw - 40)) * (1 # 100))%Q.

(** Nissan: a 16-bit raw value in quarters of a kPa. *)
Definition nissan_raw16 (data : list Z) : Z :=
  256 * byte_at data 5 + byte_at data 6.
Definition nissan_pressure_kpa (raw : Z) : Float32.float :=
  Float32.mul (Float32.of_int raw) (Float32.literal 25 100).
Definition nissan_pressure_bar (raw : Z) : Float32.float :=
  Float32.mul (nissan_pressure_kpa raw) (Float32.literal 1 100).
Definition nissan_pressure_spec (raw : Z) : Q :=
  (inject_Z raw * (1 # 400))%Q.

(** Toyota: the eight bits that straddle two bytes, bit 7 of [lo] last. *)
Definition straddle (hi lo : Z) : Z := 2 * (hi mod 128) + lo / 128.
Definition toyota_pressure_bar (raw : Z) : Float32.float :=
  Float32.mul
    (Float32.sub (Float32.mul (Float32.of_int raw) (Float32.literal 25 100))
                 (Float32.of_int 7))
    (Float32.literal 689476 10000000).
Definition toyota_pressure_spec (raw : Z) : Q :=
  ((inject_Z raw * (1 # 4) - 7) * (689476 # 10000000))%Q.

(** ** Text output ([get_string])

    [furi_string_printf] is a firmware function: the functions below stop at
    the values handed to it, in the order of the format string. *)

(** The arguments of the Ford format string
    ["%s\r\nId:0x%08lX\r\nMode:%s\r\nPressure:%.1f PSI\r\n%s%.0f C"]. *)
Record FordText : Type := mkFordText {
  ford_text_name : string;
  ford_text_id : Z;
  ford_text_mode : string;
  ford_text_pressure_psi : Float32.float;
  ford_text_temp_label : string;
  ford_text_temp : Float32.float
}.

(** [uint16_t pressure_raw = (instance->generic.data >> 32) & 0xFF;
     if(flags & 0x20) pressure_raw |= 0x100;] *)
Definition ford_get_string_pressure_raw (g : Generic.t) : Z :=
  let flags := u8 (Generic.battery_low g) in
  let pressure_raw := u16 (Z.land (Z.shiftr (Generic.data g) 32) 0xFF) in
  if Z.land flags 0x20 =? 0 then pressure_raw else u16 (Z.lor pressure_raw 0x100).

Definition tpms_protocol_decoder_ford_get_string (instance : Ford.TPMSProtocolDecoderFord)
  : FordText :=
  let g := Ford.generic instance in
  let flags := u8 (Generic.battery_low g) in
  let pressure_psi :=
    Float32.mul (Float32.of_int (ford_get_string_pressure_raw g)) (Float32.literal 25 100) in
  let mode :=
    if Z.land flags 0x44 =? 0x44 then "Moving"%string
    else if negb (Z.land flags 0x08 =? 0) then "Learn"%string
    else "Rest"%string in
  let temp_valid := Float32.ltb (Float32.of_int (-999)) (Generic.temperature g) in
  mkFordText (Generic.protocol_name g) (Generic.id g) mode pressure_psi
             (if temp_valid then "Temp:" else "Temp:N/A")%string
             (if temp_valid then Generic.temperature g else Float32.of_int 0).

(** The arguments of the format string of the GM, Hyundai and Nissan
    decoders, ["%s\r\nId:0x%08lX\r\nMode:%s\r\nPressure:%.1f kPa\r\nTemp:%.0f C"]. *)
Record KpaText : Type := mkKpaText {
  kpa_text_name : string;
  kpa_text_id : Z;
  kpa_text_mode : string;
  kpa_text_pressure_kpa : Float32.float;
  kpa_text_temp : Float32.float
}.

(** The body the GM, Hyundai and Nissan functions share: [pressure * 100.0f],
    and the mode from [battery_low]. *)
Definition kpa_get_string (g : Generic.t) : KpaText :=
  let pressure_kpa := Float32.mul (Generic.pressure g) (Float32.of_int 100) in
  let mode :=
    if negb (Generic.battery_low g =? 0) then "Battery Low"%string
    else "Normal"%string in
  mkKpaText (Generic.protocol_name g) (Generic.id g) mode pressure_kpa
            (Generic.temperature g).

Definition tpms_protocol_decoder_gm_get_string (instance : GM.TPMSProtocolDecoderGM)
  : KpaText := kpa_get_string (GM.generic instance).
Definition tpms_protocol_decoder_hyundai_get_string
    (instance : Hyundai.TPMSProtocolDecoderHyundai) : KpaText :=
  kpa_get_string (Hyundai.generic instance).

(** ** Nissan pulses *)

(** One pulse per bit: a high edge of the long duration for 1 and of the
    short duration for 0, then a low edge. *)
Definition nissan_pulses (bits : list bool) : list Edge :=
  flat_map (fun b : bool => [(true, if b then 104 else 52); (false, 52)]) bits.

(** A frame as the Nissan decoder accepts it: a long high edge, then the
    pulses of a 20-bit preamble, of the sync byte and of nine bytes.  The
    first pulse begins with a second high edge. *)
Definition nissan_frame_edges (frame : list Z) : list Edge :=
  (true, 104)
  :: nissan_pulses (bits_msb 20 0xAAAAA ++ bits_msb 8 Nissan.NISSAN_SYNC_PATTERN)
  ++ nissan_pulses (bits_of_bytes frame).

(** The instance after the call of the Nissan [feed] that completes a frame
    with accumulator [d]. *)
Definition nissan_completed (s : Nissan.TPMSProtocolDecoderNissan)
    (d : SubGhzBlockDecoder Nissan.NissanDecoderStep)
  : Nissan.TPMSProtocolDecoderNissan :=
  let buf :=
    unpack_bytes (decode_data d) 7 1 8
                 (array_set (Nissan.pwm_data s) 0 Nissan.NISSAN_SYNC_PATTERN) in
  let s1 := Nissan.set_pwm_data (Nissan.set_decoder s d) buf in
  if Nissan.tpms_protocol_nissan_check_crc buf
  then Nissan.set_last
         (Nissan.set_step
            (Nissan.set_generic s1
               (Nissan.tpms_protocol_nissan_analyze (Nissan.generic s) buf))
            Nissan.NissanDecoderStepReset) false 52
  else Nissan.set_last (Nissan.set_step s1 Nissan.NissanDecoderStepReset) false 52.

(** ** The bit count in the data step *)

(** While a frame is collected, fewer bits than the frame length are in. *)
Definition data_inv (D : SubGhzProtocolDecoder) (s : instance D) : Prop :=
  phase D s = PhaseData ->
  0 <= count_bit D s < min_count_bit_for_found (block_const D).

(** A call of [feed] on [s] that invokes the callback and returns [s']: it is
    made in the data step with one bit missing; the bit it shifts in
    completes the count, which is written before the callback is invoked and
    not after; and the step is back at Reset when the call returns (the
    callback itself runs before [parser_step] is written). *)
Definition completes_frame (D : SubGhzProtocolDecoder) (s s' : instance D) : Prop :=
  phase D s = PhaseData
  /\ count_bit D s + 1 = min_count_bit_for_found (block_const D)
  /\ count_bit D s' = min_count_bit_for_found (block_const D)
  /\ phase D s' = PhaseReset.

(** The bits of exactly one frame are counted. *)
Definition full_count (D : SubGhzProtocolDecoder) (s : instance D) : Prop :=
  count_bit D s = min_count_bit_for_found (block_const D).

(** ** The frame handed to the analysis *)

(** The analysis function of a protocol. *)
Definition analyze (p : TPMSProtocol) : Generic.t -> list Z -> Generic.t :=
  match p with
  | TPMSToyota => Toyota.tpms_protocol_toyota_analyze
  | TPMSFord => Ford.tpms_protocol_ford_analyze
  | TPMSGM => GM.tpms_protocol_gm_analyze
  | TPMSNissan => Nissan.tpms_protocol_nissan_analyze
  | TPMSHyundai => Hyundai.tpms_protocol_hyundai_analyze
  end.

(** The constant bytes [feed] writes at the head of the byte buffer before
    the received bytes. *)
Definition sync_bytes (p : TPMSProtocol) : list Z :=
  match p with
  | TPMSGM => [0x55; 0x5D]
  | TPMSHyundai => [0x55; 0x55; 0x56]
  | TPMSNissan => [Nissan.NISSAN_SYNC_PATTERN]
  | TPMSToyota | TPMSFord => []
  end.

(** The size of the byte buffer ([manchester_data], [pwm_data]). *)
Definition buffer_size (p : TPMSProtocol) : nat :=
  match p with
  | TPMSFord => 8
  | TPMSGM | TPMSNissan => 9
  | TPMSHyundai | TPMSToyota => 10
  end.

(** The byte buffer as C has it: an array of [buffer_size] bytes. *)
Definition buffer_ok (p : TPMSProtocol) (s : instance (protocol_decoder p)) : Prop :=
  frame_ok (buffer_size p) (frame (protocol_decoder p) s).

(** The byte buffer [feed] assembles from the accumulator when the last bit
    of a frame is in: the constant bytes, then the bytes unpacked from the
    64-bit word. *)
Definition assembled (p : TPMSProtocol) (decode_data : Z) (buf : list Z) : list Z :=
  match p with
  | TPMSFord => unpack_bytes decode_data 7 0 8 buf
  | TPMSGM =>
      unpack_bytes decode_data 6 2 7 (array_set (array_set buf 0 0x55) 1 0x5D)
  | TPMSHyundai =>
      unpack_bytes decode_data 6 3 7
        (array_set (array_set (array_set buf 0 0x55) 1 0x55) 2 0x56)
  | TPMSNissan =>
      unpack_bytes decode_data 7 1 8 (array_set buf 0 Nissan.NISSAN_SYNC_PATTERN)
  | TPMSToyota => unpack_bytes decode_data 8 0 9 buf
  end.

(** ** The accumulator that [reset] leaves *)

(** The instance with [decode_data] and [decode_count_bit] replaced. *)
Definition set_accumulator (p : TPMSProtocol) (s : instance (protocol_decoder p))
    (decode_data decode_count_bit : Z) : instance (protocol_decoder p) :=
  match p return instance (protocol_decoder p) -> instance (protocol_decoder p) with
  | TPMSToyota => fun s =>
      Toyota.set_decoder s
        (mkBlockDecoder (parser_step (Toyota.decoder s)) decode_data decode_count_bit)
  | TPMSFord => fun s =>
      Ford.set_decoder s
        (mkBlockDecoder (parser_step (Ford.decoder s)) decode_data decode_count_bit)
  | TPMSGM => fun s =>
      GM.set_decoder s
        (mkBlockDecoder (parser_step (GM.decoder s)) decode_data decode_count_bit)
  | TPMSNissan => fun s =>
      Nissan.set_decoder s
        (mkBlockDecoder (parser_step (Nissan.decoder s)) decode_data decode_count_bit)
  | TPMSHyundai => fun s =>
      Hyundai.set_decoder s
        (mkBlockDecoder (parser_step (Hyundai.decoder s)) decode_data decode_count_bit)
  end s.

(** ** The application ([tpms_app_i.c]) *)

(** [tpms_set_preset]: the name stored for a preset, [None] where the
    function logs "Unknown preset" and returns false. *)
Definition tpms_set_preset (preset : string) : option string :=
  if String.eqb preset "FuriHalSubGhzPresetOok270Async" then Some "AM270"%string
  else if String.eqb preset "FuriHalSubGhzPresetOok650Async" then Some "AM650"%string
  else if String.eqb preset "FuriHalSubGhzPreset2FSKDev238Async" then Some "FM238"%string
  else if String.eqb preset "FuriHalSubGhzPreset2FSKDev476Async" then Some "FM476"%string
  else if String.eqb preset "FuriHalSubGhzPresetCustom" then Some "CUSTOM"%string
  else None.

(** [tpms_get_frequency_modulation]: the two numbers printed with
    ["%03ld.%02ld"] from the [uint32_t] frequency, and the text printed with
    ["%.2s"] from the preset name. *)
Definition tpms_get_frequency_modulation (frequency : Z) (name : string)
  : (Z * Z) * string :=
  ((frequency / 1000000 mod 1000, frequency / 10000 mod 100),
   String.substring 0 2 name).

(** * Properties *)

(** ** Arithmetic helpers *)

Lemma forallb_range (P : Z -> bool) (n : nat) :
  forallb P (map Z.of_nat (seq 0 n)) = true ->
  forall z, 0 <= z < Z.of_nat n -> P z = true.
Proof.
  intros H z Hz.
  rewrite forallb_forall in H. apply H.
  apply in_map_iff. exists (Z.to_nat z). split.
  - lia.
  - apply in_seq. lia.
Qed.

Lemma land_shiftl_low (hi lo n : Z) :
  0 <= n -> 0 <= lo < 2 ^ n -> Z.land (Z.shiftl hi n) lo = 0.
Proof.
  intros Hn Hlo. apply Z.bits_inj'. intros i Hi.
  rewrite Z.land_spec, Z.bits_0.
  destruct (Z.ltb_spec i n) as [Hlt | Hge].
  - rewrite Z.shiftl_spec_low by lia. reflexivity.
  - replace lo with (lo mod 2 ^ n) by (apply Z.mod_small; lia).
    rewrite Z.mod_pow2_bits_high by lia. apply andb_false_r.
Qed.

Lemma lor_shiftl_add (hi lo n : Z) :
  0 <= n -> 0 <= lo < 2 ^ n -> Z.lor (Z.shiftl hi n) lo = hi * 2 ^ n + lo.
Proof.
  intros Hn Hlo.
  rewrite <- Z.lxor_lor by (apply land_shiftl_low; assumption).
  rewrite <- Z.add_nocarry_lxor by (apply land_shiftl_low; assumption).
  rewrite Z.shiftl_mul_pow2 by assumption. reflexivity.
Qed.

Lemma land_ff_mod (x : Z) : Z.land x 0xff = x mod 256.
Proof. change 0xff with (Z.ones 8). rewrite Z.land_ones by lia. reflexivity. Qed.

Lemma pack32_be32 (a b c d : Z) :
  is_u8 a -> is_u8 b -> is_u8 c -> is_u8 d -> pack32 a b c d = be32 a b c d.
Proof.
  unfold is_u8, pack32, be32, u32, wrap. intros Ha Hb Hc Hd.
  rewrite !Z.shiftl_mul_pow2 by lia.
  rewrite !Z.mod_small by lia.
  rewrite <- !Z.shiftl_mul_pow2 by lia.
  rewrite (lor_shiftl_add a (Z.shiftl b 16) 24).
  2: lia. 2: rewrite Z.shiftl_mul_pow2 by lia; lia.
  rewrite Z.shiftl_mul_pow2 with (a := b) by lia.
  replace (a * 2 ^ 24 + b * 2 ^ 16) with (Z.shiftl (a * 2 ^ 8 + b) 16)
    by (rewrite Z.shiftl_mul_pow2 by lia; lia).
  rewrite (lor_shiftl_add _ (Z.shiftl c 8) 16).
  2: lia. 2: rewrite Z.shiftl_mul_pow2 by lia; lia.
  rewrite Z.shiftl_mul_pow2 with (a := c) by lia.
  replace ((a * 2 ^ 8 + b) * 2 ^ 16 + c * 2 ^ 8)
    with (Z.shiftl ((a * 2 ^ 8 + b) * 2 ^ 8 + c) 8)
    by (rewrite Z.shiftl_mul_pow2 by lia; lia).
  rewrite (lor_shiftl_add _ d 8) by lia.
  rewrite ?Z.shiftl_mul_pow2 by lia. lia.
Qed.

Lemma frame_ok_byte (n : nat) (data : list Z) (i : nat) :
  frame_ok n data -> is_u8 (byte_at data i).
Proof.
  intros [_ H]. unfold byte_at.
  destruct (Nat.lt_ge_cases i (List.length data)) as [Hlt | Hge].
  - rewrite Forall_forall in H. apply H. apply nth_In. exact Hlt.
  - rewrite nth_overflow by exact Hge. unfold is_u8. lia.
Qed.

(** ** Ford: checksum *)

Lemma u8_add_l (x y : Z) : u8 (u8 x + y) = u8 (x + y).
Proof. unfold u8, wrap. apply Zplus_mod_idemp_l. Qed.

Lemma wrapping_sum (f : nat -> Z) (l : list nat) (acc : Z) :
  fold_left (fun c i => u8 (c + f i)) l (u8 acc)
  = u8 (acc + fold_right Z.add 0 (map f l)).
Proof.
  revert acc. induction l as [| i l IH]; intros acc; cbn [fold_left map fold_right].
  - f_equal. lia.
  - rewrite u8_add_l, IH. f_equal. lia.
Qed.

(** C7.  For every 8-byte buffer the Ford validation returns true exactly
    when the sum of bytes 0 to 6 modulo 256 equals byte 7. *)
Theorem ford_check_checksum_iff (B : list Z) :
  frame_ok 8 B ->
  Ford.tpms_protocol_ford_check_checksum B = true
  <-> sum_bytes 7 B mod 256 = byte_at B 7.
Proof.
  intros [Hlen Hall].
  destruct B as [| b0 [| b1 [| b2 [| b3 [| b4 [| b5 [| b6 [| b7 [| ? ?]]]]]]]]];
    try discriminate Hlen.
  unfold Ford.tpms_protocol_ford_check_checksum, sum_bytes.
  match goal with
  | |- context [fold_left ?f ?l 0] =>
      pose proof (wrapping_sum (byte_at [b0; b1; b2; b3; b4; b5; b6; b7]) l 0) as E
  end.
  change (u8 0) with 0 in E. cbv beta zeta. rewrite E. clear E.
  unfold byte_at. cbn [seq map nth firstn fold_right].
  rewrite land_ff_mod. unfold u8, wrap. change (2 ^ 8) with 256.
  rewrite Z.mod_mod by lia. rewrite Z.add_0_l.
  apply Z.eqb_eq.
Qed.

Lemma ford_check_checksum_iff_witness :
  Ford.tpms_protocol_ford_check_checksum [0x12; 0x34; 0x56; 0x78; 0x64; 0x50; 0x00; 0xC8]
  = true
  <-> sum_bytes 7 [0x12; 0x34; 0x56; 0x78; 0x64; 0x50; 0x00; 0xC8] mod 256
      = byte_at [0x12; 0x34; 0x56; 0x78; 0x64; 0x50; 0x00; 0xC8] 7.
Proof.
  apply ford_check_checksum_iff.
  split; [reflexivity |].
  repeat constructor; unfold is_u8; lia.
Defined.

(** ** Ford: analysis *)

Lemma bit5_test (x : Z) :
  is_u8 x -> (Z.land x 0x20 =? 0) = negb (Z.testbit x 5).
Proof.
  intros Hx.
  apply (forallb_range
           (fun x => Bool.eqb (Z.land x 0x20 =? 0) (negb (Z.testbit x 5))) 256)
    in Hx.
  - apply Bool.eqb_prop. exact Hx.
  - vm_compute. reflexivity.
Qed.

Lemma bit7_test (x : Z) :
  is_u8 x -> (Z.land x 0x80 =? 0) = negb (Z.testbit x 7).
Proof.
  intros Hx.
  apply (forallb_range
           (fun x => Bool.eqb (Z.land x 0x80 =? 0) (negb (Z.testbit x 7))) 256)
    in Hx.
  - apply Bool.eqb_prop. exact Hx.
  - vm_compute. reflexivity.
Qed.

Lemma lor_0x100 (x : Z) : is_u8 x -> Z.lor x 0x100 = x + 256.
Proof.
  intros Hx.
  apply (forallb_range (fun x => Z.lor x 0x100 =? x + 256) 256) in Hx.
  - apply Z.eqb_eq. exact Hx.
  - vm_compute. reflexivity.
Qed.

Lemma ford_pressure_raw_spec (B : list Z) :
  frame_ok 8 B -> Ford.pressure_raw B = raw9bit B.
Proof.
  intros HB. unfold Ford.pressure_raw, raw9bit.
  rewrite bit5_test by (eapply frame_ok_byte; eassumption).
  destruct (Z.testbit (byte_at B 6) 5); cbn [negb Z.b2z].
  - apply lor_0x100. eapply frame_ok_byte; eassumption.
  - lia.
Qed.

Lemma raw9bit_range (B : list Z) : frame_ok 8 B -> 0 <= raw9bit B < 512.
Proof.
  intros HB. unfold raw9bit.
  pose proof (frame_ok_byte 8 B 4 HB) as H4. unfold is_u8 in H4.
  destruct (Z.testbit (byte_at B 6) 5); cbn [Z.b2z]; lia.
Qed.

(** Every raw value is converted exactly to PSI, and the two roundings of the
    conversion to bar stay within one millionth of the exact product. *)
Lemma ford_pressure_accuracy (raw : Z) :
  0 <= raw < 512 ->
  close_to (ford_pressure_psi raw) (inject_Z raw * (1 # 4)) 0 = true
  /\ close_to (ford_pressure_bar raw) (ford_pressure_spec raw) (1 # 1000000) = true.
Proof.
  intros Hraw.
  apply (forallb_range
           (fun raw =>
              close_to (ford_pressure_psi raw) (inject_Z raw * (1 # 4)) 0
              && close_to (ford_pressure_bar raw) (ford_pressure_spec raw)
                          (1 # 1000000)) 512) in Hraw.
  - apply andb_true_iff. exact Hraw.
  - vm_compute. reflexivity.
Qed.

Lemma ford_temperature_exact (t : Z) :
  0 <= t < 128 ->
  float_is_int (Float32.sub (Float32.of_int t) (Float32.of_int 56)) (t - 56) = true.
Proof.
  intros Ht.
  apply (forallb_range
           (fun t => float_is_int (Float32.sub (Float32.of_int t) (Float32.of_int 56))
                                  (t - 56)) 128) in Ht.
  - exact Ht.
  - vm_compute. reflexivity.
Qed.

(** C6.  For every checksum-valid 8-byte Ford frame the analysis stores the
    big-endian value of bytes 0-3 as the sensor id; the pressure is the
    binary32 product (raw9bit x 0.25) x 0.0689476, where raw9bit is byte 4 with
    bit 0x20 of byte 6 as ninth bit, exact in PSI and within 1e-6 bar of the
    rational product; the temperature is (byte5 & 0x7F) - 56 when bit 7 of
    byte 5 is clear and the sentinel -1000 when it is set.  With pressure byte
    0x64 and the flag clear: raw 100, 25.0 PSI, 1.724 bar to three places. *)
Theorem ford_analyze_fields (g : Generic.t) (B : list Z) :
  frame_ok 8 B ->
  Ford.tpms_protocol_ford_check_checksum B = true ->
  let r := Ford.tpms_protocol_ford_analyze g B in
  Generic.id r = be32 (byte_at B 0) (byte_at B 1) (byte_at B 2) (byte_at B 3)
  /\ Ford.pressure_raw B = raw9bit B
  /\ Generic.pressure r = ford_pressure_bar (raw9bit B)
  /\ close_to (ford_pressure_psi (raw9bit B)) (inject_Z (raw9bit B) * (1 # 4)) 0 = true
  /\ close_to (Generic.pressure r) (ford_pressure_spec (raw9bit B)) (1 # 1000000) = true
  /\ (Z.testbit (byte_at B 5) 7 = false ->
      float_is_int (Generic.temperature r) (Z.land (byte_at B 5) 0x7F - 56) = true)
  /\ (Z.testbit (byte_at B 5) 7 = true ->
      Generic.temperature r = Float32.of_int (-1000)
      /\ float_is_int (Generic.temperature r) (-1000) = true)
  /\ (byte_at B 4 = 0x64 -> Z.testbit (byte_at B 6) 5 = false ->
      raw9bit B = 100
      /\ float_is_int (ford_pressure_psi (raw9bit B)) 25 = true
      /\ close_to (Generic.pressure r) (1724 # 1000) (5 # 10000) = true).
Proof.
  intros HB _ r.
  assert (Hp : Generic.pressure r = ford_pressure_bar (raw9bit B)).
  { unfold r, Ford.tpms_protocol_ford_analyze. cbn [Generic.pressure].
    rewrite ford_pressure_raw_spec by exact HB. reflexivity. }
  destruct (ford_pressure_accuracy (raw9bit B) (raw9bit_range B HB)) as [Hpsi Hbar].
  split; [| split; [| split; [| split; [| split; [| split; [| split]]]]]].
  - unfold r, Ford.tpms_protocol_ford_analyze. cbn [Generic.id].
    apply pack32_be32; eapply frame_ok_byte; eassumption.
  - apply ford_pressure_raw_spec. exact HB.
  - exact Hp.
  - exact Hpsi.
  - rewrite Hp. exact Hbar.
  - intros H7. unfold r, Ford.tpms_protocol_ford_analyze. cbn [Generic.temperature].
    rewrite bit7_test by (eapply frame_ok_byte; eassumption).
    rewrite H7. cbn [negb].
    apply ford_temperature_exact.
    change 0x7f with (Z.ones 7). rewrite Z.land_ones by lia.
    apply Z.mod_pos_bound. lia.
  - intros H7. unfold r, Ford.tpms_protocol_ford_analyze. cbn [Generic.temperature].
    rewrite bit7_test by (eapply frame_ok_byte; eassumption).
    rewrite H7. cbn [negb]. split; [reflexivity | vm_compute; reflexivity].
  - intros H4 H6.
    assert (Hraw : raw9bit B = 100).
    { unfold raw9bit. rewrite H4, H6. reflexivity. }
    rewrite Hp, Hraw. repeat split; vm_compute; reflexivity.
Qed.

Lemma ford_analyze_fields_witness :
  let B := [0x12; 0x34; 0x56; 0x78; 0x64; 0x50; 0x00; 0xC8] in
  let r := Ford.tpms_protocol_ford_analyze
             (Generic.mk "Ford TPMS" 0 0 (S754_zero false) (S754_zero false) 0 0) B in
  Generic.id r = 0x12345678
  /\ raw9bit B = 100
  /\ close_to (Generic.pressure r) (1724 # 1000) (5 # 10000) = true
  /\ float_is_int (Generic.temperature r) 24 = true.
Proof.
  intros B r.
  assert (HB : frame_ok 8 B).
  { split; [reflexivity |]. repeat constructor; unfold is_u8; lia. }
  assert (HC : Ford.tpms_protocol_ford_check_checksum B = true) by reflexivity.
  destruct (ford_analyze_fields
              (Generic.mk "Ford TPMS" 0 0 (S754_zero false) (S754_zero false) 0 0)
              B HB HC)
    as (Hid & _ & _ & _ & _ & Ht & _ & Hex).
  destruct (Hex eq_refl eq_refl) as (Hraw & _ & Hbar).
  split; [exact Hid |].
  split; [exact Hraw |].
  split; [exact Hbar |].
  exact (Ht eq_refl).
Defined.

(** ** Emission is gated by validation *)

Ltac split_feed :=
  repeat match goal with
  | |- context [match ?x with _ => _ end] =>
      lazymatch x with
      | context [match _ with _ => _ end] => fail
      | _ => destruct x eqn:?
      end
  end.

Ltac feed_simpl :=
  cbn -[manchester_advance unpack_bytes array_set u8 u64 memset_zero
        Z.leb Z.ltb Z.eqb Z.shiftl Z.shiftr Z.land Z.lor Z.add Z.sub
        Ford.tpms_protocol_ford_analyze Ford.tpms_protocol_ford_check_checksum
        GM.tpms_protocol_gm_analyze GM.tpms_protocol_gm_check_crc
        Hyundai.tpms_protocol_hyundai_analyze Hyundai.tpms_protocol_hyundai_check_crc
        Toyota.tpms_protocol_toyota_analyze Toyota.tpms_protocol_toyota_check_crc
        Nissan.tpms_protocol_nissan_analyze Nissan.tpms_protocol_nissan_check_crc
        Ford.in_tolerance GM.in_tolerance Hyundai.in_tolerance Toyota.in_tolerance
        Nissan.pwm_bit] in *.

Ltac outcome_done :=
  solve [ left; split; reflexivity
        | right; repeat split; try assumption; try reflexivity;
          try (match goal with
               | H : parser_step _ = _ |- _ => rewrite H; reflexivity
               end);
          apply Z.leb_le; assumption ].

Lemma ford_feed_outcome (s : Ford.TPMSProtocolDecoderFord) level duration :
  feed_outcome tpms_protocol_ford_decoder s
    (Ford.tpms_protocol_decoder_ford_feed s level duration).
Proof.
  unfold feed_outcome, Ford.tpms_protocol_decoder_ford_feed.
  split_feed; feed_simpl; outcome_done.
Qed.

Lemma gm_feed_outcome (s : GM.TPMSProtocolDecoderGM) level duration :
  feed_outcome tpms_protocol_gm_decoder s
    (GM.tpms_protocol_decoder_gm_feed s level duration).
Proof.
  unfold feed_outcome, GM.tpms_protocol_decoder_gm_feed.
  split_feed; feed_simpl; outcome_done.
Qed.

Lemma hyundai_feed_outcome (s : Hyundai.TPMSProtocolDecoderHyundai) level duration :
  feed_outcome tpms_protocol_hyundai_decoder s
    (Hyundai.tpms_protocol_decoder_hyundai_feed s level duration).
Proof.
  unfold feed_outcome, Hyundai.tpms_protocol_decoder_hyundai_feed.
  split_feed; feed_simpl; outcome_done.
Qed.

Lemma toyota_feed_outcome (s : Toyota.TPMSProtocolDecoderToyota) level duration :
  feed_outcome tpms_protocol_toyota_decoder s
    (Toyota.tpms_protocol_decoder_toyota_feed s level duration).
Proof.
  unfold feed_outcome, Toyota.tpms_protocol_decoder_toyota_feed.
  split_feed; feed_simpl; outcome_done.
Qed.

Lemma nissan_feed_outcome (s : Nissan.TPMSProtocolDecoderNissan) level duration :
  feed_outcome tpms_protocol_nissan_decoder s
    (Nissan.tpms_protocol_decoder_nissan_feed s level duration).
Proof.
  unfold feed_outcome, Nissan.tpms_protocol_decoder_nissan_feed.
  split_feed; feed_simpl; outcome_done.
Qed.

Lemma every_feed_outcome (p : TPMSProtocol) (s : instance (protocol_decoder p))
    (level : bool) (duration : Z) :
  feed_outcome (protocol_decoder p) s (feed (protocol_decoder p) s level duration).
Proof.
  destruct p.
  - apply toyota_feed_outcome.
  - apply ford_feed_outcome.
  - apply gm_feed_outcome.
  - apply nissan_feed_outcome.
  - apply hyundai_feed_outcome.
Qed.

Lemma feed_all_callbacks_valid (p : TPMSProtocol) (edges : list Edge) :
  forall s : instance (protocol_decoder p),
    Forall (fun c => validate (protocol_decoder p) (frame (protocol_decoder p) c) = true)
           (snd (feed_all (protocol_decoder p) s edges)).
Proof.
  induction edges as [| [level duration] rest IH]; intros s; cbn [feed_all].
  - constructor.
  - pose proof (every_feed_outcome p s level duration) as Hout.
    destruct (feed (protocol_decoder p) s level duration) as [s1 called] eqn:Hfeed.
    specialize (IH s1).
    destruct (feed_all (protocol_decoder p) s1 rest) as [s2 calls].
    cbn [snd fst] in *.
    destruct called.
    + constructor; [| exact IH].
      destruct Hout as [[Hfalse _] | [Hvalid _]]; [discriminate Hfalse | exact Hvalid].
    + exact IH.
Qed.

(** C2.  For every decoder, from any instance (hence from the initial one)
    and for every sequence of edges: a call of [feed] invokes the callback or
    changes the stored reading only when the frame it has just assembled in
    the byte buffer passes the protocol's validation (and then the call was
    made in the data step with the full bit count); every callback of a run
    is handed a validated frame. *)
Theorem callback_only_after_validation (p : TPMSProtocol) :
  let D := protocol_decoder p in
  (forall (s : instance D) (level : bool) (duration : Z),
      let r := feed D s level duration in
      snd r = true \/ reading D (fst r) <> reading D s ->
      validate D (frame D (fst r)) = true
      /\ phase D s = PhaseData
      /\ min_count_bit_for_found (block_const D) <= count_bit D (fst r))
  /\ (forall (s : instance D) (edges : list Edge),
         Forall (fun c => validate D (frame D c) = true)
                (snd (feed_all D s edges))).
Proof.
  intros D. split.
  - intros s level duration r Hobs.
    destruct (every_feed_outcome p s level duration) as [[Hno Hsame] | Hyes].
    + fold D in Hno, Hsame. fold r in Hno, Hsame.
      destruct Hobs as [Hcalled | Hchanged].
      * rewrite Hno in Hcalled. discriminate Hcalled.
      * contradiction.
    + fold D in Hyes. fold r in Hyes. tauto.
  - intros s edges. apply feed_all_callbacks_valid.
Qed.

Lemma callback_only_after_validation_witness :
  let D := tpms_protocol_toyota_decoder in
  let s := fst (feed_all D toyota_start
                         (removelast (toyota_frame_edges toyota_good_frame))) in
  snd (feed D s false 52) = true
  /\ validate D (frame D (fst (feed D s false 52))) = true
  /\ phase D s = PhaseData
  /\ 72 <= count_bit D (fst (feed D s false 52)).
Proof.
  intros D s.
  assert (Hcalled : snd (feed D s false 52) = true) by (vm_compute; reflexivity).
  split; [exact Hcalled |].
  exact (proj1 (callback_only_after_validation TPMSToyota) s false 52
               (or_introl Hcalled)).
Defined.

(** ** Toyota: the pressure cross-check *)

Lemma Forall_byte (data : list Z) (i : nat) :
  Forall is_u8 data -> is_u8 (byte_at data i).
Proof.
  intros H. apply (frame_ok_byte (List.length data)). split; [reflexivity | exact H].
Qed.

(** C10.  When a CRC-valid Toyota frame fails the pressure cross-check, the
    analysis has already stored the big-endian value of bytes 0-3 as the
    sensor id, and pressure, temperature, battery flag, raw data and bit
    count keep the values they had before the call. *)
Theorem toyota_mismatch_partial_overwrite (g : Generic.t) (B : list Z) :
  Forall is_u8 B ->
  Toyota.tpms_protocol_toyota_check_crc B = true ->
  Toyota.pressure1 B <> Toyota.pressure2 B ->
  let r := Toyota.tpms_protocol_toyota_analyze g B in
  Generic.id r = be32 (byte_at B 0) (byte_at B 1) (byte_at B 2) (byte_at B 3)
  /\ Generic.pressure r = Generic.pressure g
  /\ Generic.temperature r = Generic.temperature g
  /\ Generic.battery_low r = Generic.battery_low g
  /\ Generic.data r = Generic.data g
  /\ Generic.data_count_bit r = Generic.data_count_bit g
  /\ Generic.protocol_name r = Generic.protocol_name g.
Proof.
  intros HB _ Hne r. unfold r, Toyota.tpms_protocol_toyota_analyze.
  apply Z.eqb_neq in Hne. rewrite Hne. cbn [negb].
  unfold Generic.set_id.
  cbn [Generic.id Generic.pressure Generic.temperature Generic.battery_low
       Generic.data Generic.data_count_bit Generic.protocol_name].
  repeat split.
  apply pack32_be32; apply Forall_byte; exact HB.
Qed.

Lemma toyota_mismatch_partial_overwrite_witness :
  let g := Generic.mk "Toyota TPMS" 0xAABB57 0 (Float32.of_int 1) (Float32.of_int 120)
                      0xAABB573250009B 72 in
  let r := Toyota.tpms_protocol_toyota_analyze g toyota_mismatch_frame in
  Generic.id r = 0x123454
  /\ Generic.pressure r = Float32.of_int 1
  /\ Generic.temperature r = Float32.of_int 120
  /\ Generic.battery_low r = 0
  /\ Generic.data r = 0xAABB573250009B
  /\ Generic.data_count_bit r = 72
  /\ Generic.protocol_name r = "Toyota TPMS"%string.
Proof.
  intros g r.
  apply (toyota_mismatch_partial_overwrite g toyota_mismatch_frame).
  - repeat constructor; unfold is_u8; lia.
  - vm_compute. reflexivity.
  - vm_compute. discriminate.
Defined.

(** In the call that completes a frame the callback is invoked as soon as the
    CRC passes: the outcome of the cross-check does not reach [feed]. *)
Lemma toyota_feed_complete (s : Toyota.TPMSProtocolDecoderToyota) level duration :
  let r := Toyota.tpms_protocol_decoder_toyota_feed s level duration in
  parser_step (Toyota.decoder s) = Toyota.ToyotaDecoderStepData ->
  Toyota.in_tolerance duration = true ->
  72 <= u8 (decode_count_bit (Toyota.decoder s) + 1) ->
  Toyota.tpms_protocol_toyota_check_crc (Toyota.manchester_data (fst r)) = true ->
  snd r = callback (Toyota.base s)
  /\ Toyota.generic (fst r)
     = Toyota.tpms_protocol_toyota_analyze (Toyota.generic s)
         (Toyota.manchester_data (fst r)).
Proof.
  intros r Hstep Htol Hcount. unfold r, Toyota.tpms_protocol_decoder_toyota_feed.
  rewrite Hstep, Htol. apply Z.leb_le in Hcount.
  feed_simpl. rewrite Hcount. feed_simpl.
  match goal with
  | |- context [if ?c then _ else _] => destruct c eqn:Hcrc
  end; feed_simpl.
  - intros _. split; reflexivity.
  - rewrite Hcrc. discriminate.
Qed.

(** C1 (the code departs from it).  Fed a valid frame and then a frame whose
    CRC is right and whose two pressure copies differ, the Toyota decoder
    invokes the registered callback for both: the second call hands over the
    reading of the first frame under the id of the second. *)
Theorem toyota_mismatch_invokes_callback :
  let D := tpms_protocol_toyota_decoder in
  let calls :=
    snd (feed_all D toyota_start
           (toyota_frame_edges toyota_good_frame
            ++ toyota_frame_edges toyota_mismatch_frame)) in
  Toyota.tpms_protocol_toyota_check_crc toyota_mismatch_frame = true
  /\ Toyota.pressure1 toyota_mismatch_frame = 0x64
  /\ Toyota.pressure2 toyota_mismatch_frame = 0xFF
  /\ callback (Toyota.base toyota_start) = true
  /\ map (fun c => firstn 9 (frame D c)) calls
     = [toyota_good_frame; toyota_mismatch_frame]
  /\ map (fun c => Generic.id (reading D c)) calls = [0xAABB57; 0x123454]
  /\ map (fun c => close_to (Generic.pressure (reading D c))
                            (12410568 # 10000000) (1 # 1000000)) calls
     = [true; true]
  /\ map (fun c => Generic.data (reading D c)) calls
     = [0xAABB573250009B; 0xAABB573250009B].
Proof. vm_compute. repeat split; reflexivity. Qed.

(** ** Deserialize *)

Lemma check_count_bit_rejects (g : Generic.t) (ff : FlipperFormat) (count_bit : Z) :
  record_bit ff <> Some count_bit ->
  snd (tpms_block_generic_deserialize_check_count_bit g ff count_bit)
  <> SubGhzProtocolStatusOk.
Proof.
  intros Hbit.
  unfold tpms_block_generic_deserialize_check_count_bit, tpms_block_generic_deserialize.
  destruct (record_protocol ff) as [name |]; [| cbn; discriminate].
  destruct (record_key ff) as [key |]; [| cbn; discriminate].
  destruct (record_bit ff) as [bit |]; [| cbn; discriminate].
  cbn [Generic.data_count_bit].
  destruct (Z.eqb_spec bit count_bit) as [-> | Hne]; cbn [snd].
  - contradiction Hbit. reflexivity.
  - discriminate.
Qed.

(** C9.  For each protocol the fixed width is the one the specification
    lists (64 for Ford, 72 for GM, Nissan and Toyota, 80 for Hyundai), and
    deserialize returns a failure status for every record whose bit count is
    not that width (a record without a bit count included). *)
Theorem deserialize_rejects_wrong_bit_count
    (p : TPMSProtocol) (s : instance (protocol_decoder p)) (ff : FlipperFormat) :
  record_bit ff <> Some (expected_bits p) ->
  min_count_bit_for_found (block_const (protocol_decoder p)) = expected_bits p
  /\ snd (deserialize (protocol_decoder p) s ff) <> SubGhzProtocolStatusOk.
Proof.
  intros Hbit. split; [destruct p; reflexivity |].
  destruct p; cbn [protocol_decoder deserialize tpms_protocol_toyota_decoder
                   tpms_protocol_ford_decoder tpms_protocol_gm_decoder
                   tpms_protocol_nissan_decoder tpms_protocol_hyundai_decoder].
  - unfold tpms_protocol_decoder_toyota_deserialize.
    pose proof (check_count_bit_rejects (Toyota.generic s) ff _ Hbit) as H.
    destruct (tpms_block_generic_deserialize_check_count_bit _ _ _). exact H.
  - unfold tpms_protocol_decoder_ford_deserialize.
    pose proof (check_count_bit_rejects (Ford.generic s) ff _ Hbit) as H.
    destruct (tpms_block_generic_deserialize_check_count_bit _ _ _). exact H.
  - unfold tpms_protocol_decoder_gm_deserialize.
    pose proof (check_count_bit_rejects (GM.generic s) ff _ Hbit) as H.
    destruct (tpms_block_generic_deserialize_check_count_bit _ _ _). exact H.
  - unfold tpms_protocol_decoder_nissan_deserialize.
    pose proof (check_count_bit_rejects (Nissan.generic s) ff _ Hbit) as H.
    destruct (tpms_block_generic_deserialize_check_count_bit _ _ _). exact H.
  - unfold tpms_protocol_decoder_hyundai_deserialize.
    pose proof (check_count_bit_rejects (Hyundai.generic s) ff _ Hbit) as H.
    destruct (tpms_block_generic_deserialize_check_count_bit _ _ _). exact H.
Qed.

Lemma deserialize_rejects_wrong_bit_count_witness :
  min_count_bit_for_found (block_const tpms_protocol_ford_decoder) = 64
  /\ snd (deserialize tpms_protocol_ford_decoder ford_start
            (mkFlipperFormat (Some "Ford TPMS"%string) (Some "FM476"%string)
                             (Some 0x123456786450009B) (Some 72)))
     <> SubGhzProtocolStatusOk.
Proof.
  apply (deserialize_rejects_wrong_bit_count TPMSFord ford_start).
  cbn. intros H. discriminate H.
Defined.

(** ** Reset *)

(** C5 as stated fails: two qualifying edges from the initial Ford instance
    leave one bit in the accumulator, and reset does not clear it. *)
Lemma reset_keeps_accumulated_bits :
  ~ reset_clears_accumulator tpms_protocol_ford_decoder ford_start.
Proof.
  intros Hclaim.
  set (D := tpms_protocol_ford_decoder).
  set (s1 := fst (feed D ford_start true 52)).
  set (s2 := fst (feed D s1 true 52)).
  assert (Hreach : reachable D ford_start s2).
  { apply (reachable_step D ford_start s1 s2).
    - apply (reachable_step D ford_start ford_start s1).
      + apply reachable_start.
      + apply step_feed.
    - apply step_feed. }
  destruct (Hclaim s2 Hreach) as (_ & _ & Hcount).
  vm_compute in Hcount. discriminate Hcount.
Qed.

(** C5, amended.  For every decoder and every instance, reset leaves the
    decoder in the initial Reset step with the line-code sub-state
    re-initialised (Manchester state Start1 for Ford, GM and Hyundai; last
    level low and last duration zero for Nissan; Manchester bit count zero,
    the sync search on and no sync bit found for Toyota), and is idempotent;
    it does not touch the bit accumulator, the bit count, the stored reading
    or the byte buffer; the accumulator and the count are cleared by the
    first call of [feed] that leaves the Reset step, so a sync search always
    starts from zero accumulated bits. *)
Theorem reset_returns_to_reset_step (p : TPMSProtocol)
    (s : instance (protocol_decoder p)) :
  let D := protocol_decoder p in
  phase D (reset D s) = PhaseReset
  /\ line_code_initial p (reset D s)
  /\ reset D (reset D s) = reset D s
  /\ accumulator D (reset D s) = accumulator D s
  /\ count_bit D (reset D s) = count_bit D s
  /\ reading D (reset D s) = reading D s
  /\ frame D (reset D s) = frame D s
  /\ (forall level duration,
         let s' := fst (feed D (reset D s) level duration) in
         s' = reset D s
         \/ (phase D s' = PhaseSync /\ accumulator D s' = 0 /\ count_bit D s' = 0)).
Proof.
  destruct p; cbn zeta; repeat split; intros;
    destruct s as [? [? ? ?]]; try reflexivity.
  - cbn. unfold Toyota.tpms_protocol_decoder_toyota_feed. cbn.
    destruct (level && Toyota.in_tolerance duration); cbn; [right | left]; repeat split.
  - cbn. unfold Ford.tpms_protocol_decoder_ford_feed. cbn.
    destruct (level && Ford.in_tolerance duration); cbn; [right | left]; repeat split.
  - cbn. unfold GM.tpms_protocol_decoder_gm_feed. cbn.
    destruct (level && GM.in_tolerance duration); cbn; [right | left]; repeat split.
  - cbn. unfold Nissan.tpms_protocol_decoder_nissan_feed. cbn.
    destruct (level && (89 <=? duration)); cbn; [right | left]; repeat split.
  - cbn. unfold Hyundai.tpms_protocol_decoder_hyundai_feed. cbn.
    destruct (level && Hyundai.in_tolerance duration); cbn; [right | left]; repeat split.
Qed.

(** ** The sync search is bounded *)

Ltac bool_arith :=
  repeat match goal with
  | H : (_ <=? _) = true |- _ => apply Z.leb_le in H
  | H : (_ <=? _) = false |- _ => apply Z.leb_gt in H
  | H : (_ <? _) = true |- _ => apply Z.ltb_lt in H
  | H : (_ <? _) = false |- _ => apply Z.ltb_ge in H
  end.

Lemma u8_succ (c : Z) : 0 <= c < 255 -> u8 (c + 1) = c + 1.
Proof. intros Hc. unfold u8, wrap. apply Z.mod_small. lia. Qed.

Lemma u8_range (x : Z) : 0 <= u8 x < 256.
Proof. unfold u8, wrap. apply Z.mod_pos_bound. lia. Qed.

(** Closes the goals left by the case analysis of a sync-search call. *)
Ltac sync_goal :=
  unfold sync_inv, sync_progress; feed_simpl; intros;
  try discriminate;
  bool_arith;
  repeat match goal with
  | H : ?a = ?a -> _ |- _ => specialize (H eq_refl)
  end;
  try match goal with
  | H : 0 <= ?c <= _ |- context [u8 (?c + 1)] =>
      rewrite (u8_succ c) in * by lia
  end;
  try match goal with
  | |- context [u8 ?x] => pose proof (u8_range x)
  end;
  first
    [ lia
    | left; reflexivity
    | right; left; repeat split; reflexivity
    | right; right; left; repeat split; lia
    | right; right; right; repeat split; reflexivity ].

Lemma ford_sync_inv (s : Ford.TPMSProtocolDecoderFord) level duration :
  sync_inv tpms_protocol_ford_decoder
           (fst (Ford.tpms_protocol_decoder_ford_feed s level duration)).
Proof.
  destruct s as [? [st ? ?] ? ? ?].
  unfold Ford.tpms_protocol_decoder_ford_feed.
  destruct st; feed_simpl; split_feed; sync_goal.
Qed.

Lemma ford_sync_progress (s : Ford.TPMSProtocolDecoderFord) level duration :
  sync_inv tpms_protocol_ford_decoder s ->
  phase tpms_protocol_ford_decoder s = PhaseSync ->
  sync_progress tpms_protocol_ford_decoder true s
    (fst (Ford.tpms_protocol_decoder_ford_feed s level duration)).
Proof.
  destruct s as [? [st ? ?] ? ? ?].
  unfold Ford.tpms_protocol_decoder_ford_feed.
  destruct st; feed_simpl; split_feed; sync_goal.
Qed.

Lemma gm_sync_inv (s : GM.TPMSProtocolDecoderGM) level duration :
  sync_inv tpms_protocol_gm_decoder
           (fst (GM.tpms_protocol_decoder_gm_feed s level duration)).
Proof.
  destruct s as [? [st ? ?] ? ? ?].
  unfold GM.tpms_protocol_decoder_gm_feed.
  destruct st; feed_simpl; split_feed; sync_goal.
Qed.

Lemma gm_sync_progress (s : GM.TPMSProtocolDecoderGM) level duration :
  sync_inv tpms_protocol_gm_decoder s ->
  phase tpms_protocol_gm_decoder s = PhaseSync ->
  sync_progress tpms_protocol_gm_decoder true s
    (fst (GM.tpms_protocol_decoder_gm_feed s level duration)).
Proof.
  destruct s as [? [st ? ?] ? ? ?].
  unfold GM.tpms_protocol_decoder_gm_feed.
  destruct st; feed_simpl; split_feed; sync_goal.
Qed.

Lemma hyundai_sync_inv (s : Hyundai.TPMSProtocolDecoderHyundai) level duration :
  sync_inv tpms_protocol_hyundai_decoder
           (fst (Hyundai.tpms_protocol_decoder_hyundai_feed s level duration)).
Proof.
  destruct s as [? [st ? ?] ? ? ?].
  unfold Hyundai.tpms_protocol_decoder_hyundai_feed.
  destruct st; feed_simpl; split_feed; sync_goal.
Qed.

Lemma hyundai_sync_progress (s : Hyundai.TPMSProtocolDecoderHyundai) level duration :
  sync_inv tpms_protocol_hyundai_decoder s ->
  phase tpms_protocol_hyundai_decoder s = PhaseSync ->
  sync_progress tpms_protocol_hyundai_decoder true s
    (fst (Hyundai.tpms_protocol_decoder_hyundai_feed s level duration)).
Proof.
  destruct s as [? [st ? ?] ? ? ?].
  unfold Hyundai.tpms_protocol_decoder_hyundai_feed.
  destruct st; feed_simpl; split_feed; sync_goal.
Qed.

Lemma toyota_sync_inv (s : Toyota.TPMSProtocolDecoderToyota) level duration :
  sync_inv tpms_protocol_toyota_decoder
           (fst (Toyota.tpms_protocol_decoder_toyota_feed s level duration)).
Proof.
  destruct s as [? [st ? ?] ? ? ? ? ?].
  unfold Toyota.tpms_protocol_decoder_toyota_feed.
  destruct st; feed_simpl; split_feed; sync_goal.
Qed.

Lemma toyota_sync_progress (s : Toyota.TPMSProtocolDecoderToyota) level duration :
  sync_inv tpms_protocol_toyota_decoder s ->
  phase tpms_protocol_toyota_decoder s = PhaseSync ->
  sync_progress tpms_protocol_toyota_decoder true s
    (fst (Toyota.tpms_protocol_decoder_toyota_feed s level duration)).
Proof.
  destruct s as [? [st ? ?] ? ? ? ? ?].
  unfold Toyota.tpms_protocol_decoder_toyota_feed.
  destruct st; feed_simpl; split_feed; sync_goal.
Qed.

(** The Nissan decoder leaves the count alone on a high level, so here the
    bound is inherited from the instance before the call. *)
Lemma nissan_sync_inv (s : Nissan.TPMSProtocolDecoderNissan) level duration :
  sync_inv tpms_protocol_nissan_decoder s ->
  sync_inv tpms_protocol_nissan_decoder
           (fst (Nissan.tpms_protocol_decoder_nissan_feed s level duration)).
Proof.
  destruct s as [? [st ? ?] ? ? ? ?].
  unfold Nissan.tpms_protocol_decoder_nissan_feed.
  destruct st; feed_simpl; split_feed; sync_goal.
Qed.

Lemma nissan_sync_progress (s : Nissan.TPMSProtocolDecoderNissan) level duration :
  sync_inv tpms_protocol_nissan_decoder s ->
  phase tpms_protocol_nissan_decoder s = PhaseSync ->
  sync_progress tpms_protocol_nissan_decoder (negb level) s
    (fst (Nissan.tpms_protocol_decoder_nissan_feed s level duration)).
Proof.
  destruct s as [? [st ? ?] ? ? ? ?].
  unfold Nissan.tpms_protocol_decoder_nissan_feed.
  destruct st; feed_simpl; split_feed; sync_goal.
Qed.

Lemma every_sync_inv (p : TPMSProtocol) (s : instance (protocol_decoder p))
    (level : bool) (duration : Z) :
  sync_inv (protocol_decoder p) s ->
  sync_inv (protocol_decoder p) (fst (feed (protocol_decoder p) s level duration)).
Proof.
  destruct p; intros Hinv.
  - apply toyota_sync_inv.
  - apply ford_sync_inv.
  - apply gm_sync_inv.
  - apply nissan_sync_inv. exact Hinv.
  - apply hyundai_sync_inv.
Qed.

Lemma every_sync_progress (p : TPMSProtocol) (s : instance (protocol_decoder p))
    (level : bool) (duration : Z) :
  sync_inv (protocol_decoder p) s ->
  phase (protocol_decoder p) s = PhaseSync ->
  sync_progress (protocol_decoder p) (accumulates p (level, duration)) s
    (fst (feed (protocol_decoder p) s level duration)).
Proof.
  destruct p; intros Hinv Hsync.
  - apply toyota_sync_progress; assumption.
  - apply ford_sync_progress; assumption.
  - apply gm_sync_progress; assumption.
  - apply nissan_sync_progress; assumption.
  - apply hyundai_sync_progress; assumption.
Qed.

Lemma reset_phase (p : TPMSProtocol) (s : instance (protocol_decoder p)) :
  phase (protocol_decoder p) (reset (protocol_decoder p) s) = PhaseReset.
Proof. destruct p; reflexivity. Qed.

Lemma reset_sync_inv (p : TPMSProtocol) (s : instance (protocol_decoder p)) :
  sync_inv (protocol_decoder p) (reset (protocol_decoder p) s).
Proof.
  unfold sync_inv. rewrite reset_phase. discriminate.
Qed.

Lemma reachable_sync_inv (p : TPMSProtocol) (s0 s : instance (protocol_decoder p)) :
  phase (protocol_decoder p) s0 = PhaseReset ->
  reachable (protocol_decoder p) s0 s ->
  sync_inv (protocol_decoder p) s.
Proof.
  intros Hstart Hreach.
  induction Hreach as [| s s' _ IH Hstep].
  - unfold sync_inv. rewrite Hstart. discriminate.
  - destruct Hstep as [s level duration | s].
    + apply every_sync_inv. exact IH.
    + apply reset_sync_inv.
Qed.

Lemma feed_all_cons (D : SubGhzProtocolDecoder) (s : instance D)
    (level : bool) (duration : Z) (rest : list Edge) :
  fst (feed_all D s ((level, duration) :: rest))
  = fst (feed_all D (fst (feed D s level duration)) rest).
Proof.
  cbn [feed_all].
  destruct (feed D s level duration) as [s1 called]. cbn [fst].
  destruct (feed_all D s1 rest) as [s2 calls].
  reflexivity.
Qed.

(** A sync search cannot outlast its ceiling: among any [ceiling + 1 - count]
    accumulating edges one ends it. *)
Lemma sync_search_ends (p : TPMSProtocol) (edges : list Edge) :
  forall s : instance (protocol_decoder p),
    sync_inv (protocol_decoder p) s ->
    phase (protocol_decoder p) s = PhaseSync ->
    Forall (fun e => accumulates p e = true) edges ->
    overflow_ceiling (protocol_decoder p)
    < count_bit (protocol_decoder p) s + Z.of_nat (List.length edges) ->
    exists k : nat,
      (k <= List.length edges)%nat
      /\ (phase (protocol_decoder p)
                (fst (feed_all (protocol_decoder p) s (firstn k edges))) = PhaseReset
          \/ phase (protocol_decoder p)
                   (fst (feed_all (protocol_decoder p) s (firstn k edges))) = PhaseData).
Proof.
  induction edges as [| [level duration] rest IH]; intros s Hinv Hsync Hacc Hlen.
  - specialize (Hinv Hsync). cbn [List.length] in Hlen. lia.
  - inversion Hacc as [| e l Hhead Htail]; subst.
    pose proof (every_sync_progress p s level duration Hinv Hsync) as Hprog.
    rewrite Hhead in Hprog.
    destruct Hprog as [Hreset | [[Hdata _] | [(Hsync' & Hcount & _) | (Hfalse & _)]]].
    + exists 1%nat. split; [cbn; lia |].
      cbn [firstn]. rewrite feed_all_cons. cbn [feed_all fst]. left. exact Hreset.
    + exists 1%nat. split; [cbn; lia |].
      cbn [firstn]. rewrite feed_all_cons. cbn [feed_all fst]. right. exact Hdata.
    + destruct (IH (fst (feed (protocol_decoder p) s level duration)))
        as (k & Hk & Hend).
      * apply every_sync_inv. exact Hinv.
      * exact Hsync'.
      * exact Htail.
      * rewrite Hcount. cbn [List.length] in Hlen. lia.
      * exists (S k). split; [cbn; lia |].
        cbn [firstn]. rewrite feed_all_cons. exact Hend.
    + discriminate Hfalse.
Qed.

(** C8.  For every decoder the ceiling of the sync search is the one the
    specification lists (32 for Ford and GM, 24 for Toyota, 40 for Hyundai
    and Nissan).  In every instance reached from the Reset step by calls of
    [feed] and [reset], a sync search holds at most that many bits; a call of
    [feed] in the sync search returns to Reset, finds the pattern, or shifts
    one more bit in without passing the ceiling (the Nissan decoder only
    records a high level); so among any [ceiling + 1] accumulating edges one
    ends the search, in Reset unless the pattern matched. *)
Theorem sync_search_bounded (p : TPMSProtocol) (s0 s : instance (protocol_decoder p)) :
  let D := protocol_decoder p in
  phase D s0 = PhaseReset ->
  reachable D s0 s ->
  overflow_ceiling D = expected_ceiling p
  /\ (phase D s = PhaseSync -> 0 <= count_bit D s <= expected_ceiling p)
  /\ (forall level duration,
         phase D s = PhaseSync ->
         sync_progress D (accumulates p (level, duration)) s
                       (fst (feed D s level duration)))
  /\ (forall edges,
         phase D s = PhaseSync ->
         Forall (fun e => accumulates p e = true) edges ->
         expected_ceiling p < Z.of_nat (List.length edges) ->
         exists k : nat,
           (k <= List.length edges)%nat
           /\ (phase D (fst (feed_all D s (firstn k edges))) = PhaseReset
               \/ phase D (fst (feed_all D s (firstn k edges))) = PhaseData)).
Proof.
  intros D Hstart Hreach.
  pose proof (reachable_sync_inv p s0 s Hstart Hreach) as Hinv.
  assert (Hceil : overflow_ceiling D = expected_ceiling p) by (destruct p; reflexivity).
  split; [exact Hceil |].
  split; [| split].
  - intros Hsync. rewrite <- Hceil. exact (Hinv Hsync).
  - intros level duration Hsync. apply every_sync_progress; assumption.
  - intros edges Hsync Hacc Hlen.
    apply sync_search_ends; try assumption.
    fold D. rewrite Hceil. specialize (Hinv Hsync). fold D in Hinv. lia.
Qed.

Lemma sync_search_bounded_witness :
  let D := tpms_protocol_ford_decoder in
  let s := fst (feed D ford_start true 52) in
  phase D s = PhaseSync
  /\ overflow_ceiling D = 32
  /\ (phase D s = PhaseSync -> 0 <= count_bit D s <= 32).
Proof.
  intros D s.
  assert (Hreach : reachable D ford_start s).
  { apply (reachable_step D ford_start ford_start s).
    - apply reachable_start.
    - apply step_feed. }
  destruct (sync_search_bounded TPMSFord ford_start s eq_refl Hreach)
    as (Hceil & Hbound & _).
  split; [reflexivity |].
  split; [exact Hceil | exact Hbound].
Defined.

(** ** The window of the sync search *)

(** Once [n] bits are in, shifting one more bit in does not change the window
    that Ford, GM and Toyota compare: it is the first [n] bits of the search,
    not the last. *)
Lemma shifted_window_frozen (n c d : Z) (b : bool) :
  0 <= n <= c -> c < 63 -> 0 <= d < 2 ^ c ->
  shifted_window n (u64 (Z.lor (Z.shiftl d 1) (Z.b2z b))) (c + 1)
  = shifted_window n d c.
Proof.
  intros Hn Hc Hd. unfold shifted_window, u64, wrap.
  assert (Hlor : Z.lor (Z.shiftl d 1) (Z.b2z b) = d * 2 ^ 1 + Z.b2z b).
  { apply lor_shiftl_add; [lia |]. destruct b; cbn; lia. }
  assert (Hpow : 2 ^ c * 2 <= 2 ^ 64).
  { replace (2 ^ c * 2) with (2 ^ (c + 1)) by (rewrite Z.pow_add_r by lia; lia).
    apply Z.pow_le_mono_r; lia. }
  rewrite Z.mod_small.
  2: { rewrite Hlor. destruct b; cbn [Z.b2z]; lia. }
  f_equal. apply Z.bits_inj'. intros i Hi.
  rewrite !Z.shiftr_spec by lia.
  rewrite Z.lor_spec, Z.shiftl_spec by lia.
  replace (i + (c + 1 - n) - 1) with (i + (c - n)) by lia.
  replace (Z.testbit (Z.b2z b) (i + (c + 1 - n))) with false.
  - apply orb_false_r.
  - symmetry. destruct b; cbn [Z.b2z].
    + apply Z.bits_above_log2; cbn; lia.
    + apply Z.bits_0.
Qed.

(** C3 (the code departs from it for Ford, GM and Toyota).  One stray bit
    followed by the sync pattern: the most recent bits of the accumulator are
    the pattern, and the three decoders stay in the sync search, because the
    window they compare is anchored at the first bit. *)
Theorem sync_window_is_not_most_recent :
  let F := tpms_protocol_ford_decoder in
  let G := tpms_protocol_gm_decoder in
  let T := tpms_protocol_toyota_decoder in
  let f := fst (feed_all F ford_start
                  ((true, 52) :: edges_of_bits 52 (false :: bits_msb 16 0xAAA9))) in
  let g := fst (feed_all G gm_start
                  ((true, 100) :: edges_of_bits 100 (true :: bits_msb 16 0x555D))) in
  let t := fst (feed_all T toyota_start
                  ((true, 52) :: edges_of_bits 52 (false :: bits_msb 12 0xA9E))) in
  (phase F f = PhaseSync /\ count_bit F f = 17
   /\ most_recent_bits 16 (accumulator F f) = 0xAAA9
   /\ shifted_window 16 (accumulator F f) (count_bit F f) = 0x5554)
  /\ (phase G g = PhaseSync /\ count_bit G g = 17
      /\ most_recent_bits 16 (accumulator G g) = 0x555D
      /\ shifted_window 16 (accumulator G g) (count_bit G g) = 0xAAAE)
  /\ (phase T t = PhaseSync /\ count_bit T t = 13
      /\ most_recent_bits 12 (accumulator T t) = 0xA9E
      /\ shifted_window 12 (accumulator T t) (count_bit T t) = 0x54F).
Proof. vm_compute. repeat split; reflexivity. Qed.

Lemma add_bit_value (d : Z) (b : bool) (c : Z) :
  0 <= c <= 32 -> 0 <= d < 2 ^ c ->
  u64 (Z.lor (Z.shiftl d 1) (Z.b2z b)) = 2 * d + Z.b2z b
  /\ 0 <= 2 * d + Z.b2z b < 2 ^ (c + 1).
Proof.
  intros Hc Hd.
  assert (Hlor : Z.lor (Z.shiftl d 1) (Z.b2z b) = d * 2 ^ 1 + Z.b2z b).
  { apply lor_shiftl_add; [lia |]. destruct b; cbn; lia. }
  assert (Hpow : 2 ^ (c + 1) = 2 * 2 ^ c) by (rewrite Z.pow_add_r by lia; lia).
  assert (Hmax : 2 ^ (c + 1) <= 2 ^ 64) by (apply Z.pow_le_mono_r; lia).
  assert (Hrange : 0 <= 2 * d + Z.b2z b < 2 ^ (c + 1)).
  { destruct b; cbn [Z.b2z]; lia. }
  split; [| exact Hrange].
  unfold u64, wrap. rewrite Hlor. rewrite Z.mod_small; lia.
Qed.

Lemma ford_search_inv_feed (s : Ford.TPMSProtocolDecoderFord) level duration :
  ford_search_inv s ->
  ford_search_inv (fst (Ford.tpms_protocol_decoder_ford_feed s level duration)).
Proof.
  destruct s as [? [st d c] ? ? ?]. unfold ford_search_inv.
  unfold Ford.tpms_protocol_decoder_ford_feed.
  destruct st; feed_simpl; intros Hinv.
  - destruct (level && Ford.in_tolerance duration); feed_simpl; intros Hs;
      [| discriminate Hs].
    repeat split; lia.
  - destruct (Hinv eq_refl) as (Hc & Hd & Hw).
    split_feed; feed_simpl; intros Hs; try discriminate Hs;
      rewrite (u8_succ c) in * by lia;
      destruct (add_bit_value d level c Hc Hd) as [Hval Hrange];
      bool_arith; rewrite Hval.
    + repeat split; try lia.
      intros _. unfold shifted_window. change (Z.ones 16) with 0xFFFF.
      rewrite <- Hval. apply Z.eqb_neq. assumption.
    + repeat split; lia.
  - split_feed; feed_simpl; intros Hs; discriminate Hs.
Qed.

(** From an instance in the Reset step, the Ford decoder finds its sync
    pattern on the sixteenth bit of a search or not at all: a pattern that
    starts one bit later is never recognised. *)
Lemma ford_sync_found_at_16_only (s0 s : Ford.TPMSProtocolDecoderFord) level duration :
  parser_step (Ford.decoder s0) = Ford.FordDecoderStepReset ->
  reachable tpms_protocol_ford_decoder s0 s ->
  parser_step (Ford.decoder s) = Ford.FordDecoderStepSync ->
  parser_step (Ford.decoder (fst (Ford.tpms_protocol_decoder_ford_feed s level duration)))
  = Ford.FordDecoderStepData ->
  decode_count_bit (Ford.decoder s) = 15.
Proof.
  intros Hstart Hreach.
  assert (Hinv : ford_search_inv s).
  { induction Hreach as [| s s' _ IH Hstep].
    - unfold ford_search_inv. rewrite Hstart. discriminate.
    - destruct Hstep as [s l d | s].
      + apply ford_search_inv_feed. exact IH.
      + unfold ford_search_inv. cbn. discriminate. }
  clear Hreach Hstart. destruct s as [? [st d c] ? ? ?].
  unfold ford_search_inv in Hinv. feed_simpl. intros Hs. subst st.
  destruct (Hinv eq_refl) as (Hc & Hd & Hw).
  unfold Ford.tpms_protocol_decoder_ford_feed. feed_simpl.
  destruct (Z.le_gt_cases 16 c) as [H16 | Hlt].
  - specialize (Hw H16).
    pose proof (shifted_window_frozen 16 c d level ltac:(lia) ltac:(lia) Hd) as Hfz.
    unfold shifted_window in Hfz, Hw. change (Z.ones 16) with 0xFFFF in Hfz, Hw.
    rewrite <- Hfz in Hw. apply Z.eqb_neq in Hw.
    rewrite (u8_succ c) by lia.
    split_feed; feed_simpl; intros Hdata; try discriminate Hdata.
    congruence.
  - rewrite (u8_succ c) by lia.
    split_feed; feed_simpl; intros Hdata; try discriminate Hdata; bool_arith; lia.
Qed.

(** The Hyundai and Nissan searches do compare the most recent bits: the low
    28 bits, respectively the low 8 bits, of the accumulator after the new
    bit, once 28 bits are in. *)
Lemma hyundai_sync_most_recent (s : Hyundai.TPMSProtocolDecoderHyundai) level duration :
  let d1 := subghz_protocol_blocks_add_bit (Hyundai.decoder s) level in
  parser_step (Hyundai.decoder s) = Hyundai.HyundaiDecoderStepPreamble ->
  Hyundai.in_tolerance duration = true ->
  28 <= decode_count_bit d1 ->
  most_recent_bits 28 (decode_data d1) = 0x5555556 ->
  Hyundai.decoder (fst (Hyundai.tpms_protocol_decoder_hyundai_feed s level duration))
  = mkBlockDecoder Hyundai.HyundaiDecoderStepData 0 0.
Proof.
  intros d1 Hstep Htol Hcount Hwin.
  unfold Hyundai.tpms_protocol_decoder_hyundai_feed.
  rewrite Hstep, Htol. feed_simpl.
  apply Z.leb_le in Hcount. rewrite Hcount.
  unfold most_recent_bits in Hwin. change (Z.ones 28) with 0x0FFFFFFF in Hwin.
  rewrite Hwin. reflexivity.
Qed.

Lemma nissan_sync_most_recent (s : Nissan.TPMSProtocolDecoderNissan) duration b :
  let d1 := subghz_protocol_blocks_add_bit (Nissan.decoder s) b in
  parser_step (Nissan.decoder s) = Nissan.NissanDecoderStepPreamble ->
  Nissan.pwm_bit (Nissan.last_duration s) = Some b ->
  28 <= decode_count_bit d1 ->
  most_recent_bits 8 (decode_data d1) = 0x5A ->
  Nissan.decoder (fst (Nissan.tpms_protocol_decoder_nissan_feed s false duration))
  = mkBlockDecoder Nissan.NissanDecoderStepData 0 0.
Proof.
  intros d1 Hstep Hbit Hcount Hwin.
  unfold Nissan.tpms_protocol_decoder_nissan_feed.
  rewrite Hstep. feed_simpl. rewrite Hbit. feed_simpl.
  apply Z.leb_le in Hcount. rewrite Hcount.
  unfold most_recent_bits in Hwin. change (Z.ones 8) with 0xFF in Hwin.
  rewrite Hwin. reflexivity.
Qed.

(** ** Nissan: the PWM discriminator *)

Lemma pwm_bit_thresholds (d : Z) :
  (Nissan.pwm_bit d = Some true <-> 89 <= d)
  /\ (Nissan.pwm_bit d = Some false <-> 37 <= d < 89)
  /\ (Nissan.pwm_bit d = None <-> d < 37).
Proof.
  unfold Nissan.pwm_bit. cbn [te_long te_short te_delta Nissan.tpms_protocol_nissan_const].
  change (104 - 15) with 89. change (52 - 15) with 37.
  destruct (Z.leb_spec 89 d); [| destruct (Z.leb_spec 37 d)];
    repeat split; intros; try discriminate; try reflexivity; lia.
Qed.

(** A high level of 200 us, outside both tolerance windows, is shifted in as
    bit 1, and one of 70 us, outside both windows too, as bit 0; the decoder
    stays in the preamble step. *)
Lemma nissan_pwm_outside_windows :
  let D := tpms_protocol_nissan_decoder in
  let s_long := fst (feed_all D nissan_start [(true, 104); (true, 200)]) in
  let s_mid := fst (feed_all D nissan_start [(true, 104); (true, 70)]) in
  (phase D s_long = PhaseSync
   /\ Nissan.last_duration s_long = 200
   /\ in_window 200 104 15 = false /\ in_window 200 52 15 = false
   /\ phase D (fst (feed D s_long false 52)) = PhaseSync
   /\ count_bit D (fst (feed D s_long false 52)) = 1
   /\ accumulator D (fst (feed D s_long false 52)) = 1)
  /\ (phase D s_mid = PhaseSync
      /\ Nissan.last_duration s_mid = 70
      /\ in_window 70 104 15 = false /\ in_window 70 52 15 = false
      /\ phase D (fst (feed D s_mid false 52)) = PhaseSync
      /\ count_bit D (fst (feed D s_mid false 52)) = 1
      /\ accumulator D (fst (feed D s_mid false 52)) = 0).
Proof. vm_compute. repeat split; reflexivity. Qed.

(** C4 as stated fails: on the instance reached by a high level of 104 us
    followed by a high level of 200 us, the recorded duration is outside both
    windows and the next low level does not reset the decoder. *)
Lemma nissan_window_claim_fails : ~ nissan_window_claim nissan_start.
Proof.
  intros Hclaim.
  set (D := tpms_protocol_nissan_decoder).
  set (s1 := fst (feed D nissan_start true 104)).
  set (s2 := fst (feed D s1 true 200)).
  assert (Hreach : reachable D nissan_start s2).
  { apply (reachable_step D nissan_start s1 s2).
    - apply (reachable_step D nissan_start nissan_start s1).
      + apply reachable_start.
      + apply step_feed.
    - apply step_feed. }
  destruct (Hclaim s2 52 Hreach (or_introl eq_refl)) as (_ & _ & Hreset).
  specialize (Hreset eq_refl eq_refl).
  vm_compute in Hreset. discriminate Hreset.
Qed.

(** C4, amended.  On every low level processed in the preamble or data step
    the recorded duration [d] of the previous call is classified by lower
    thresholds only: bit 1 exactly when d >= te_long - te_delta (89), bit 0
    exactly when te_short - te_delta (37) <= d < 89, and the decoder resets to
    the Reset step, touching nothing else, exactly when d < 37.  A classified
    bit is shifted into the accumulator before the sync, overflow and
    frame-length tests of the step. *)
Theorem nissan_pwm_thresholds (s : Nissan.TPMSProtocolDecoderNissan) (duration : Z) :
  let d := Nissan.last_duration s in
  let r := Nissan.tpms_protocol_decoder_nissan_feed s false duration in
  parser_step (Nissan.decoder s) = Nissan.NissanDecoderStepPreamble
  \/ parser_step (Nissan.decoder s) = Nissan.NissanDecoderStepData ->
  (Nissan.pwm_bit d = Some true <-> 89 <= d)
  /\ (Nissan.pwm_bit d = Some false <-> 37 <= d < 89)
  /\ (Nissan.pwm_bit d = None <-> d < 37)
  /\ (d < 37 -> r = (Nissan.set_step s Nissan.NissanDecoderStepReset, false))
  /\ (forall b, Nissan.pwm_bit d = Some b ->
        let d1 := subghz_protocol_blocks_add_bit (Nissan.decoder s) b in
        Nissan.last_duration (fst r) = duration
        /\ Nissan.decoder (fst r)
           = match parser_step (Nissan.decoder s) with
             | Nissan.NissanDecoderStepPreamble =>
                 if (28 <=? decode_count_bit d1)
                    && (Z.land (decode_data d1) 0xFF =? 0x5A)
                 then mkBlockDecoder Nissan.NissanDecoderStepData 0 0
                 else if 40 <? decode_count_bit d1
                      then set_parser_step d1 Nissan.NissanDecoderStepReset
                      else d1
             | _ =>
                 if 72 <=? decode_count_bit d1
                 then set_parser_step d1 Nissan.NissanDecoderStepReset
                 else d1
             end).
Proof.
  intros d r Hstep.
  destruct (pwm_bit_thresholds d) as (H1 & H0 & Hnone).
  split; [exact H1 |]. split; [exact H0 |]. split; [exact Hnone |].
  split.
  - intros Hd. apply Hnone in Hd. unfold r, Nissan.tpms_protocol_decoder_nissan_feed.
    fold d. destruct Hstep as [-> | ->]; feed_simpl; rewrite Hd; reflexivity.
  - intros b Hb d1. unfold r, Nissan.tpms_protocol_decoder_nissan_feed. fold d.
    unfold Nissan.NISSAN_SYNC_PATTERN.
    destruct Hstep as [Hs | Hs]; rewrite Hs; feed_simpl; rewrite Hb; fold d1.
    + split_feed; feed_simpl;
        try match goal with
            | H : (40 <? 0) = true |- _ => cbv in H
            end;
        first [split; reflexivity | congruence | exfalso; bool_arith; lia].
    + split_feed; feed_simpl; first [split; reflexivity | congruence | exfalso; bool_arith; lia].
Qed.

Lemma nissan_pwm_thresholds_witness :
  let s := fst (feed_all tpms_protocol_nissan_decoder nissan_start
                         [(true, 104); (true, 200)]) in
  parser_step (Nissan.decoder s) = Nissan.NissanDecoderStepPreamble
  /\ (Nissan.pwm_bit (Nissan.last_duration s) = Some true
      <-> 89 <= Nissan.last_duration s)
  /\ (Nissan.last_duration s < 37 ->
      Nissan.tpms_protocol_decoder_nissan_feed s false 52
      = (Nissan.set_step s Nissan.NissanDecoderStepReset, false)).
Proof.
  intros s.
  assert (Hstep : parser_step (Nissan.decoder s) = Nissan.NissanDecoderStepPreamble)
    by reflexivity.
  destruct (nissan_pwm_thresholds s 52 (or_introl Hstep)) as (H1 & _ & _ & Hreset & _).
  split; [exact Hstep |].
  split; [exact H1 | exact Hreset].
Defined.


(** ** Runs of [feed] *)

Lemma feed_all_app (D : SubGhzProtocolDecoder) (l1 l2 : list Edge) :
  forall s : instance D,
    feed_all D s (l1 ++ l2)
    = (fst (feed_all D (fst (feed_all D s l1)) l2),
       snd (feed_all D s l1) ++ snd (feed_all D (fst (feed_all D s l1)) l2)).
Proof.
  induction l1 as [| [level duration] l1 IH]; intros s; cbn [app feed_all].
  - cbn [fst snd app]. destruct (feed_all D s l2). reflexivity.
  - destruct (feed D s level duration) as [s1 called].
    rewrite IH.
    destruct (feed_all D s1 l1) as [s2 calls]. cbn [fst snd].
    destruct (feed_all D s2 l2) as [s3 calls']. cbn [fst snd].
    destruct called; reflexivity.
Qed.

(** ** The accumulator as a number *)

Lemma add_bit_data {Step : Type} (d : SubGhzBlockDecoder Step) (b : bool) :
  0 <= decode_data d ->
  decode_data (subghz_protocol_blocks_add_bit d b)
  = (2 * decode_data d + Z.b2z b) mod 2 ^ 64.
Proof.
  intros Hd. cbn [subghz_protocol_blocks_add_bit decode_data].
  unfold u64, wrap. f_equal.
  rewrite lor_shiftl_add; [lia | lia |]. destruct b; cbn; lia.
Qed.

Lemma bits_value_from (bits : list bool) :
  forall v, fold_left (fun v b => 2 * v + Z.b2z b) bits v
            = v * 2 ^ Z.of_nat (List.length bits) + bits_value bits.
Proof.
  unfold bits_value.
  induction bits as [| b bits IH]; intros v; cbn [fold_left List.length].
  - cbn. lia.
  - rewrite IH. rewrite (IH (2 * 0 + Z.b2z b)).
    rewrite Nat2Z.inj_succ, Z.pow_succ_r by lia. ring.
Qed.

Lemma bits_value_app (l1 l2 : list bool) :
  bits_value (l1 ++ l2)
  = bits_value l1 * 2 ^ Z.of_nat (List.length l2) + bits_value l2.
Proof.
  unfold bits_value at 1. rewrite fold_left_app.
  fold (bits_value l1). apply bits_value_from.
Qed.

Lemma bits_value_nonneg (bits : list bool) : 0 <= bits_value bits.
Proof.
  unfold bits_value.
  assert (H : forall v, 0 <= v -> 0 <= fold_left (fun v b => 2 * v + Z.b2z b) bits v).
  { induction bits as [| b bits IH]; intros v Hv; cbn [fold_left].
    - exact Hv.
    - apply IH. destruct b; cbn [Z.b2z]; lia. }
  apply H. lia.
Qed.

Lemma bits_msb_byte (b : Z) : is_u8 b -> bits_value (bits_msb 8 b) = b.
Proof.
  intros Hb.
  apply (forallb_range (fun b => bits_value (bits_msb 8 b) =? b) 256) in Hb.
  - apply Z.eqb_eq. exact Hb.
  - vm_compute. reflexivity.
Qed.

Lemma bits_msb_length (w : nat) (v : Z) : List.length (bits_msb w v) = w.
Proof. unfold bits_msb. rewrite length_map, length_seq. reflexivity. Qed.

Lemma add_bit_count {Step : Type} (d : SubGhzBlockDecoder Step) (b : bool) :
  0 <= decode_count_bit d < 255 ->
  decode_count_bit (subghz_protocol_blocks_add_bit d b) = decode_count_bit d + 1.
Proof. intros Hc. cbn [subghz_protocol_blocks_add_bit decode_count_bit]. apply u8_succ. exact Hc. Qed.

(** Shifting a sequence of bits in leaves the value of the sequence, below
    what was there, modulo 2^64. *)
Lemma add_bits_data {Step : Type} (bits : list bool) :
  forall d : SubGhzBlockDecoder Step,
    0 <= decode_data d < 2 ^ 64 ->
    decode_data (add_bits d bits)
    = (decode_data d * 2 ^ Z.of_nat (List.length bits) + bits_value bits) mod 2 ^ 64.
Proof.
  induction bits as [| b bits IH]; intros d Hd.
  - cbn [add_bits fold_left List.length]. change (bits_value []) with 0.
    rewrite Z.mod_small; lia.
  - unfold add_bits. cbn [fold_left].
    fold (add_bits (subghz_protocol_blocks_add_bit d b) bits).
    rewrite IH.
    2: { rewrite add_bit_data by lia. apply Z.mod_pos_bound. lia. }
    rewrite add_bit_data by lia.
    change (b :: bits) with ([b] ++ bits). rewrite bits_value_app.
    cbn [List.length app]. rewrite Nat2Z.inj_succ, Z.pow_succ_r by lia.
    replace (bits_value [b]) with (Z.b2z b) by (destruct b; reflexivity).
    rewrite Zplus_mod, Zmult_mod, Z.mod_mod by lia.
    rewrite <- Zmult_mod, <- Zplus_mod. f_equal. ring.
Qed.

Lemma add_bits_count {Step : Type} (bits : list bool) :
  forall d : SubGhzBlockDecoder Step,
    0 <= decode_count_bit d ->
    decode_count_bit d + Z.of_nat (List.length bits) < 256 ->
    decode_count_bit (add_bits d bits)
    = decode_count_bit d + Z.of_nat (List.length bits).
Proof.
  induction bits as [| b bits IH]; intros d Hc Hlen.
  - cbn. lia.
  - unfold add_bits. cbn [fold_left].
    fold (add_bits (subghz_protocol_blocks_add_bit d b) bits).
    cbn [List.length] in *. rewrite Nat2Z.inj_succ in *.
    rewrite IH; rewrite add_bit_count by lia; lia.
Qed.

Lemma add_bits_step {Step : Type} (bits : list bool) :
  forall d : SubGhzBlockDecoder Step,
    parser_step (add_bits d bits) = parser_step d.
Proof.
  induction bits as [| b bits IH]; intros d; [reflexivity |].
  unfold add_bits. cbn [fold_left].
  fold (add_bits (subghz_protocol_blocks_add_bit d b) bits). rewrite IH. reflexivity.
Qed.

(** ** Toyota: a frame from the first edge to the callback *)

Lemma edges_of_bits_app (te : Z) (l1 l2 : list bool) :
  edges_of_bits te (l1 ++ l2) = edges_of_bits te l1 ++ edges_of_bits te l2.
Proof. unfold edges_of_bits. apply map_app. Qed.

(** Below 72 bits the data step only shifts the levels in. *)
Lemma toyota_collect_partial (bits : list bool) :
  forall s : Toyota.TPMSProtocolDecoderToyota,
    parser_step (Toyota.decoder s) = Toyota.ToyotaDecoderStepData ->
    0 <= decode_count_bit (Toyota.decoder s) ->
    decode_count_bit (Toyota.decoder s) + Z.of_nat (List.length bits) < 72 ->
    feed_all tpms_protocol_toyota_decoder s (edges_of_bits 52 bits)
    = (Toyota.set_decoder s (add_bits (Toyota.decoder s) bits), []).
Proof.
  induction bits as [| b bits IH]; intros s Hstep Hc Hlen.
  - destruct s as [? [? ? ?] ? ? ? ? ?]. reflexivity.
  - cbn [List.length] in Hlen. rewrite Nat2Z.inj_succ in Hlen.
    cbn [edges_of_bits map feed_all feed tpms_protocol_toyota_decoder].
    unfold Toyota.tpms_protocol_decoder_toyota_feed at 1.
    rewrite Hstep. change (Toyota.in_tolerance 52) with true. cbv iota.
    feed_simpl. rewrite (u8_succ (decode_count_bit (Toyota.decoder s))) by lia.
    destruct (Z.leb_spec 72 (decode_count_bit (Toyota.decoder s) + 1)) as [Hge | _];
      [lia |].
    fold (edges_of_bits 52 bits).
    rewrite (IH (Toyota.set_decoder s
                   (subghz_protocol_blocks_add_bit (Toyota.decoder s) b))).
    + destruct s as [? [? ? ?] ? ? ? ? ?]. reflexivity.
    + exact Hstep.
    + cbn [Toyota.set_decoder Toyota.decoder]. rewrite add_bit_count by lia. lia.
    + cbn [Toyota.set_decoder Toyota.decoder]. rewrite add_bit_count by lia. lia.
Qed.

Lemma toyota_collect_last (s : Toyota.TPMSProtocolDecoderToyota) (b : bool) :
  parser_step (Toyota.decoder s) = Toyota.ToyotaDecoderStepData ->
  decode_count_bit (Toyota.decoder s) = 71 ->
  let d := subghz_protocol_blocks_add_bit (Toyota.decoder s) b in
  let buf := unpack_bytes (decode_data d) 8 0 9 (Toyota.manchester_data s) in
  Toyota.tpms_protocol_decoder_toyota_feed s b 52
  = (toyota_completed s d,
     Toyota.tpms_protocol_toyota_check_crc buf && callback (Toyota.base s)).
Proof.
  intros Hstep Hc d buf.
  unfold Toyota.tpms_protocol_decoder_toyota_feed, toyota_completed.
  rewrite Hstep. change (Toyota.in_tolerance 52) with true. cbv iota.
  feed_simpl. rewrite Hc. change (72 <=? u8 (71 + 1)) with true. cbv iota.
  fold d. fold buf.
  destruct (Toyota.tpms_protocol_toyota_check_crc buf); reflexivity.
Qed.

Lemma toyota_completed_set_decoder (s : Toyota.TPMSProtocolDecoderToyota) d0 d :
  toyota_completed (Toyota.set_decoder s d0) d = toyota_completed s d.
Proof.
  destruct s as [? [? ? ?] ? ? ? ? ?]. unfold toyota_completed.
  cbn [Toyota.set_decoder Toyota.set_manchester_data Toyota.set_generic
       Toyota.set_step Toyota.manchester_data Toyota.generic Toyota.decoder
       Toyota.base Toyota.manchester_bit_count Toyota.looking_for_sync
       Toyota.sync_found_bits].
  reflexivity.
Qed.

(** The 72 bits of a frame, fed to an instance that has just found the sync
    pattern. *)
Lemma toyota_collect (bits : list bool) (s : Toyota.TPMSProtocolDecoderToyota) :
  parser_step (Toyota.decoder s) = Toyota.ToyotaDecoderStepData ->
  decode_count_bit (Toyota.decoder s) = 0 ->
  List.length bits = 72%nat ->
  let d := add_bits (Toyota.decoder s) bits in
  let buf := unpack_bytes (decode_data d) 8 0 9 (Toyota.manchester_data s) in
  feed_all tpms_protocol_toyota_decoder s (edges_of_bits 52 bits)
  = (toyota_completed s d,
     if Toyota.tpms_protocol_toyota_check_crc buf && callback (Toyota.base s)
     then [toyota_completed s d] else []).
Proof.
  intros Hstep Hc Hlen d buf.
  assert (Hne : bits <> []) by (intros ->; discriminate Hlen).
  pose proof (app_removelast_last false Hne) as Hsplit.
  set (front := removelast bits) in *. set (b := last bits false) in *.
  assert (Hfront : List.length front = 71%nat).
  { assert (H := f_equal (@List.length bool) Hsplit).
    rewrite length_app in H. cbn [List.length] in H. lia. }
  subst buf d. clearbody front b. subst bits.
  rewrite edges_of_bits_app, feed_all_app.
  rewrite (toyota_collect_partial front s)
    by first [exact Hstep | rewrite Hc; lia | rewrite Hc, Hfront; lia].
  cbn [fst snd app edges_of_bits map feed_all feed tpms_protocol_toyota_decoder].
  set (d1 := add_bits (Toyota.decoder s) front).
  assert (Hstep1 : parser_step (Toyota.decoder (Toyota.set_decoder s d1))
                   = Toyota.ToyotaDecoderStepData).
  { cbn [Toyota.set_decoder Toyota.decoder]. unfold d1.
    rewrite add_bits_step. exact Hstep. }
  assert (Hc1 : decode_count_bit (Toyota.decoder (Toyota.set_decoder s d1)) = 71).
  { cbn [Toyota.set_decoder Toyota.decoder]. unfold d1.
    rewrite add_bits_count; rewrite Hc, ?Hfront; lia. }
  pose proof (toyota_collect_last _ b Hstep1 Hc1) as Hlast. cbv zeta in Hlast.
  rewrite Hlast. clear Hlast. cbn [fst snd].
  cbn [Toyota.set_decoder Toyota.decoder Toyota.manchester_data Toyota.base].
  rewrite toyota_completed_set_decoder.
  assert (Hd : subghz_protocol_blocks_add_bit d1 b
               = add_bits (Toyota.decoder s) (front ++ [b])).
  { unfold d1, add_bits. rewrite fold_left_app. reflexivity. }
  rewrite Hd. reflexivity.
Qed.

Lemma shiftr_land_ff (w k : Z) :
  0 <= k -> Z.land (Z.shiftr w k) 0xFF = (w / 2 ^ k) mod 256.
Proof.
  intros Hk. rewrite Z.shiftr_div_pow2 by exact Hk.
  change 0xFF with (Z.ones 8). rewrite Z.land_ones by lia. reflexivity.
Qed.

(** The accumulator after the 72 bits of nine bytes: the first byte has left
    the 64-bit word. *)
Lemma toyota_frame_word (b0 b1 b2 b3 b4 b5 b6 b7 b8 : Z) :
  Forall is_u8 [b0; b1; b2; b3; b4; b5; b6; b7; b8] ->
  decode_data
    (add_bits (mkBlockDecoder Toyota.ToyotaDecoderStepData 0 0)
              (bits_of_bytes [b0; b1; b2; b3; b4; b5; b6; b7; b8]))
  = b1 * 2 ^ 56 + b2 * 2 ^ 48 + b3 * 2 ^ 40 + b4 * 2 ^ 32
    + b5 * 2 ^ 24 + b6 * 2 ^ 16 + b7 * 2 ^ 8 + b8.
Proof.
  intros HB.
  repeat match goal with
         | H : Forall _ (_ :: _) |- _ => inversion H; subst; clear H
         end.
  rewrite add_bits_data by (cbn [decode_data]; lia).
  cbn [decode_data bits_of_bytes flat_map].
  rewrite !bits_value_app, !length_app, !bits_msb_length.
  rewrite !bits_msb_byte by assumption.
  change (bits_value []) with 0. cbn [List.length Nat.add].
  unfold is_u8 in *.
  change (Z.of_nat 0) with 0. change (Z.of_nat 8) with 8.
  change (Z.of_nat 16) with 16. change (Z.of_nat 24) with 24.
  change (Z.of_nat 32) with 32. change (Z.of_nat 40) with 40.
  change (Z.of_nat 48) with 48. change (Z.of_nat 56) with 56.
  change (Z.of_nat 64) with 64. change (Z.of_nat 72) with 72.
  Z.div_mod_to_equations. lia.
Qed.

(** The value of the eight bytes that remain in the word. *)
Lemma toyota_frame_word_value (b0 b1 b2 b3 b4 b5 b6 b7 b8 : Z) :
  Forall is_u8 [b0; b1; b2; b3; b4; b5; b6; b7; b8] ->
  decode_data
    (add_bits (mkBlockDecoder Toyota.ToyotaDecoderStepData 0 0)
              (bits_of_bytes [b0; b1; b2; b3; b4; b5; b6; b7; b8]))
  = be_value [b1; b2; b3; b4; b5; b6; b7; b8].
Proof.
  intros HB. rewrite toyota_frame_word by exact HB.
  cbv [be_value fold_left]. lia.
Qed.

(** The byte buffer after those 72 bits, byte 0 apart (it is read with a
    shift by the width of the word): bytes 1 to 8 are those of the bytes
    sent, byte 9 is as the memset of the sync step left it. *)
Lemma toyota_frame_buffer (b0 b1 b2 b3 b4 b5 b6 b7 b8 : Z) :
  Forall is_u8 [b0; b1; b2; b3; b4; b5; b6; b7; b8] ->
  tl (unpack_bytes
        (decode_data
           (add_bits (mkBlockDecoder Toyota.ToyotaDecoderStepData 0 0)
                     (bits_of_bytes [b0; b1; b2; b3; b4; b5; b6; b7; b8])))
        8 0 9 (memset_zero 10))
  = [b1; b2; b3; b4; b5; b6; b7; b8; 0].
Proof.
  intros HB. rewrite toyota_frame_word by exact HB.
  repeat match goal with
         | H : Forall _ (_ :: _) |- _ => inversion H; subst; clear H
         end.
  unfold is_u8 in *.
  cbv [unpack_bytes memset_zero repeat seq fold_left array_set Nat.add tl].
  change ((8 - Z.of_nat 1) * 8) with 56.
  change ((8 - Z.of_nat 2) * 8) with 48. change ((8 - Z.of_nat 3) * 8) with 40.
  change ((8 - Z.of_nat 4) * 8) with 32. change ((8 - Z.of_nat 5) * 8) with 24.
  change ((8 - Z.of_nat 6) * 8) with 16. change ((8 - Z.of_nat 7) * 8) with 8.
  change ((8 - Z.of_nat 8) * 8) with 0.
  rewrite !shiftr_land_ff by lia.
  repeat (apply f_equal2; [Z.div_mod_to_equations; lia |]).
  reflexivity.
Qed.

Lemma toyota_completed_fields (s : Toyota.TPMSProtocolDecoderToyota) d :
  let buf := unpack_bytes (decode_data d) 8 0 9 (Toyota.manchester_data s) in
  Toyota.manchester_data (toyota_completed s d) = buf
  /\ parser_step (Toyota.decoder (toyota_completed s d)) = Toyota.ToyotaDecoderStepReset
  /\ decode_data (Toyota.decoder (toyota_completed s d)) = decode_data d
  /\ Toyota.generic (toyota_completed s d)
     = (if Toyota.tpms_protocol_toyota_check_crc buf
        then Toyota.tpms_protocol_toyota_analyze (Toyota.generic s) buf
        else Toyota.generic s).
Proof.
  intros buf. unfold toyota_completed. fold buf.
  destruct (Toyota.tpms_protocol_toyota_check_crc buf);
    destruct s as [sb [sst sdd scc] sg sbuf smb slf ssf]; destruct d; repeat split.
Qed.

(** The sync phase of a frame: the qualifying edge and the twelve sync bits
    take any instance in the Reset step to the data step with an empty
    accumulator and a cleared byte buffer. *)
Lemma toyota_sync_acquired base dd cc g buf mbc lfs sfb :
  feed_all tpms_protocol_toyota_decoder
    (Toyota.mk base (mkBlockDecoder Toyota.ToyotaDecoderStepReset dd cc)
               g buf mbc lfs sfb)
    ((true, 52) :: edges_of_bits 52 (bits_msb 12 0xA9E))
  = (Toyota.mk base (mkBlockDecoder Toyota.ToyotaDecoderStepData 0 0)
               g (memset_zero 10) 0 lfs sfb, []).
Proof. vm_compute. reflexivity. Qed.

Lemma toyota_frame_run (s : Toyota.TPMSProtocolDecoderToyota) (B : list Z) :
  parser_step (Toyota.decoder s) = Toyota.ToyotaDecoderStepReset ->
  frame_ok 9 B ->
  exists s2 d,
    Toyota.generic s2 = Toyota.generic s
    /\ Toyota.base s2 = Toyota.base s
    /\ decode_data d = be_value (tl B)
    /\ tl (unpack_bytes (decode_data d) 8 0 9 (Toyota.manchester_data s2))
       = tl B ++ [0]
    /\ feed_all tpms_protocol_toyota_decoder s (toyota_frame_edges B)
       = (toyota_completed s2 d,
          if Toyota.tpms_protocol_toyota_check_crc
               (unpack_bytes (decode_data d) 8 0 9 (Toyota.manchester_data s2))
             && callback (Toyota.base s2)
          then [toyota_completed s2 d] else []).
Proof.
  intros Hstep [Hlen HB].
  destruct B as [| b0 [| b1 [| b2 [| b3 [| b4 [| b5 [| b6 [| b7 [| b8 [| ? ?]]]]]]]]]];
    try discriminate Hlen.
  destruct s as [base [st dd cc] g buf mbc lfs sfb].
  cbn [Toyota.decoder parser_step] in Hstep. subst st.
  set (s2 := Toyota.mk base (mkBlockDecoder Toyota.ToyotaDecoderStepData 0 0)
                       g (memset_zero 10) 0 lfs sfb).
  set (bits := bits_of_bytes [b0; b1; b2; b3; b4; b5; b6; b7; b8]).
  exists s2, (add_bits (Toyota.decoder s2) bits).
  split; [reflexivity |]. split; [reflexivity |]. split; [| split].
  - apply (toyota_frame_word_value b0 b1 b2 b3 b4 b5 b6 b7 b8 HB).
  - apply (toyota_frame_buffer b0 b1 b2 b3 b4 b5 b6 b7 b8 HB).
  - assert (Hedges : toyota_frame_edges [b0; b1; b2; b3; b4; b5; b6; b7; b8]
                     = ((true, 52) :: edges_of_bits 52 (bits_msb 12 0xA9E))
                       ++ edges_of_bits 52 bits).
    { unfold toyota_frame_edges. rewrite edges_of_bits_app. reflexivity. }
    rewrite Hedges, feed_all_app, toyota_sync_acquired.
    fold s2. cbn [fst snd app].
    rewrite <- surjective_pairing.
    apply (toyota_collect bits s2); reflexivity.
Qed.

Lemma byte_at_tl (l : list Z) (i : nat) : byte_at l (S i) = byte_at (tl l) i.
Proof. destruct l; [destruct i |]; reflexivity. Qed.

(** X1.  The Toyota decoder on a whole frame.  From any instance in the Reset
    step, one qualifying high edge, the twelve sync bits 0xA9E and the 72 bits
    of nine bytes, every edge at the nominal 52 us, leave the decoder in the
    Reset step.  The first byte of the frame has then left the 64-bit
    accumulator, which holds bytes 1 to 8 only, and bytes 1 to 8 of the byte
    buffer are bytes 1 to 8 of the frame.  The reading is analysed and the
    callback invoked, once, exactly when the CRC of the byte buffer passes;
    otherwise the reading is untouched and no callback is made.  Byte 0 of the
    buffer is read with a shift by 64, which C leaves undefined: nothing is
    said of its value, and the statement holds however that shift reads. *)
Theorem toyota_frame_round_trip (s : Toyota.TPMSProtocolDecoderToyota) (B : list Z) :
  parser_step (Toyota.decoder s) = Toyota.ToyotaDecoderStepReset ->
  frame_ok 9 B ->
  let r := feed_all tpms_protocol_toyota_decoder s (toyota_frame_edges B) in
  let buf := Toyota.manchester_data (fst r) in
  decode_data (Toyota.decoder (fst r)) = be_value (tl B)
  /\ (forall i, (1 <= i <= 8)%nat -> byte_at buf i = byte_at B i)
  /\ parser_step (Toyota.decoder (fst r)) = Toyota.ToyotaDecoderStepReset
  /\ Toyota.generic (fst r)
     = (if Toyota.tpms_protocol_toyota_check_crc buf
        then Toyota.tpms_protocol_toyota_analyze (Toyota.generic s) buf
        else Toyota.generic s)
  /\ List.length (snd r)
     = (if Toyota.tpms_protocol_toyota_check_crc buf && callback (Toyota.base s)
        then 1%nat else 0%nat).
Proof.
  intros Hstep HB r buf.
  destruct (toyota_frame_run s B Hstep HB) as (s2 & d & Hg & Hb & Hword & Htl & Hrun).
  destruct (toyota_completed_fields s2 d) as (F1 & F2 & F3 & F4).
  cbv zeta in F1, F4.
  assert (Hbuf : buf = unpack_bytes (decode_data d) 8 0 9 (Toyota.manchester_data s2)).
  { unfold buf, r. rewrite Hrun. cbn [fst]. exact F1. }
  assert (Hfst : fst r = toyota_completed s2 d).
  { unfold r. rewrite Hrun. reflexivity. }
  rewrite <- Hbuf in F4, Htl.
  split; [rewrite Hfst, F3; exact Hword |].
  split.
  { intros i Hi. destruct i as [| i]; [lia |].
    rewrite !byte_at_tl, Htl. unfold byte_at.
    destruct HB as [Hlen _].
    rewrite app_nth1; [reflexivity |].
    destruct B; [discriminate Hlen |]. cbn [tl List.length] in *. lia. }
  split; [rewrite Hfst; exact F2 |].
  split; [rewrite Hfst, F4, Hg; reflexivity |].
  unfold r at 1. rewrite Hrun. cbn [snd].
  rewrite <- Hbuf, Hb.
  destruct (Toyota.tpms_protocol_toyota_check_crc buf && callback (Toyota.base s));
    reflexivity.
Qed.

Lemma toyota_frame_round_trip_witness :
  let r := feed_all tpms_protocol_toyota_decoder toyota_start
                    (toyota_frame_edges toyota_good_frame) in
  decode_data (Toyota.decoder (fst r)) = 0xAABB573250009B00
  /\ byte_at (Toyota.manchester_data (fst r)) 1 = 0xAA
  /\ parser_step (Toyota.decoder (fst r)) = Toyota.ToyotaDecoderStepReset
  /\ Generic.id (Toyota.generic (fst r)) = 0xAABB57
  /\ List.length (snd r) = 1%nat.
Proof.
  intros r.
  assert (HB : frame_ok 9 toyota_good_frame).
  { split; [reflexivity |]. repeat constructor; unfold is_u8; lia. }
  destruct (toyota_frame_round_trip toyota_start toyota_good_frame eq_refl HB)
    as (Hword & Hbytes & Hstep & Hgen & Hcalls).
  fold r in Hword, Hbytes, Hstep, Hgen, Hcalls.
  split; [exact Hword |].
  split; [exact (Hbytes 1%nat ltac:(lia)) |].
  split; [exact Hstep |].
  split.
  - rewrite Hgen. vm_compute. reflexivity.
  - rewrite Hcalls. vm_compute. reflexivity.
Defined.

(** ** Nissan: the recorded duration *)

(** The situation of the Nissan decoder on an alternating signal after a
    reset: the recorded duration is below the short threshold, and the
    preamble step is only ever entered by a high level, so that the next
    level is low. *)
Lemma nissan_alternating_run (edges : list Edge) :
  forall s : Nissan.TPMSProtocolDecoderNissan,
    Nissan.last_duration s < 37 ->
    alternating edges = true ->
    parser_step (Nissan.decoder s) = Nissan.NissanDecoderStepReset
    \/ (parser_step (Nissan.decoder s) = Nissan.NissanDecoderStepPreamble
        /\ match edges with (l, _) :: _ => l = false | [] => True end) ->
    exists s',
      feed_all tpms_protocol_nissan_decoder s edges = (s', [])
      /\ Nissan.generic s' = Nissan.generic s
      /\ Nissan.pwm_data s' = Nissan.pwm_data s
      /\ Nissan.last_duration s' = Nissan.last_duration s
      /\ parser_step (Nissan.decoder s') <> Nissan.NissanDecoderStepData.
Proof.
  induction edges as [| [level duration] rest IH]; intros s Hlast Halt Hstep.
  - exists s. cbn [feed_all]. repeat split.
    destruct Hstep as [-> | [-> _]]; discriminate.
  - assert (Hnone : Nissan.pwm_bit (Nissan.last_duration s) = None).
    { apply pwm_bit_thresholds. exact Hlast. }
    assert (Halt' : alternating rest = true).
    { cbn [alternating] in Halt. destruct rest as [| [l2 d2] rest']; [reflexivity |].
      apply andb_true_iff in Halt. apply Halt. }
    assert (Hnext : level = true ->
                    match rest with (l, _) :: _ => l = false | [] => True end).
    { intros ->. cbn [alternating] in Halt.
      destruct rest as [| [l2 d2] rest']; [exact I |].
      apply andb_true_iff in Halt. destruct Halt as [Hne _].
      destruct l2; [discriminate Hne | reflexivity]. }
    assert (Hfeed :
      exists s1,
        Nissan.tpms_protocol_decoder_nissan_feed s level duration = (s1, false)
        /\ Nissan.generic s1 = Nissan.generic s
        /\ Nissan.pwm_data s1 = Nissan.pwm_data s
        /\ Nissan.last_duration s1 = Nissan.last_duration s
        /\ (parser_step (Nissan.decoder s1) = Nissan.NissanDecoderStepReset
            \/ (parser_step (Nissan.decoder s1) = Nissan.NissanDecoderStepPreamble
                /\ level = true))).
    { unfold Nissan.tpms_protocol_decoder_nissan_feed.
      destruct Hstep as [Hreset | [Hpre Hlow]].
      - (* Reset step: only a long high level opens the preamble *)
        rewrite Hreset. destruct (level && _) eqn:Hstart.
        + eexists. split; [reflexivity |].
          apply andb_true_iff in Hstart. destruct Hstart as [-> _].
          destruct s as [sb [sst sdd scc] sg sbuf sl sld].
          repeat split. right. split; reflexivity.
        + exists s. repeat split. left. exact Hreset.
      - (* preamble step: the level is low, the recorded duration too short *)
        subst level. rewrite Hpre. cbn [negb]. rewrite Hnone.
        eexists. split; [reflexivity |].
        destruct s as [sb [sst sdd scc] sg sbuf sl sld].
        repeat split. left. reflexivity. }
    destruct Hfeed as (s1 & Hfeed & G1 & G2 & G3 & G4).
    destruct (IH s1) as (s' & Hrun & I2 & I3 & I4 & I5).
    + rewrite G3. exact Hlast.
    + exact Halt'.
    + destruct G4 as [G4 | [G4 Hlevel]]; [left; exact G4 |].
      right. split; [exact G4 | exact (Hnext Hlevel)].
    + exists s'. cbn [feed_all feed tpms_protocol_nissan_decoder].
      rewrite Hfeed.
      rewrite Hrun. repeat split; congruence.
Qed.

(** X2.  After a reset the Nissan decoder cannot decode a signal whose levels
    alternate: entering the preamble step does not record the duration of
    the high level that opened it, so the first low level finds the recorded
    duration at zero and sends the decoder back to the Reset step.  Whatever
    the durations, no callback is made, the reading and the byte buffer are
    untouched and the data step is never reached. *)
Theorem nissan_alternating_never_decodes
    (s0 : Nissan.TPMSProtocolDecoderNissan) (edges : list Edge) :
  alternating edges = true ->
  let s := Nissan.tpms_protocol_decoder_nissan_reset s0 in
  let r := feed_all tpms_protocol_nissan_decoder s edges in
  snd r = []
  /\ Nissan.generic (fst r) = Nissan.generic s0
  /\ Nissan.pwm_data (fst r) = Nissan.pwm_data s0
  /\ Nissan.last_duration (fst r) = 0
  /\ parser_step (Nissan.decoder (fst r)) <> Nissan.NissanDecoderStepData.
Proof.
  intros Halt s r.
  destruct (nissan_alternating_run edges s) as (s' & Hrun & H2 & H3 & H4 & H5).
  - unfold s. destruct s0 as [sb [sst sdd scc] sg sbuf sl sld]. cbn. lia.
  - exact Halt.
  - left. unfold s. destruct s0 as [sb [sst sdd scc] sg sbuf sl sld]. reflexivity.
  - unfold r. rewrite Hrun. cbn [fst snd].
    unfold s in H2, H3, H4. destruct s0 as [sb [sst sdd scc] sg sbuf sl sld].
    cbn [Nissan.tpms_protocol_decoder_nissan_reset Nissan.set_last Nissan.set_step
         Nissan.set_decoder Nissan.generic Nissan.pwm_data Nissan.last_duration
         Nissan.decoder] in H2, H3, H4.
    repeat split; assumption.
Qed.

Lemma nissan_alternating_never_decodes_witness :
  let edges := [(true, 104); (false, 52); (true, 104); (false, 52); (true, 52);
                (false, 52); (true, 104); (false, 52)] in
  let r := feed_all tpms_protocol_nissan_decoder
                    (Nissan.tpms_protocol_decoder_nissan_reset nissan_start) edges in
  snd r = []
  /\ parser_step (Nissan.decoder (fst r)) <> Nissan.NissanDecoderStepData.
Proof.
  intros edges r.
  destruct (nissan_alternating_never_decodes nissan_start edges eq_refl)
    as (H1 & _ & _ & _ & H5).
  split; [exact H1 | exact H5].
Defined.

(** ** Edges out of tolerance *)

Lemma duration_diff_abs (x y : Z) : DURATION_DIFF x y = Z.abs (x - y).
Proof. unfold DURATION_DIFF. destruct (Z.ltb_spec x y); lia. Qed.

Lemma ford_noise (level : bool) (duration : Z) :
  out_of_tolerance Ford.tpms_protocol_ford_const (level, duration) = true ->
  Ford.in_tolerance duration = false.
Proof.
  unfold out_of_tolerance, Ford.in_tolerance. cbn [snd]. rewrite duration_diff_abs.
  intros H. apply Z.leb_le in H. apply Z.ltb_ge. exact H.
Qed.

Lemma gm_noise (level : bool) (duration : Z) :
  out_of_tolerance GM.tpms_protocol_gm_const (level, duration) = true ->
  GM.in_tolerance duration = false.
Proof.
  unfold out_of_tolerance, GM.in_tolerance. cbn [snd]. rewrite duration_diff_abs.
  intros H. apply Z.leb_le in H. apply Z.ltb_ge. exact H.
Qed.

Lemma hyundai_noise (level : bool) (duration : Z) :
  out_of_tolerance Hyundai.tpms_protocol_hyundai_const (level, duration) = true ->
  Hyundai.in_tolerance duration = false.
Proof.
  unfold out_of_tolerance, Hyundai.in_tolerance. cbn [snd]. rewrite duration_diff_abs.
  intros H. apply Z.leb_le in H. apply Z.ltb_ge. exact H.
Qed.

Lemma toyota_noise (level : bool) (duration : Z) :
  out_of_tolerance Toyota.tpms_protocol_toyota_const (level, duration) = true ->
  Toyota.in_tolerance duration = false.
Proof.
  unfold out_of_tolerance, Toyota.in_tolerance. cbn [snd]. rewrite duration_diff_abs.
  intros H. apply Z.leb_le in H. apply Z.ltb_ge. exact H.
Qed.

(** In the Reset step an edge out of tolerance changes nothing. *)
Lemma noise_in_reset (p : TPMSProtocol) (s : instance (protocol_decoder p))
    (level : bool) (duration : Z) :
  p <> TPMSNissan ->
  out_of_tolerance (block_const (protocol_decoder p)) (level, duration) = true ->
  phase (protocol_decoder p) s = PhaseReset ->
  feed (protocol_decoder p) s level duration = (s, false).
Proof.
  intros Hp Hnoise Hphase.
  destruct p; try (contradiction Hp; reflexivity);
    cbn [protocol_decoder feed phase block_const tpms_protocol_toyota_decoder
         tpms_protocol_ford_decoder tpms_protocol_gm_decoder
         tpms_protocol_hyundai_decoder] in *.
  - unfold Toyota.tpms_protocol_decoder_toyota_feed.
    destruct (parser_step (Toyota.decoder s)); try discriminate Hphase.
    rewrite (toyota_noise _ _ Hnoise), andb_false_r. reflexivity.
  - unfold Ford.tpms_protocol_decoder_ford_feed.
    destruct (parser_step (Ford.decoder s)); try discriminate Hphase.
    rewrite (ford_noise _ _ Hnoise), andb_false_r. reflexivity.
  - unfold GM.tpms_protocol_decoder_gm_feed.
    destruct (parser_step (GM.decoder s)); try discriminate Hphase.
    rewrite (gm_noise _ _ Hnoise), andb_false_r. reflexivity.
  - unfold Hyundai.tpms_protocol_decoder_hyundai_feed.
    destruct (parser_step (Hyundai.decoder s)); try discriminate Hphase.
    rewrite (hyundai_noise _ _ Hnoise), andb_false_r. reflexivity.
Qed.

(** In any step that [feed] handles, an edge out of tolerance sends the
    decoder back to the Reset step, with no callback and the reading as it
    was. *)
Lemma noise_desyncs (p : TPMSProtocol) (s : instance (protocol_decoder p))
    (level : bool) (duration : Z) :
  p <> TPMSNissan ->
  out_of_tolerance (block_const (protocol_decoder p)) (level, duration) = true ->
  phase (protocol_decoder p) s <> PhaseUnused ->
  let r := feed (protocol_decoder p) s level duration in
  snd r = false
  /\ phase (protocol_decoder p) (fst r) = PhaseReset
  /\ reading (protocol_decoder p) (fst r) = reading (protocol_decoder p) s.
Proof.
  intros Hp Hnoise Hphase.
  destruct p; try (contradiction Hp; reflexivity);
    cbn [protocol_decoder feed phase reading block_const tpms_protocol_toyota_decoder
         tpms_protocol_ford_decoder tpms_protocol_gm_decoder
         tpms_protocol_hyundai_decoder] in *.
  - unfold Toyota.tpms_protocol_decoder_toyota_feed.
    destruct s as [sb [sst sdd scc] sg sbuf ? ? ?].
    cbn [Toyota.decoder parser_step] in *.
    rewrite (toyota_noise _ _ Hnoise), andb_false_r.
    destruct sst; repeat split.
  - unfold Ford.tpms_protocol_decoder_ford_feed.
    destruct s as [sb [sst sdd scc] sg sbuf ?].
    cbn [Ford.decoder parser_step] in *.
    rewrite (ford_noise _ _ Hnoise), andb_false_r.
    destruct sst; repeat split.
  - unfold GM.tpms_protocol_decoder_gm_feed.
    destruct s as [sb [sst sdd scc] sg sbuf ?].
    cbn [GM.decoder parser_step] in *.
    rewrite (gm_noise _ _ Hnoise), andb_false_r.
    destruct sst; repeat split. contradiction Hphase. reflexivity.
  - unfold Hyundai.tpms_protocol_decoder_hyundai_feed.
    destruct s as [sb [sst sdd scc] sg sbuf ?].
    cbn [Hyundai.decoder parser_step] in *.
    rewrite (hyundai_noise _ _ Hnoise), andb_false_r.
    destruct sst; repeat split.
Qed.

Lemma noise_run_in_reset (p : TPMSProtocol) (edges : list Edge) :
  p <> TPMSNissan ->
  forall s : instance (protocol_decoder p),
    Forall (fun e => out_of_tolerance (block_const (protocol_decoder p)) e = true) edges ->
    phase (protocol_decoder p) s = PhaseReset ->
    feed_all (protocol_decoder p) s edges = (s, []).
Proof.
  intros Hp.
  induction edges as [| [level duration] rest IH]; intros s Hnoise Hphase.
  - reflexivity.
  - inversion Hnoise as [| e l Hhead Htail]; subst.
    cbn [feed_all]. rewrite (noise_in_reset p s level duration Hp Hhead Hphase).
    rewrite (IH s Htail Hphase). reflexivity.
Qed.

(** X3.  Noise rejection by the Ford, GM, Hyundai and Toyota decoders, which
    accept an edge only if its duration is within [te_delta] of [te_short].
    Fed only edges that fail this test, such a decoder in the Reset step is
    left exactly as it was and makes no callback; and a non-empty sequence of
    such edges fed in any step that [feed] handles leaves it in the Reset
    step, with no callback and the reading as it was.  The Nissan decoder is
    not covered: it compares durations with lower thresholds only. *)
Theorem noise_is_rejected (p : TPMSProtocol) (s : instance (protocol_decoder p))
    (edges : list Edge) :
  let D := protocol_decoder p in
  p <> TPMSNissan ->
  Forall (fun e => out_of_tolerance (block_const D) e = true) edges ->
  (phase D s = PhaseReset -> feed_all D s edges = (s, []))
  /\ (phase D s <> PhaseUnused -> edges <> [] ->
      snd (feed_all D s edges) = []
      /\ phase D (fst (feed_all D s edges)) = PhaseReset
      /\ reading D (fst (feed_all D s edges)) = reading D s).
Proof.
  intros D Hp Hnoise. split.
  - intros Hphase. apply noise_run_in_reset; assumption.
  - intros Hphase Hne.
    destruct edges as [| [level duration] rest]; [contradiction Hne; reflexivity |].
    inversion Hnoise as [| e l Hhead Htail]; subst.
    destruct (noise_desyncs p s level duration Hp Hhead Hphase) as (Hcalled & Hreset & Hread).
    fold D in Hcalled, Hreset, Hread.
    cbn [feed_all].
    destruct (feed D s level duration) as [s1 called]. cbn [fst snd] in *. subst called.
    unfold D. rewrite (noise_run_in_reset p rest Hp s1 Htail Hreset). cbn [fst snd].
    repeat split; assumption.
Qed.

Lemma noise_is_rejected_witness :
  let D := tpms_protocol_ford_decoder in
  let s := fst (feed_all D ford_start [(true, 52); (false, 52); (true, 52)]) in
  phase D s = PhaseSync
  /\ snd (feed_all D s [(true, 10); (false, 300)]) = []
  /\ phase D (fst (feed_all D s [(true, 10); (false, 300)])) = PhaseReset.
Proof.
  intros D s.
  assert (Hnoise : Forall (fun e => out_of_tolerance (block_const D) e = true)
                          [(true, 10); (false, 300)]).
  { repeat constructor. }
  assert (Hp : TPMSFord <> TPMSNissan) by discriminate.
  destruct (noise_is_rejected TPMSFord s _ Hp Hnoise) as [_ H].
  destruct H as (H1 & H2 & _).
  - discriminate.
  - discriminate.
  - split; [reflexivity |]. split; [exact H1 | exact H2].
Defined.

(** ** Single-byte errors *)

Section ByteFold.

Variable f : Z -> Z -> Z.
Hypothesis f_range : forall c b, is_u8 (f c b).
Hypothesis f_inj_state :
  forall c c' b, is_u8 c -> is_u8 c' -> is_u8 b -> f c b = f c' b -> c = c'.
Hypothesis f_inj_byte :
  forall c b b', is_u8 c -> is_u8 b -> is_u8 b' -> f c b = f c b' -> b = b'.


Lemma byte_fold_range (data : list Z) (l : list nat) (init : Z) :
  is_u8 init -> is_u8 (byte_fold f data l init).
Proof.
  unfold byte_fold. revert init. induction l as [| i l IH]; intros init Hinit; cbn [fold_left].
  - exact Hinit.
  - apply IH, f_range.
Qed.

Lemma byte_fold_agree (B B' : list Z) (l : list nat) (init : Z) :
  (forall i, In i l -> byte_at B i = byte_at B' i) ->
  byte_fold f B l init = byte_fold f B' l init.
Proof.
  unfold byte_fold. revert init. induction l as [| i l IH]; intros init Heq; cbn [fold_left].
  - reflexivity.
  - rewrite (Heq i) by (left; reflexivity). apply IH.
    intros j Hj. apply Heq. right. exact Hj.
Qed.

Lemma byte_fold_apart (B : list Z) (l : list nat) (c c' : Z) :
  Forall is_u8 B -> is_u8 c -> is_u8 c' -> c <> c' ->
  byte_fold f B l c <> byte_fold f B l c'.
Proof.
  unfold byte_fold. intros HB. revert c c'.
  induction l as [| i l IH]; intros c c' Hc Hc' Hne; cbn [fold_left].
  - exact Hne.
  - apply IH; try apply f_range.
    intros Heq. apply Hne.
    apply (f_inj_state c c' (byte_at B i)); auto using Forall_byte.
Qed.

Lemma byte_fold_detects (B B' : list Z) (k len : nat) (init : Z) :
  Forall is_u8 B -> Forall is_u8 B' -> is_u8 init ->
  (k < len)%nat -> differs_only_at k B B' ->
  byte_fold f B (seq 0 len) init <> byte_fold f B' (seq 0 len) init.
Proof.
  intros HB HB' Hinit Hk [Hdiff Hsame].
  assert (Hseq : seq 0 len = seq 0 k ++ k :: seq (S k) (len - S k)).
  { replace len with (k + S (len - S k))%nat at 1 by lia.
    rewrite seq_app. reflexivity. }
  rewrite Hseq. unfold byte_fold. rewrite !fold_left_app. cbn [fold_left].
  fold (byte_fold f B (seq 0 k) init). fold (byte_fold f B' (seq 0 k) init).
  rewrite <- (byte_fold_agree B B' (seq 0 k) init).
  2:{ intros i Hi. apply in_seq in Hi. apply Hsame. lia. }
  set (c := byte_fold f B (seq 0 k) init).
  assert (Hc : is_u8 c) by (apply byte_fold_range; exact Hinit).
  fold (byte_fold f B (seq (S k) (len - S k)) (f c (byte_at B k))).
  fold (byte_fold f B' (seq (S k) (len - S k)) (f c (byte_at B' k))).
  rewrite (byte_fold_agree B B' (seq (S k) (len - S k))).
  2:{ intros i Hi. apply in_seq in Hi. apply Hsame. lia. }
  apply byte_fold_apart; try apply f_range; try exact HB'.
  intros Heq. apply Hdiff.
  apply (f_inj_byte c); auto using Forall_byte.
Qed.

End ByteFold.

Lemma lxor_u8 (a b : Z) : is_u8 a -> is_u8 b -> is_u8 (Z.lxor a b).
Proof.
  unfold is_u8. intros Ha Hb.
  assert (Hnn : 0 <= Z.lxor a b) by (apply Z.lxor_nonneg; lia).
  split; [exact Hnn |].
  destruct (Z.eq_dec (Z.lxor a b) 0) as [-> | Hnz]; [lia |].
  change 256 with (2 ^ 8). apply (proj2 (Z.log2_lt_pow2 (Z.lxor a b) 8 ltac:(lia))).
  pose proof (Z.log2_lxor a b ltac:(lia) ltac:(lia)) as Hlog.
  assert (Hla : Z.log2 a < 8).
  { destruct (Z.eq_dec a 0) as [-> | Hz]; [cbn; lia |].
    apply (proj1 (Z.log2_lt_pow2 a 8 ltac:(lia))). change (2 ^ 8) with 256. lia. }
  assert (Hlb : Z.log2 b < 8).
  { destruct (Z.eq_dec b 0) as [-> | Hz]; [cbn; lia |].
    apply (proj1 (Z.log2_lt_pow2 b 8 ltac:(lia))). change (2 ^ 8) with 256. lia. }
  lia.
Qed.

Lemma lxor_cancel_r (a a' b : Z) : Z.lxor a b = Z.lxor a' b -> a = a'.
Proof.
  intros H.
  assert (Hinv : forall x, Z.lxor (Z.lxor x b) b = x).
  { intros x. rewrite Z.lxor_assoc, Z.lxor_nilpotent. apply Z.lxor_0_r. }
  rewrite <- (Hinv a), H. apply Hinv.
Qed.

Lemma lxor_cancel_l (a b b' : Z) : Z.lxor a b = Z.lxor a b' -> b = b'.
Proof. rewrite !(Z.lxor_comm a). apply lxor_cancel_r. Qed.

Lemma crc8_shift_range (poly c : Z) : is_u8 (crc8_shift poly c).
Proof. unfold crc8_shift. destruct (_ =? _); apply u8_range. Qed.

Lemma crc8_byte_inj (poly : Z) (c c' : Z) :
  crc8_byte_invertible poly = true ->
  is_u8 c -> is_u8 c' ->
  Nat.iter 8 (crc8_shift poly) c = Nat.iter 8 (crc8_shift poly) c' -> c = c'.
Proof.
  intros H Hc Hc' Heq. unfold crc8_byte_invertible in H.
  pose proof (forallb_range _ 256 H c Hc) as H1.
  pose proof (forallb_range _ 256 H c' Hc') as H2.
  cbv beta in H1, H2. apply Z.eqb_eq in H1, H2.
  rewrite <- H1, <- H2, Heq. reflexivity.
Qed.

Lemma u8_small (x : Z) : is_u8 x -> u8 x = x.
Proof. intros H. unfold u8, wrap. apply Z.mod_small. exact H. Qed.

Lemma crc8_loop_fold (poly init : Z) (B : list Z) (len : nat) :
  crc8_loop poly init B len
  = byte_fold (fun c b => Nat.iter 8 (crc8_shift poly) (u8 (Z.lxor c b)))
              B (seq 0 len) init.
Proof. reflexivity. Qed.

(** A CRC-8 over [len] bytes changes when one of these bytes changes. *)
Lemma crc8_loop_detects (poly init : Z) (B B' : list Z) (k len : nat) :
  crc8_byte_invertible poly = true ->
  Forall is_u8 B -> Forall is_u8 B' -> is_u8 init ->
  (k < len)%nat -> differs_only_at k B B' ->
  crc8_loop poly init B len <> crc8_loop poly init B' len.
Proof.
  intros Hpoly HB HB' Hinit Hk Hdiff. rewrite !crc8_loop_fold.
  apply (byte_fold_detects
           (fun c b => Nat.iter 8 (crc8_shift poly) (u8 (Z.lxor c b)))) with (k := k);
    try assumption.
  - intros c b. cbn [Nat.iter]. apply crc8_shift_range.
  - intros c c' b Hc Hc' Hb Heq.
    apply (crc8_byte_inj poly) in Heq; try exact Hpoly; try apply u8_range.
    rewrite !u8_small in Heq by (apply lxor_u8; assumption).
    apply (lxor_cancel_r _ _ _ Heq).
  - intros c b b' Hc Hb Hb' Heq.
    apply (crc8_byte_inj poly) in Heq; try exact Hpoly; try apply u8_range.
    rewrite !u8_small in Heq by (apply lxor_u8; assumption).
    apply (lxor_cancel_l _ _ _ Heq).
Qed.

Lemma crc8_loop_range (poly init : Z) (B : list Z) (len : nat) :
  is_u8 init -> is_u8 (crc8_loop poly init B len).
Proof.
  intros Hinit. rewrite crc8_loop_fold.
  apply (byte_fold_range (fun c b => Nat.iter 8 (crc8_shift poly) (u8 (Z.lxor c b)))).
  - intros c b. cbn [Nat.iter]. apply crc8_shift_range.
  - exact Hinit.
Qed.

(** A check byte compared with a CRC-8 over the [len] bytes before it. *)
Lemma crc8_check_detects (poly init : Z) (B B' : list Z) (k len : nat) :
  crc8_byte_invertible poly = true ->
  Forall is_u8 B -> Forall is_u8 B' -> is_u8 init ->
  (k < S len)%nat -> differs_only_at k B B' ->
  (crc8_loop poly init B len =? byte_at B len) = true ->
  (crc8_loop poly init B' len =? byte_at B' len) = false.
Proof.
  intros Hpoly HB HB' Hinit Hk Hdiff Hvalid.
  apply Z.eqb_eq in Hvalid. apply Z.eqb_neq.
  destruct (Nat.eq_dec k len) as [-> | Hne].
  - destruct Hdiff as [Hbyte Hsame].
    assert (Hcrc : crc8_loop poly init B len = crc8_loop poly init B' len).
    { rewrite !crc8_loop_fold.
      apply (byte_fold_agree (fun c b => Nat.iter 8 (crc8_shift poly) (u8 (Z.lxor c b)))).
      intros i Hi. apply in_seq in Hi. apply Hsame. lia. }
    congruence.
  - assert (Hcrc := crc8_loop_detects poly init B B' k len Hpoly HB HB' Hinit
                      ltac:(lia) Hdiff).
    destruct Hdiff as [_ Hsame]. rewrite <- (Hsame len) by auto. congruence.
Qed.

Lemma ford_checksum_fold (B : list Z) :
  Ford.tpms_protocol_ford_check_checksum B
  = (Z.land (byte_fold (fun c b => u8 (c + b)) B (seq 0 7) 0) 0xff =? byte_at B 7).
Proof.
  unfold Ford.tpms_protocol_ford_check_checksum, byte_fold. cbv beta zeta. reflexivity.
Qed.

Lemma ford_checksum_detects (B B' : list Z) (k : nat) :
  Forall is_u8 B -> Forall is_u8 B' ->
  (k < 8)%nat -> differs_only_at k B B' ->
  Ford.tpms_protocol_ford_check_checksum B = true ->
  Ford.tpms_protocol_ford_check_checksum B' = false.
Proof.
  intros HB HB' Hk Hdiff. rewrite !ford_checksum_fold.
  set (f := fun c b => u8 (c + b)).
  assert (Hrange : forall c b, is_u8 (f c b)) by (intros; apply u8_range).
  assert (H0 : is_u8 0) by (unfold is_u8; lia).
  pose proof (byte_fold_range f Hrange B (seq 0 7) 0 H0) as HrB.
  pose proof (byte_fold_range f Hrange B' (seq 0 7) 0 H0) as HrB'.
  rewrite !land_ff_mod.
  rewrite (Z.mod_small (byte_fold f B (seq 0 7) 0)) by exact HrB.
  rewrite (Z.mod_small (byte_fold f B' (seq 0 7) 0)) by exact HrB'.
  intros Hvalid. apply Z.eqb_eq in Hvalid. apply Z.eqb_neq.
  destruct (Nat.eq_dec k 7) as [-> | Hne].
  - destruct Hdiff as [Hbyte Hsame].
    rewrite <- (byte_fold_agree f B B' (seq 0 7) 0).
    + congruence.
    + intros i Hi. apply in_seq in Hi. apply Hsame. lia.
  - assert (Hsum : byte_fold f B (seq 0 7) 0 <> byte_fold f B' (seq 0 7) 0).
    { apply (byte_fold_detects f Hrange) with (k := k); try assumption; try lia.
      - intros c c' b Hc Hc' Hb. unfold f, is_u8, u8, wrap in *.
        intros Heq. Z.div_mod_to_equations. lia.
      - intros c b b' Hc Hb Hb'. unfold f, is_u8, u8, wrap in *.
        intros Heq. Z.div_mod_to_equations. lia. }
    destruct Hdiff as [_ Hsame]. rewrite <- (Hsame 7%nat) by auto. congruence.
Qed.

(** X4.  Every validator detects a single-byte error: a frame that passes
    stops passing when exactly one of the bytes the validator reads is
    replaced by a different byte. *)
Theorem single_byte_error_detected (p : TPMSProtocol) (B B' : list Z) (k : nat) :
  Forall is_u8 B -> Forall is_u8 B' ->
  (k < checked_length p)%nat ->
  differs_only_at k B B' ->
  validate (protocol_decoder p) B = true ->
  validate (protocol_decoder p) B' = false.
Proof.
  intros HB HB' Hk Hdiff.
  assert (H31 : crc8_byte_invertible 0x31 = true) by (vm_compute; reflexivity).
  assert (H07 : crc8_byte_invertible 0x07 = true) by (vm_compute; reflexivity).
  destruct p; cbn [protocol_decoder validate checked_length
                   tpms_protocol_toyota_decoder tpms_protocol_ford_decoder
                   tpms_protocol_gm_decoder tpms_protocol_nissan_decoder
                   tpms_protocol_hyundai_decoder] in *.
  - unfold Toyota.tpms_protocol_toyota_check_crc, subghz_protocol_blocks_crc8. cbv zeta.
    apply crc8_check_detects with (k := k); try assumption. unfold is_u8; lia.
  - apply ford_checksum_detects with (k := k); assumption.
  - unfold GM.tpms_protocol_gm_check_crc, GM.gm_crc8. cbv zeta.
    apply crc8_check_detects with (k := k); try assumption. unfold is_u8; lia.
  - unfold Nissan.tpms_protocol_nissan_check_crc, Nissan.nissan_crc8. cbv zeta.
    apply crc8_check_detects with (k := k); try assumption. unfold is_u8; lia.
  - unfold Hyundai.tpms_protocol_hyundai_check_crc, Hyundai.hyundai_crc8. cbv zeta.
    apply crc8_check_detects with (k := k); try assumption. unfold is_u8; lia.
Qed.

Lemma single_byte_error_detected_witness :
  let B' := [0x00; 0xAB; 0xBB; 0x57; 0x32; 0x50; 0x00; 0x9B; 0x00] in
  validate (protocol_decoder TPMSToyota) toyota_good_frame = true
  /\ validate (protocol_decoder TPMSToyota) B' = false.
Proof.
  intros B'. split; [vm_compute; reflexivity |].
  apply (single_byte_error_detected TPMSToyota toyota_good_frame B' 1).
  - unfold toyota_good_frame, is_u8. repeat constructor; lia.
  - unfold B', is_u8. repeat constructor; lia.
  - cbn [checked_length]. lia.
  - split.
    + vm_compute. discriminate.
    + intros i Hi. destruct i as [| [| i]]; [reflexivity | contradiction Hi; reflexivity |].
      reflexivity.
  - vm_compute. reflexivity.
Defined.

(** ** The analysis functions *)

(** Splits a conjunction into its parts, and nothing else. *)
Ltac conj_split := repeat match goal with |- _ /\ _ => split end.

Lemma byte_cases (P : Z -> bool) :
  forallb P (map Z.of_nat (seq 0 256)) = true ->
  forall x, is_u8 x -> P x = true.
Proof. intros H x Hx. exact (forallb_range P 256 H x Hx). Qed.


Lemma bit6_flag (x : Z) : is_u8 x -> (Z.land x 0x40 =? 0x40) = Z.testbit x 6.
Proof.
  intros Hx. apply Bool.eqb_prop.
  apply (byte_cases (fun x => Bool.eqb (Z.land x 0x40 =? 0x40) (Z.testbit x 6)));
    [vm_compute; reflexivity | exact Hx].
Qed.

Lemma bit7_flag (x : Z) : is_u8 x -> (Z.land x 0x80 =? 0x80) = Z.testbit x 7.
Proof.
  intros Hx. apply Bool.eqb_prop.
  apply (byte_cases (fun x => Bool.eqb (Z.land x 0x80 =? 0x80) (Z.testbit x 7)));
    [vm_compute; reflexivity | exact Hx].
Qed.

Lemma literal_quarter : Float32.literal 25 100 = S754_finite false 8388608 (-25).
Proof. vm_compute. reflexivity. Qed.

Lemma literal_hundredth : Float32.literal 1 100 = S754_finite false 10737418 (-30).
Proof. vm_compute. reflexivity. Qed.

Lemma lor_byte_below (acc b k : Z) :
  0 <= k -> is_u8 b -> acc mod 2 ^ (k + 8) = 0 ->
  Z.lor acc (b * 2 ^ k) = acc + b * 2 ^ k.
Proof.
  intros Hk Hb Hacc. unfold is_u8 in Hb.
  assert (Hpow : 2 ^ (k + 8) = 2 ^ k * 256) by (rewrite Z.pow_add_r by lia; reflexivity).
  assert (Hpos : 0 < 2 ^ k) by (apply Z.pow_pos_nonneg; lia).
  assert (Hq : acc = acc / 2 ^ (k + 8) * 2 ^ (k + 8)).
  { rewrite (Z.div_mod acc (2 ^ (k + 8))) at 1 by lia. lia. }
  rewrite Hq. set (q := acc / 2 ^ (k + 8)).
  rewrite <- (lor_shiftl_add q (b * 2 ^ k) (k + 8)).
  - rewrite Z.shiftl_mul_pow2 by lia. reflexivity.
  - lia.
  - rewrite Hpow. nia.
Qed.

Lemma u64_shiftl_byte (b k : Z) :
  is_u8 b -> 0 <= k <= 56 -> u64 (Z.shiftl b k) = b * 2 ^ k.
Proof.
  intros Hb Hk. unfold is_u8 in Hb. unfold u64, wrap.
  rewrite Z.shiftl_mul_pow2 by lia. apply Z.mod_small.
  assert (H : 2 ^ k <= 2 ^ 56) by (apply Z.pow_le_mono_r; lia).
  assert (Hpos : 0 < 2 ^ k) by (apply Z.pow_pos_nonneg; lia).
  change (2 ^ 64) with (256 * 2 ^ 56). nia.
Qed.

(** The eight bytes stored in [data], most significant first. *)
Lemma be_word (b0 b1 b2 b3 b4 b5 b6 b7 : Z) :
  Forall is_u8 [b0; b1; b2; b3; b4; b5; b6; b7] ->
  Z.lor (Z.lor (Z.lor (Z.lor (Z.lor (Z.lor (Z.lor
    (u64 (Z.shiftl b0 56)) (u64 (Z.shiftl b1 48))) (u64 (Z.shiftl b2 40)))
    (u64 (Z.shiftl b3 32))) (u64 (Z.shiftl b4 24))) (u64 (Z.shiftl b5 16)))
    (u64 (Z.shiftl b6 8))) b7
  = be_value [b0; b1; b2; b3; b4; b5; b6; b7].
Proof.
  intros HB.
  repeat match goal with
         | H : Forall _ (_ :: _) |- _ => inversion H; subst; clear H
         end.
  rewrite !u64_shiftl_byte by (assumption || lia).
  replace b7 with (b7 * 2 ^ 0) at 1 by lia.
  unfold is_u8 in *.
  rewrite (lor_byte_below _ b1 48) by (unfold is_u8; try lia; Z.div_mod_to_equations; lia).
  rewrite (lor_byte_below _ b2 40) by (unfold is_u8; try lia; Z.div_mod_to_equations; lia).
  rewrite (lor_byte_below _ b3 32) by (unfold is_u8; try lia; Z.div_mod_to_equations; lia).
  rewrite (lor_byte_below _ b4 24) by (unfold is_u8; try lia; Z.div_mod_to_equations; lia).
  rewrite (lor_byte_below _ b5 16) by (unfold is_u8; try lia; Z.div_mod_to_equations; lia).
  rewrite (lor_byte_below _ b6 8) by (unfold is_u8; try lia; Z.div_mod_to_equations; lia).
  rewrite (lor_byte_below _ b7 0) by (unfold is_u8; try lia; Z.div_mod_to_equations; lia).
  cbv [be_value fold_left]. lia.
Qed.

Lemma pack64_be_value (B : list Z) :
  Forall is_u8 B -> (8 <= List.length B)%nat -> pack64 B = be_value (firstn 8 B).
Proof.
  intros HB Hlen.
  do 8 (destruct B as [| ? B]; [cbn [List.length] in Hlen; lia |]).
  unfold pack64. cbn [byte_at nth firstn].
  apply be_word.
  repeat match goal with
         | H : Forall _ (_ :: _) |- _ => inversion H; subst; clear H
         end.
  repeat (apply Forall_cons; [assumption |]). apply Forall_nil.
Qed.

Lemma gm_pressure_accuracy (raw : Z) :
  is_u8 raw ->
  close_to (gm_pressure_bar raw) (gm_pressure_spec raw) (1 # 1000000) = true
  /\ float_negative (gm_pressure_bar raw) = (raw <? 50).
Proof.
  intros Hraw.
  assert (H : close_to (gm_pressure_bar raw) (gm_pressure_spec raw) (1 # 1000000)
              && Bool.eqb (float_negative (gm_pressure_bar raw)) (raw <? 50) = true).
  { apply (byte_cases
             (fun raw =>
                close_to (gm_pressure_bar raw) (gm_pressure_spec raw) (1 # 1000000)
                && Bool.eqb (float_negative (gm_pressure_bar raw)) (raw <? 50)));
      [vm_compute; reflexivity | exact Hraw]. }
  apply andb_prop in H. destruct H as [H1 H2].
  split; [exact H1 | apply Bool.eqb_prop; exact H2].
Qed.

Lemma offset_temperature_exact (offset raw : Z) :
  offset = 40 \/ offset = 50 ->
  is_u8 raw ->
  float_is_int (Float32.sub (Float32.of_int raw) (Float32.of_int offset)) (raw - offset)
  = true.
Proof.
  intros [-> | ->] Hraw.
  - apply (byte_cases
             (fun raw => float_is_int (Float32.sub (Float32.of_int raw) (Float32.of_int 40))
                                      (raw - 40)));
      [vm_compute; reflexivity | exact Hraw].
  - apply (byte_cases
             (fun raw => float_is_int (Float32.sub (Float32.of_int raw) (Float32.of_int 50))
                                      (raw - 50)));
      [vm_compute; reflexivity | exact Hraw].
Qed.

(** What a passed check says of the check byte. *)
Lemma gm_check_crc_byte (B : list Z) :
  GM.tpms_protocol_gm_check_crc B = true -> GM.gm_crc8 B 8 = byte_at B 8.
Proof.
  unfold GM.tpms_protocol_gm_check_crc. cbv zeta. intros H. apply Z.eqb_eq. exact H.
Qed.

Lemma hyundai_check_crc_byte (B : list Z) :
  Hyundai.tpms_protocol_hyundai_check_crc B = true ->
  Hyundai.hyundai_crc8 B 9 = byte_at B 9.
Proof.
  unfold Hyundai.tpms_protocol_hyundai_check_crc. cbv zeta. intros H.
  apply Z.eqb_eq. exact H.
Qed.

Lemma nissan_check_crc_byte (B : list Z) :
  Nissan.tpms_protocol_nissan_check_crc B = true -> Nissan.nissan_crc8 B 8 = byte_at B 8.
Proof.
  unfold Nissan.tpms_protocol_nissan_check_crc. cbv zeta. intros H.
  apply Z.eqb_eq. exact H.
Qed.

(** X5.  The fields a GM frame is analysed into.  The id is the big-endian
    value of bytes 2-5; the pressure is (byte 7 - 50) / 100 bar to within
    1e-6, and negative exactly when byte 7 is below 50; the temperature is
    the integer byte 8 - 40; the battery flag is bit 6 of byte 6.  Byte 8 is
    also the byte [tpms_protocol_gm_check_crc] compares with the CRC, so the
    temperature of a frame that passes is the CRC of its first eight bytes
    less 40. *)
Theorem gm_analyze_fields (g : Generic.t) (B : list Z) :
  frame_ok 9 B ->
  let r := GM.tpms_protocol_gm_analyze g B in
  Generic.id r = be32 (byte_at B 2) (byte_at B 3) (byte_at B 4) (byte_at B 5)
  /\ Generic.pressure r = gm_pressure_bar (byte_at B 7)
  /\ close_to (Generic.pressure r) (gm_pressure_spec (byte_at B 7)) (1 # 1000000) = true
  /\ float_negative (Generic.pressure r) = (byte_at B 7 <? 50)
  /\ float_is_int (Generic.temperature r) (byte_at B 8 - 40) = true
  /\ (GM.tpms_protocol_gm_check_crc B = true ->
      float_is_int (Generic.temperature r) (GM.gm_crc8 B 8 - 40) = true)
  /\ Generic.battery_low r = Z.b2z (Z.testbit (byte_at B 6) 6)
  /\ Generic.data_count_bit r = 72
  /\ Generic.protocol_name r = Generic.protocol_name g.
Proof.
  intros HB r.
  assert (Hbyte : forall i, is_u8 (byte_at B i)) by (intros i; exact (frame_ok_byte 9 B i HB)).
  destruct (gm_pressure_accuracy (byte_at B 7) (Hbyte 7%nat)) as [Hclose Hneg].
  assert (Hp : Generic.pressure r = gm_pressure_bar (byte_at B 7)).
  { unfold r, GM.tpms_protocol_gm_analyze, gm_pressure_bar. cbn [Generic.pressure].
    reflexivity. }
  assert (Htemp : float_is_int (Generic.temperature r) (byte_at B 8 - 40) = true).
  { unfold r, GM.tpms_protocol_gm_analyze. cbn [Generic.temperature].
    apply offset_temperature_exact; [left; reflexivity | apply Hbyte]. }
  conj_split.
  - unfold r, GM.tpms_protocol_gm_analyze. cbn [Generic.id].
    apply pack32_be32; apply Hbyte.
  - exact Hp.
  - rewrite Hp. exact Hclose.
  - rewrite Hp. exact Hneg.
  - exact Htemp.
  - intros Hcrc. rewrite (gm_check_crc_byte B Hcrc). exact Htemp.
  - unfold r, GM.tpms_protocol_gm_analyze. cbn [Generic.battery_low].
    rewrite bit6_flag by apply Hbyte. reflexivity.
  - reflexivity.
  - reflexivity.
Qed.

Lemma gm_analyze_fields_witness :
  let B := [0x55; 0x5D; 0x01; 0x02; 0x03; 0x04; 0x40; 0x96; 0x3C] in
  let r := GM.tpms_protocol_gm_analyze (zero_reading "GM") B in
  Generic.id r = 0x01020304
  /\ close_to (Generic.pressure r) (gm_pressure_spec 150) (1 # 1000000) = true
  /\ float_is_int (Generic.temperature r) (60 - 40) = true
  /\ Generic.battery_low r = 1.
Proof.
  intros B r.
  assert (HB : frame_ok 9 B).
  { split; [reflexivity |]. unfold is_u8. repeat constructor; lia. }
  destruct (gm_analyze_fields (zero_reading "GM") B HB)
    as (Hid & _ & Hp & _ & Ht & _ & Hb & _).
  conj_split; [exact Hid | exact Hp | exact Ht | exact Hb].
Defined.

Lemma hyundai_pressure_accuracy (raw : Z) :
  is_u8 raw ->
  close_to (hyundai_pressure_bar raw) (hyundai_pressure_spec raw) (1 # 1000000) = true
  /\ float_negative (hyundai_pressure_bar raw) = false.
Proof.
  intros Hraw.
  assert (H : close_to (hyundai_pressure_bar raw) (hyundai_pressure_spec raw) (1 # 1000000)
              && negb (float_negative (hyundai_pressure_bar raw)) = true).
  { apply (byte_cases
             (fun raw =>
                close_to (hyundai_pressure_bar raw) (hyundai_pressure_spec raw)
                         (1 # 1000000)
                && negb (float_negative (hyundai_pressure_bar raw))));
      [vm_compute; reflexivity | exact Hraw]. }
  apply andb_prop in H. destruct H as [H1 H2].
  split; [exact H1 | apply negb_true_iff; exact H2].
Qed.

(** X6.  The fields a Hyundai frame is analysed into.  The id is the
    big-endian value of bytes 3-6; the pressure is max(0, byte 8 - 40) / 100
    bar to within 1e-6 and never negative; the temperature is the integer
    byte 9 - 50, and byte 9 is the byte the CRC check compares, so for a frame
    that passes it is the CRC of the first nine bytes less 50; the battery
    flag is bit 6 of byte 7.  The stored raw data are bytes 0-7: they hold
    neither the pressure byte nor the temperature byte. *)
Theorem hyundai_analyze_fields (g : Generic.t) (B : list Z) :
  frame_ok 10 B ->
  let r := Hyundai.tpms_protocol_hyundai_analyze g B in
  Generic.id r = be32 (byte_at B 3) (byte_at B 4) (byte_at B 5) (byte_at B 6)
  /\ Generic.pressure r = hyundai_pressure_bar (byte_at B 8)
  /\ close_to (Generic.pressure r) (hyundai_pressure_spec (byte_at B 8)) (1 # 1000000)
     = true
  /\ float_negative (Generic.pressure r) = false
  /\ float_is_int (Generic.temperature r) (byte_at B 9 - 50) = true
  /\ (Hyundai.tpms_protocol_hyundai_check_crc B = true ->
      float_is_int (Generic.temperature r) (Hyundai.hyundai_crc8 B 9 - 50) = true)
  /\ Generic.battery_low r = Z.b2z (Z.testbit (byte_at B 7) 6)
  /\ Generic.data r = be_value (firstn 8 B)
  /\ Generic.data_count_bit r = 80.
Proof.
  intros HB r.
  assert (Hbyte : forall i, is_u8 (byte_at B i)) by (intros i; exact (frame_ok_byte 10 B i HB)).
  destruct (hyundai_pressure_accuracy (byte_at B 8) (Hbyte 8%nat)) as [Hclose Hneg].
  assert (Hp : Generic.pressure r = hyundai_pressure_bar (byte_at B 8)).
  { unfold r, Hyundai.tpms_protocol_hyundai_analyze, hyundai_pressure_bar.
    cbn [Generic.pressure]. reflexivity. }
  assert (Htemp : float_is_int (Generic.temperature r) (byte_at B 9 - 50) = true).
  { unfold r, Hyundai.tpms_protocol_hyundai_analyze. cbn [Generic.temperature].
    apply offset_temperature_exact; [right; reflexivity | apply Hbyte]. }
  conj_split.
  - unfold r, Hyundai.tpms_protocol_hyundai_analyze. cbn [Generic.id].
    apply pack32_be32; apply Hbyte.
  - exact Hp.
  - rewrite Hp. exact Hclose.
  - rewrite Hp. exact Hneg.
  - exact Htemp.
  - intros Hcrc. rewrite (hyundai_check_crc_byte B Hcrc). exact Htemp.
  - unfold r, Hyundai.tpms_protocol_hyundai_analyze. cbn [Generic.battery_low].
    rewrite bit6_flag by apply Hbyte. reflexivity.
  - unfold r, Hyundai.tpms_protocol_hyundai_analyze. cbn [Generic.data].
    destruct HB as [Hlen HB].
    rewrite <- pack64_be_value by (exact HB || lia).
    unfold pack_raw, pack64. cbn [seq fold_left].
    rewrite Z.lor_0_l.
    change ((7 - Z.of_nat 0) * 8) with 56. change ((7 - Z.of_nat 1) * 8) with 48.
    change ((7 - Z.of_nat 2) * 8) with 40. change ((7 - Z.of_nat 3) * 8) with 32.
    change ((7 - Z.of_nat 4) * 8) with 24. change ((7 - Z.of_nat 5) * 8) with 16.
    change ((7 - Z.of_nat 6) * 8) with 8. change ((7 - Z.of_nat 7) * 8) with 0.
    rewrite (u64_shiftl_byte (byte_at B 7) 0) by (apply Hbyte || lia).
    change (2 ^ 0) with 1. rewrite Z.mul_1_r. reflexivity.
  - reflexivity.
Qed.

Lemma hyundai_analyze_fields_witness :
  let B := [0x55; 0x55; 0x56; 0x01; 0x02; 0x03; 0x04; 0x00; 0x10; 0x46] in
  let r := Hyundai.tpms_protocol_hyundai_analyze (zero_reading "Hyundai") B in
  Generic.id r = 0x01020304
  /\ close_to (Generic.pressure r) (hyundai_pressure_spec 16) (1 # 1000000) = true
  /\ float_is_int (Generic.temperature r) (70 - 50) = true
  /\ Generic.data r = 0x5555560102030400.
Proof.
  intros B r.
  assert (HB : frame_ok 10 B).
  { split; [reflexivity |]. unfold is_u8. repeat constructor; lia. }
  destruct (hyundai_analyze_fields (zero_reading "Hyundai") B HB)
    as (Hid & _ & Hp & _ & Ht & _ & _ & Hd & _).
  conj_split; [exact Hid | exact Hp | exact Ht | exact Hd].
Defined.

Lemma word_cases (P : Z -> bool) :
  (let bytes := map Z.of_nat (seq 0 256) in
   forallb (fun hi => forallb (fun lo => P (256 * hi + lo)) bytes) bytes) = true ->
  forall x, 0 <= x < 65536 -> P x = true.
Proof.
  intros H x Hx. cbv zeta in H.
  rewrite (Z.div_mod x 256) by lia.
  assert (Hhi : is_u8 (x / 256)) by (unfold is_u8; Z.div_mod_to_equations; lia).
  assert (Hlo : is_u8 (x mod 256)) by (unfold is_u8; Z.div_mod_to_equations; lia).
  pose proof (byte_cases _ H (x / 256) Hhi) as H1. cbv beta in H1.
  exact (byte_cases _ H1 (x mod 256) Hlo).
Qed.

Lemma nissan_raw16_spec (B : list Z) :
  Forall is_u8 B ->
  Z.lor (u16 (Z.shiftl (byte_at B 5) 8)) (byte_at B 6) = nissan_raw16 B.
Proof.
  intros HB. unfold nissan_raw16.
  pose proof (Forall_byte B 5 HB) as H5. pose proof (Forall_byte B 6 HB) as H6.
  unfold is_u8 in H5, H6.
  assert (Hu : u16 (Z.shiftl (byte_at B 5) 8) = Z.shiftl (byte_at B 5) 8).
  { unfold u16, wrap. apply Z.mod_small. rewrite Z.shiftl_mul_pow2 by lia.
    change (2 ^ 8) with 256. change (2 ^ 16) with 65536. lia. }
  rewrite Hu, lor_shiftl_add by (try lia; change (2 ^ 8) with 256; lia).
  change (2 ^ 8) with 256. lia.
Qed.

Lemma nissan_raw16_range (B : list Z) : Forall is_u8 B -> 0 <= nissan_raw16 B < 65536.
Proof.
  intros HB. unfold nissan_raw16.
  pose proof (Forall_byte B 5 HB) as H5. pose proof (Forall_byte B 6 HB) as H6.
  unfold is_u8 in *. lia.
Qed.

(** The product by 0.25 is exact; the product by 0.01 that follows is rounded
    once more, and a raw value of 65535 is about 164 bar. *)
Lemma nissan_pressure_accuracy (raw : Z) :
  0 <= raw < 65536 ->
  close_to (nissan_pressure_kpa raw) (inject_Z raw * (1 # 4)) 0 = true
  /\ close_to (nissan_pressure_bar raw) (nissan_pressure_spec raw) (1 # 50000) = true.
Proof.
  intros Hraw. apply andb_prop.
  unfold nissan_pressure_bar, nissan_pressure_kpa.
  rewrite literal_quarter, literal_hundredth.
  apply (word_cases
           (fun raw =>
              (fun kpa =>
                 close_to kpa (inject_Z raw * (1 # 4)) 0
                 && close_to (Float32.mul kpa (S754_finite false 10737418 (-30)))
                             (nissan_pressure_spec raw) (1 # 50000))
                (Float32.mul (Float32.of_int raw) (S754_finite false 8388608 (-25)))));
    [vm_compute; reflexivity | exact Hraw].
Qed.

(** X7.  The fields a Nissan frame is analysed into.  The id is the
    big-endian value of bytes 1-4; the raw pressure is the 16-bit big-endian
    value of bytes 5-6, exactly a quarter of which is the pressure in kPa, and
    the stored pressure is raw / 400 bar to within 2e-5; the temperature is
    the integer byte 7 - 40.  The battery flag is bit 7 of byte 8, the byte
    the CRC check compares: for a frame that passes it is the top bit of the
    CRC of the first eight bytes. *)
Theorem nissan_analyze_fields (g : Generic.t) (B : list Z) :
  frame_ok 9 B ->
  let r := Nissan.tpms_protocol_nissan_analyze g B in
  Generic.id r = be32 (byte_at B 1) (byte_at B 2) (byte_at B 3) (byte_at B 4)
  /\ Generic.pressure r = nissan_pressure_bar (nissan_raw16 B)
  /\ close_to (nissan_pressure_kpa (nissan_raw16 B)) (inject_Z (nissan_raw16 B) * (1 # 4)) 0
     = true
  /\ close_to (Generic.pressure r) (nissan_pressure_spec (nissan_raw16 B)) (1 # 50000)
     = true
  /\ float_is_int (Generic.temperature r) (byte_at B 7 - 40) = true
  /\ Generic.battery_low r = Z.b2z (Z.testbit (byte_at B 8) 7)
  /\ (Nissan.tpms_protocol_nissan_check_crc B = true ->
      Generic.battery_low r = Z.b2z (Z.testbit (Nissan.nissan_crc8 B 8) 7))
  /\ Generic.data_count_bit r = 72.
Proof.
  intros HB r.
  assert (Hbyte : forall i, is_u8 (byte_at B i)) by (intros i; exact (frame_ok_byte 9 B i HB)).
  destruct HB as [_ HB].
  destruct (nissan_pressure_accuracy (nissan_raw16 B) (nissan_raw16_range B HB))
    as [Hkpa Hbar].
  assert (Hp : Generic.pressure r = nissan_pressure_bar (nissan_raw16 B)).
  { unfold r, Nissan.tpms_protocol_nissan_analyze. cbn [Generic.pressure].
    rewrite (nissan_raw16_spec B HB). reflexivity. }
  assert (Hbatt : Generic.battery_low r = Z.b2z (Z.testbit (byte_at B 8) 7)).
  { unfold r, Nissan.tpms_protocol_nissan_analyze. cbn [Generic.battery_low].
    rewrite bit7_flag by apply Hbyte. reflexivity. }
  conj_split.
  - unfold r, Nissan.tpms_protocol_nissan_analyze. cbn [Generic.id].
    apply pack32_be32; apply Hbyte.
  - exact Hp.
  - exact Hkpa.
  - rewrite Hp. exact Hbar.
  - unfold r, Nissan.tpms_protocol_nissan_analyze. cbn [Generic.temperature].
    apply offset_temperature_exact; [left; reflexivity | apply Hbyte].
  - exact Hbatt.
  - intros Hcrc. rewrite (nissan_check_crc_byte B Hcrc). exact Hbatt.
  - reflexivity.
Qed.

Lemma nissan_analyze_fields_witness :
  let B := [0xF5; 0x01; 0x02; 0x03; 0x04; 0x03; 0x84; 0x3C; 0x80] in
  let r := Nissan.tpms_protocol_nissan_analyze (zero_reading "Nissan") B in
  Generic.id r = 0x01020304
  /\ close_to (Generic.pressure r) (nissan_pressure_spec 900) (1 # 50000) = true
  /\ float_is_int (Generic.temperature r) (60 - 40) = true
  /\ Generic.battery_low r = 1.
Proof.
  intros B r.
  assert (HB : frame_ok 9 B).
  { split; [reflexivity |]. unfold is_u8. repeat constructor; lia. }
  destruct (nissan_analyze_fields (zero_reading "Nissan") B HB)
    as (Hid & _ & _ & Hp & Ht & Hb & _).
  conj_split; [exact Hid | exact Hp | exact Ht | exact Hb].
Defined.

Lemma straddle_spec (hi lo : Z) :
  is_u8 hi -> is_u8 lo ->
  u8 (Z.lor (Z.shiftl (Z.land hi 0x7f) 1) (Z.shiftr lo 7)) = straddle hi lo.
Proof.
  unfold is_u8, straddle. intros Hhi Hlo.
  change 0x7f with (Z.ones 7). rewrite Z.land_ones by lia.
  rewrite Z.shiftr_div_pow2 by lia.
  change (2 ^ 7) with 128.
  assert (Hq : 0 <= lo / 128 < 2) by (Z.div_mod_to_equations; lia).
  assert (Hm : 0 <= hi mod 128 < 128) by (apply Z.mod_pos_bound; lia).
  rewrite lor_shiftl_add by (try lia; change (2 ^ 1) with 2; lia).
  change (2 ^ 1) with 2.
  unfold u8, wrap. rewrite Z.mod_small by (change (2 ^ 8) with 256; lia). lia.
Qed.

Lemma straddle_range (hi lo : Z) : is_u8 hi -> is_u8 lo -> is_u8 (straddle hi lo).
Proof.
  unfold is_u8, straddle. intros Hhi Hlo. Z.div_mod_to_equations. lia.
Qed.

Lemma land_0x80 (x : Z) :
  is_u8 x -> Z.land x 0x80 = if Z.testbit x 7 then 0x80 else 0.
Proof.
  intros Hx. apply Z.eqb_eq.
  apply (byte_cases (fun x => Z.land x 0x80 =? if Z.testbit x 7 then 0x80 else 0));
    [vm_compute; reflexivity | exact Hx].
Qed.

Lemma toyota_status_bit (b4 b6 : Z) :
  is_u8 b4 -> is_u8 b6 ->
  (Z.land (u8 (Z.lor (Z.land b4 0x80) (Z.land b6 0x7f))) 0x80 =? 0)
  = negb (Z.testbit b4 7).
Proof.
  intros H4 H6. rewrite (land_0x80 b4 H4).
  destruct (Z.testbit b4 7); cbn [negb].
  - apply (byte_cases
             (fun b6 => negb (Z.land (u8 (Z.lor 0x80 (Z.land b6 0x7f))) 0x80 =? 0)))
      in H6; [| vm_compute; reflexivity].
    apply negb_true_iff. exact H6.
  - apply (byte_cases
             (fun b6 => Z.land (u8 (Z.lor 0 (Z.land b6 0x7f))) 0x80 =? 0));
      [vm_compute; reflexivity | exact H6].
Qed.

Lemma toyota_pressure2_spec (B : list Z) :
  Forall is_u8 B -> Toyota.pressure2 B = 255 - byte_at B 7.
Proof.
  intros HB. unfold Toyota.pressure2. apply Z.eqb_eq.
  apply (byte_cases (fun b => u8 (Z.lxor b 0xff) =? 255 - b));
    [vm_compute; reflexivity | apply Forall_byte; exact HB].
Qed.

Lemma toyota_pressure_accuracy (raw : Z) :
  is_u8 raw ->
  close_to (toyota_pressure_bar raw) (toyota_pressure_spec raw) (1 # 1000000) = true
  /\ float_negative (toyota_pressure_bar raw) = (raw <? 28).
Proof.
  intros Hraw.
  assert (H : close_to (toyota_pressure_bar raw) (toyota_pressure_spec raw) (1 # 1000000)
              && Bool.eqb (float_negative (toyota_pressure_bar raw)) (raw <? 28) = true).
  { apply (byte_cases
             (fun raw =>
                close_to (toyota_pressure_bar raw) (toyota_pressure_spec raw) (1 # 1000000)
                && Bool.eqb (float_negative (toyota_pressure_bar raw)) (raw <? 28)));
      [vm_compute; reflexivity | exact Hraw]. }
  apply andb_prop in H. destruct H as [H1 H2].
  split; [exact H1 | apply Bool.eqb_prop; exact H2].
Qed.

(** X8.  The fields a Toyota buffer whose two pressure copies agree is
    analysed into.  The raw pressure is the eight bits from bit 6 of byte 4 to
    bit 7 of byte 5, and equals the complement of byte 7; the stored pressure
    is (raw / 4 - 7) PSI in bar to within 1e-6, negative exactly when raw is
    below 28; the temperature is the integer made of the eight bits from bit 6
    of byte 5 to bit 7 of byte 6, less 40; the battery flag is bit 7 of
    byte 4; the raw data are bytes 0-7. *)
Theorem toyota_analyze_fields (g : Generic.t) (B : list Z) :
  Forall is_u8 B -> (8 <= List.length B)%nat ->
  Toyota.pressure1 B = Toyota.pressure2 B ->
  let r := Toyota.tpms_protocol_toyota_analyze g B in
  let raw := straddle (byte_at B 4) (byte_at B 5) in
  Generic.id r = be32 (byte_at B 0) (byte_at B 1) (byte_at B 2) (byte_at B 3)
  /\ Toyota.pressure1 B = raw
  /\ raw = 255 - byte_at B 7
  /\ Generic.pressure r = toyota_pressure_bar raw
  /\ close_to (Generic.pressure r) (toyota_pressure_spec raw) (1 # 1000000) = true
  /\ float_negative (Generic.pressure r) = (raw <? 28)
  /\ float_is_int (Generic.temperature r)
                  (straddle (byte_at B 5) (byte_at B 6) - 40) = true
  /\ Generic.battery_low r = Z.b2z (Z.testbit (byte_at B 4) 7)
  /\ Generic.data r = be_value (firstn 8 B)
  /\ Generic.data_count_bit r = 72.
Proof.
  intros HB Hlen Hmatch r raw.
  assert (Hbyte : forall i, is_u8 (byte_at B i)) by (intros i; exact (Forall_byte B i HB)).
  assert (Hp1 : Toyota.pressure1 B = raw).
  { unfold Toyota.pressure1. apply straddle_spec; apply Hbyte. }
  assert (Hif : (Toyota.pressure1 B =? Toyota.pressure2 B) = true).
  { apply Z.eqb_eq. exact Hmatch. }
  assert (Hraw : is_u8 raw) by (apply straddle_range; apply Hbyte).
  destruct (toyota_pressure_accuracy raw Hraw) as [Hclose Hneg].
  assert (Hp : Generic.pressure r = toyota_pressure_bar raw).
  { unfold r, Toyota.tpms_protocol_toyota_analyze. cbv zeta. rewrite Hif.
    cbn [negb Generic.pressure]. rewrite Hp1. reflexivity. }
  conj_split.
  - unfold r, Toyota.tpms_protocol_toyota_analyze. cbv zeta. rewrite Hif.
    cbn [negb Generic.id Generic.set_id].
    apply pack32_be32; apply Hbyte.
  - exact Hp1.
  - rewrite <- Hp1, Hmatch. apply toyota_pressure2_spec. exact HB.
  - exact Hp.
  - rewrite Hp. exact Hclose.
  - rewrite Hp. exact Hneg.
  - unfold r, Toyota.tpms_protocol_toyota_analyze. cbv zeta. rewrite Hif.
    cbn [negb Generic.temperature].
    rewrite straddle_spec by apply Hbyte.
    apply offset_temperature_exact; [left; reflexivity |].
    apply straddle_range; apply Hbyte.
  - unfold r, Toyota.tpms_protocol_toyota_analyze. cbv zeta. rewrite Hif.
    cbn [negb Generic.battery_low].
    rewrite toyota_status_bit by apply Hbyte.
    destruct (Z.testbit (byte_at B 4) 7); reflexivity.
  - unfold r, Toyota.tpms_protocol_toyota_analyze. cbv zeta. rewrite Hif.
    cbn [negb Generic.data].
    apply pack64_be_value; [exact HB | lia].
  - unfold r, Toyota.tpms_protocol_toyota_analyze. cbv zeta. rewrite Hif.
    cbn [negb Generic.data_count_bit]. reflexivity.
Qed.

Lemma toyota_analyze_fields_witness :
  let B := toyota_good_frame in
  let r := Toyota.tpms_protocol_toyota_analyze (zero_reading "Toyota") B in
  Generic.id r = 0x00AABB57
  /\ straddle (byte_at B 4) (byte_at B 5) = 100
  /\ float_is_int (Generic.temperature r)
                  (straddle (byte_at B 5) (byte_at B 6) - 40) = true
  /\ Generic.battery_low r = 0.
Proof.
  intros B r.
  assert (HB : Forall is_u8 B).
  { unfold B, toyota_good_frame, is_u8. repeat constructor; lia. }
  assert (Hlen : (8 <= List.length B)%nat) by (cbn; lia).
  assert (Hm : Toyota.pressure1 B = Toyota.pressure2 B) by reflexivity.
  destruct (toyota_analyze_fields (zero_reading "Toyota") B HB Hlen Hm)
    as (Hid & _ & Hraw & _ & _ & _ & Ht & Hb & _).
  conj_split; [exact Hid | exact Hraw | exact Ht | exact Hb].
Defined.

(** ** Text output *)

Lemma ford_data_byte3 (B : list Z) :
  frame_ok 8 B -> Z.land (Z.shiftr (pack64 B) 32) 0xFF = byte_at B 3.
Proof.
  intros [Hlen HB].
  rewrite pack64_be_value by (exact HB || lia).
  do 8 (destruct B as [| ? B]; [discriminate Hlen |]).
  destruct B; [| discriminate Hlen].
  repeat match goal with
         | H : Forall _ (_ :: _) |- _ => inversion H; subst; clear H
         end.
  rewrite shiftr_land_ff by lia.
  cbv [firstn be_value fold_left byte_at nth]. unfold is_u8 in *.
  Z.div_mod_to_equations. lia.
Qed.

Lemma ford_temperature_shown (t : Z) :
  0 <= t < 128 ->
  Float32.ltb (Float32.of_int (-999)) (Float32.sub (Float32.of_int t) (Float32.of_int 56))
  = true.
Proof.
  intros Ht.
  apply (forallb_range
           (fun t => Float32.ltb (Float32.of_int (-999))
                                 (Float32.sub (Float32.of_int t) (Float32.of_int 56)))
           128);
    [vm_compute; reflexivity | exact Ht].
Qed.

Lemma land_7f_range (x : Z) : 0 <= Z.land x 0x7f < 128.
Proof.
  change 0x7f with (Z.ones 7). rewrite Z.land_ones by lia.
  apply Z.mod_pos_bound. lia.
Qed.

(** X9.  The text output of a Ford reading.  The pressure it shows is
    computed from bits 32-39 of the stored raw data, and after the analysis
    of a frame those bits hold byte 3, the last byte of the sensor id, not
    the pressure byte 4: the raw value shown is byte 3 with bit 0x20 of the
    flags as ninth bit, and it is the raw value of the analysis exactly when
    bytes 3 and 4 are equal.  The id shown is the big-endian value of bytes
    0-3, and the temperature is shown exactly when bit 7 of byte 5 is
    clear. *)
Theorem ford_get_string_pressure (s : Ford.TPMSProtocolDecoderFord)
    (g : Generic.t) (B : list Z) :
  frame_ok 8 B ->
  Ford.generic s = Ford.tpms_protocol_ford_analyze g B ->
  let t := tpms_protocol_decoder_ford_get_string s in
  let shown := byte_at B 3 + 256 * Z.b2z (Z.testbit (byte_at B 6) 5) in
  ford_get_string_pressure_raw (Ford.generic s) = shown
  /\ ford_text_pressure_psi t = ford_pressure_psi shown
  /\ (shown = Ford.pressure_raw B <-> byte_at B 3 = byte_at B 4)
  /\ ford_text_id t = be32 (byte_at B 0) (byte_at B 1) (byte_at B 2) (byte_at B 3)
  /\ ford_text_temp_label t
     = (if Z.testbit (byte_at B 5) 7 then "Temp:N/A" else "Temp:")%string
  /\ (Z.testbit (byte_at B 5) 7 = false ->
      float_is_int (ford_text_temp t) (Z.land (byte_at B 5) 0x7F - 56) = true).
Proof.
  intros HB Hs t shown.
  assert (Hbyte : forall i, is_u8 (byte_at B i)) by (intros i; exact (frame_ok_byte 8 B i HB)).
  assert (Hraw : ford_get_string_pressure_raw (Ford.generic s) = shown).
  { rewrite Hs. unfold ford_get_string_pressure_raw, Ford.tpms_protocol_ford_analyze.
    cbn [Generic.battery_low Generic.data].
    rewrite (ford_data_byte3 B HB).
    pose proof (Hbyte 3%nat) as H3. pose proof (Hbyte 6%nat) as H6.
    rewrite (u8_small (byte_at B 6)) by exact H6.
    rewrite bit5_test by exact H6.
    assert (Hu16 : u16 (byte_at B 3) = byte_at B 3).
    { unfold u16, wrap. apply Z.mod_small. unfold is_u8 in H3. lia. }
    rewrite Hu16. unfold shown.
    destruct (Z.testbit (byte_at B 6) 5); cbn [negb Z.b2z].
    - rewrite lor_0x100 by exact H3.
      unfold u16, wrap. rewrite Z.mod_small by (unfold is_u8 in H3; lia). lia.
    - lia. }
  assert (Htemp : Generic.temperature (Ford.generic s)
                  = if Z.testbit (byte_at B 5) 7 then Float32.of_int (-1000)
                    else Float32.sub (Float32.of_int (Z.land (byte_at B 5) 0x7f))
                                     (Float32.of_int 56)).
  { rewrite Hs. unfold Ford.tpms_protocol_ford_analyze. cbn [Generic.temperature].
    rewrite bit7_test by apply Hbyte.
    destruct (Z.testbit (byte_at B 5) 7); reflexivity. }
  conj_split.
  - exact Hraw.
  - unfold t, tpms_protocol_decoder_ford_get_string. cbn [ford_text_pressure_psi].
    rewrite Hraw. reflexivity.
  - rewrite (ford_pressure_raw_spec B HB). unfold shown, raw9bit. lia.
  - unfold t, tpms_protocol_decoder_ford_get_string. cbn [ford_text_id].
    rewrite Hs. unfold Ford.tpms_protocol_ford_analyze. cbn [Generic.id].
    apply pack32_be32; apply Hbyte.
  - unfold t, tpms_protocol_decoder_ford_get_string. cbn [ford_text_temp_label].
    rewrite Htemp.
    destruct (Z.testbit (byte_at B 5) 7).
    + reflexivity.
    + rewrite ford_temperature_shown by apply land_7f_range. reflexivity.
  - intros H7.
    unfold t, tpms_protocol_decoder_ford_get_string. cbn [ford_text_temp].
    rewrite Htemp, H7.
    rewrite ford_temperature_shown by apply land_7f_range.
    apply ford_temperature_exact. apply land_7f_range.
Qed.

Lemma ford_get_string_pressure_witness :
  let B := [0x12; 0x34; 0x56; 0x78; 0x64; 0x50; 0x00; 0xC8] in
  let g := Ford.tpms_protocol_ford_analyze (zero_reading "Ford TPMS") B in
  let s := Ford.set_generic ford_start g in
  Ford.pressure_raw B = 0x64
  /\ ford_get_string_pressure_raw (Ford.generic s) = 0x78
  /\ ford_text_id (tpms_protocol_decoder_ford_get_string s) = 0x12345678.
Proof.
  intros B g s.
  assert (HB : frame_ok 8 B).
  { split; [reflexivity |]. unfold is_u8. repeat constructor; lia. }
  assert (Hs : Ford.generic s = Ford.tpms_protocol_ford_analyze (zero_reading "Ford TPMS") B)
    by reflexivity.
  destruct (ford_get_string_pressure s (zero_reading "Ford TPMS") B HB Hs)
    as (Hraw & _ & _ & Hid & _).
  conj_split; [reflexivity | exact Hraw | exact Hid].
Defined.

Lemma gm_kpa_shown (raw : Z) :
  is_u8 raw ->
  close_to (Float32.mul (gm_pressure_bar raw) (Float32.of_int 100))
           (inject_Z (raw - 50)) (1 # 10000) = true.
Proof.
  intros Hraw.
  apply (byte_cases
           (fun raw => close_to (Float32.mul (gm_pressure_bar raw) (Float32.of_int 100))
                                (inject_Z (raw - 50)) (1 # 10000)));
    [vm_compute; reflexivity | exact Hraw].
Qed.

Lemma hyundai_kpa_shown (raw : Z) :
  is_u8 raw ->
  close_to (Float32.mul (hyundai_pressure_bar raw) (Float32.of_int 100))
           (inject_Z (Z.max 0 (raw - 40))) (1 # 10000) = true.
Proof.
  intros Hraw.
  apply (byte_cases
           (fun raw => close_to (Float32.mul (hyundai_pressure_bar raw) (Float32.of_int 100))
                                (inject_Z (Z.max 0 (raw - 40))) (1 # 10000)));
    [vm_compute; reflexivity | exact Hraw].
Qed.

(** X10.  The text output of a GM or Hyundai reading converts the stored
    pressure back to kPa: what it shows is within 1e-4 of the integer the
    frame carried, byte 7 - 50 for GM and max(0, byte 8 - 40) for Hyundai, so
    the one decimal printed is that integer; the mode shown is "Battery Low"
    exactly when bit 6 of the status byte is set. *)
Theorem kpa_text_round_trip (g : Generic.t) (B : list Z) :
  (frame_ok 9 B ->
   forall s, GM.generic s = GM.tpms_protocol_gm_analyze g B ->
     let t := tpms_protocol_decoder_gm_get_string s in
     close_to (kpa_text_pressure_kpa t) (inject_Z (byte_at B 7 - 50)) (1 # 10000) = true
     /\ kpa_text_mode t
        = (if Z.testbit (byte_at B 6) 6 then "Battery Low" else "Normal")%string
     /\ float_is_int (kpa_text_temp t) (byte_at B 8 - 40) = true)
  /\ (frame_ok 10 B ->
      forall s, Hyundai.generic s = Hyundai.tpms_protocol_hyundai_analyze g B ->
        let t := tpms_protocol_decoder_hyundai_get_string s in
        close_to (kpa_text_pressure_kpa t) (inject_Z (Z.max 0 (byte_at B 8 - 40)))
                 (1 # 10000) = true
        /\ kpa_text_mode t
           = (if Z.testbit (byte_at B 7) 6 then "Battery Low" else "Normal")%string
        /\ float_is_int (kpa_text_temp t) (byte_at B 9 - 50) = true).
Proof.
  split.
  - intros HB s Hs t.
    assert (Hbyte : forall i, is_u8 (byte_at B i))
      by (intros i; exact (frame_ok_byte 9 B i HB)).
    unfold t, tpms_protocol_decoder_gm_get_string, kpa_get_string.
    cbn [kpa_text_pressure_kpa kpa_text_mode kpa_text_temp].
    rewrite Hs. unfold GM.tpms_protocol_gm_analyze.
    cbn [Generic.pressure Generic.battery_low Generic.temperature].
    conj_split.
    + apply gm_kpa_shown. apply Hbyte.
    + rewrite bit6_flag by apply Hbyte.
      destruct (Z.testbit (byte_at B 6) 6); reflexivity.
    + apply offset_temperature_exact; [left; reflexivity | apply Hbyte].
  - intros HB s Hs t.
    assert (Hbyte : forall i, is_u8 (byte_at B i))
      by (intros i; exact (frame_ok_byte 10 B i HB)).
    unfold t, tpms_protocol_decoder_hyundai_get_string, kpa_get_string.
    cbn [kpa_text_pressure_kpa kpa_text_mode kpa_text_temp].
    rewrite Hs. unfold Hyundai.tpms_protocol_hyundai_analyze.
    cbn [Generic.pressure Generic.battery_low Generic.temperature].
    conj_split.
    + apply hyundai_kpa_shown. apply Hbyte.
    + rewrite bit6_flag by apply Hbyte.
      destruct (Z.testbit (byte_at B 7) 6); reflexivity.
    + apply offset_temperature_exact; [right; reflexivity | apply Hbyte].
Qed.

Lemma kpa_text_round_trip_witness :
  let B := [0x55; 0x5D; 0x01; 0x02; 0x03; 0x04; 0x40; 0x96; 0x3C] in
  let s := GM.set_generic gm_start (GM.tpms_protocol_gm_analyze (zero_reading "GM") B) in
  let t := tpms_protocol_decoder_gm_get_string s in
  close_to (kpa_text_pressure_kpa t) (inject_Z (150 - 50)) (1 # 10000) = true
  /\ kpa_text_mode t = "Battery Low"%string.
Proof.
  intros B s t.
  assert (HB : frame_ok 9 B).
  { split; [reflexivity |]. unfold is_u8. repeat constructor; lia. }
  destruct (kpa_text_round_trip (zero_reading "GM") B) as [Hgm _].
  destruct (Hgm HB s eq_refl) as (Hp & Hm & _).
  conj_split; [exact Hp | exact Hm].
Defined.

(** ** Nissan: a frame from the first edge to the callback *)

Lemma nissan_pulses_app (l1 l2 : list bool) :
  nissan_pulses (l1 ++ l2) = nissan_pulses l1 ++ nissan_pulses l2.
Proof. unfold nissan_pulses. apply flat_map_app. Qed.

Lemma nissan_pulse_bit (b : bool) :
  Nissan.pwm_bit (if b then 104 else 52) = Some b.
Proof. destruct b; reflexivity. Qed.

(** Below 72 bits the data step only shifts the pulses in. *)
Lemma nissan_collect_partial (bits : list bool) :
  forall s : Nissan.TPMSProtocolDecoderNissan,
    parser_step (Nissan.decoder s) = Nissan.NissanDecoderStepData ->
    Nissan.last_level s = false -> Nissan.last_duration s = 52 ->
    0 <= decode_count_bit (Nissan.decoder s) ->
    decode_count_bit (Nissan.decoder s) + Z.of_nat (List.length bits) < 72 ->
    feed_all tpms_protocol_nissan_decoder s (nissan_pulses bits)
    = (Nissan.set_decoder s (add_bits (Nissan.decoder s) bits), []).
Proof.
  induction bits as [| b bits IH]; intros s Hstep Hll Hld Hc Hlen.
  - destruct s as [sb [sst sdd scc] sg sbuf sl sld]. reflexivity.
  - cbn [List.length] in Hlen. rewrite Nat2Z.inj_succ in Hlen.
    cbn [nissan_pulses flat_map app feed_all feed tpms_protocol_nissan_decoder].
    fold (nissan_pulses bits).
    unfold Nissan.tpms_protocol_decoder_nissan_feed at 1.
    rewrite Hstep. cbv iota. cbn [negb].
    unfold Nissan.tpms_protocol_decoder_nissan_feed at 1.
    cbn [Nissan.set_last Nissan.decoder Nissan.last_duration]. rewrite Hstep.
    cbv iota. cbn [negb]. rewrite nissan_pulse_bit.
    feed_simpl. rewrite (u8_succ (decode_count_bit (Nissan.decoder s))) by lia.
    destruct (Z.leb_spec 72 (decode_count_bit (Nissan.decoder s) + 1)) as [Hge | _];
      [lia |].
    set (s1 := Nissan.set_decoder s
                 (subghz_protocol_blocks_add_bit (Nissan.decoder s) b)).
    assert (Hs1 : Nissan.set_last
                    (Nissan.set_decoder
                       (Nissan.set_last s true (if b then 104 else 52))
                       (subghz_protocol_blocks_add_bit (Nissan.decoder s) b))
                    false 52 = s1).
    { unfold s1. destruct s as [sb [sst sdd scc] sg sbuf sl sld].
      cbn [Nissan.last_level Nissan.last_duration] in Hll, Hld. subst.
      reflexivity. }
    rewrite Hs1.
    rewrite (IH s1).
    + unfold s1. destruct s as [sb [sst sdd scc] sg sbuf sl sld]. reflexivity.
    + exact Hstep.
    + exact Hll.
    + exact Hld.
    + unfold s1. cbn [Nissan.set_decoder Nissan.decoder].
      rewrite add_bit_count by lia. lia.
    + unfold s1. cbn [Nissan.set_decoder Nissan.decoder].
      rewrite add_bit_count by lia. lia.
Qed.

Lemma nissan_collect_last (s : Nissan.TPMSProtocolDecoderNissan) (b : bool) :
  parser_step (Nissan.decoder s) = Nissan.NissanDecoderStepData ->
  decode_count_bit (Nissan.decoder s) = 71 ->
  let d := subghz_protocol_blocks_add_bit (Nissan.decoder s) b in
  let buf :=
    unpack_bytes (decode_data d) 7 1 8
                 (array_set (Nissan.pwm_data s) 0 Nissan.NISSAN_SYNC_PATTERN) in
  feed_all tpms_protocol_nissan_decoder s (nissan_pulses [b])
  = (nissan_completed s d,
     if Nissan.tpms_protocol_nissan_check_crc buf && callback (Nissan.base s)
     then [nissan_completed s d] else []).
Proof.
  intros Hstep Hc. cbv zeta.
  cbn [nissan_pulses flat_map app feed_all feed tpms_protocol_nissan_decoder].
  unfold Nissan.tpms_protocol_decoder_nissan_feed at 1.
  rewrite Hstep. cbv iota. cbn [negb].
  unfold Nissan.tpms_protocol_decoder_nissan_feed at 1.
  cbn [Nissan.set_last Nissan.decoder Nissan.last_duration]. rewrite Hstep.
  cbv iota. cbn [negb]. rewrite nissan_pulse_bit.
  unfold nissan_completed.
  feed_simpl. rewrite Hc. change (72 <=? u8 (71 + 1)) with true. cbv iota.
  set (buf := unpack_bytes _ 7 1 8 _).
  destruct (Nissan.tpms_protocol_nissan_check_crc buf);
    destruct s as [sb [sst sdd scc] sg sbuf sl sld]; cbn [andb Nissan.base callback];
    [destruct (callback sb) |]; reflexivity.
Qed.

Lemma nissan_completed_set_decoder (s : Nissan.TPMSProtocolDecoderNissan) d0 d :
  nissan_completed (Nissan.set_decoder s d0) d = nissan_completed s d.
Proof.
  destruct s as [sb [sst sdd scc] sg sbuf sl sld]. unfold nissan_completed.
  cbn [Nissan.set_decoder Nissan.set_pwm_data Nissan.set_generic Nissan.set_last
       Nissan.set_step Nissan.pwm_data Nissan.generic Nissan.decoder
       Nissan.base Nissan.last_level Nissan.last_duration].
  reflexivity.
Qed.

(** The 72 bits of a frame, fed to an instance that has just found the sync
    byte. *)
Lemma nissan_collect (bits : list bool) (s : Nissan.TPMSProtocolDecoderNissan) :
  parser_step (Nissan.decoder s) = Nissan.NissanDecoderStepData ->
  Nissan.last_level s = false -> Nissan.last_duration s = 52 ->
  decode_count_bit (Nissan.decoder s) = 0 ->
  List.length bits = 72%nat ->
  let d := add_bits (Nissan.decoder s) bits in
  let buf :=
    unpack_bytes (decode_data d) 7 1 8
                 (array_set (Nissan.pwm_data s) 0 Nissan.NISSAN_SYNC_PATTERN) in
  feed_all tpms_protocol_nissan_decoder s (nissan_pulses bits)
  = (nissan_completed s d,
     if Nissan.tpms_protocol_nissan_check_crc buf && callback (Nissan.base s)
     then [nissan_completed s d] else []).
Proof.
  intros Hstep Hll Hld Hc Hlen d buf.
  assert (Hne : bits <> []) by (intros ->; discriminate Hlen).
  pose proof (app_removelast_last false Hne) as Hsplit.
  set (front := removelast bits) in *. set (b := last bits false) in *.
  assert (Hfront : List.length front = 71%nat).
  { assert (H := f_equal (@List.length bool) Hsplit).
    rewrite length_app in H. cbn [List.length] in H. lia. }
  subst buf d. clearbody front b. subst bits.
  rewrite nissan_pulses_app, feed_all_app.
  rewrite (nissan_collect_partial front s)
    by first [exact Hstep | exact Hll | exact Hld | rewrite Hc; lia
             | rewrite Hc, Hfront; lia].
  cbn [fst snd app].
  set (d1 := add_bits (Nissan.decoder s) front).
  assert (Hstep1 : parser_step (Nissan.decoder (Nissan.set_decoder s d1))
                   = Nissan.NissanDecoderStepData).
  { cbn [Nissan.set_decoder Nissan.decoder]. unfold d1.
    rewrite add_bits_step. exact Hstep. }
  assert (Hc1 : decode_count_bit (Nissan.decoder (Nissan.set_decoder s d1)) = 71).
  { cbn [Nissan.set_decoder Nissan.decoder]. unfold d1.
    rewrite add_bits_count; rewrite Hc, ?Hfront; lia. }
  pose proof (nissan_collect_last _ b Hstep1 Hc1) as Hlast. cbv zeta in Hlast.
  rewrite Hlast. clear Hlast. cbn [fst snd].
  cbn [Nissan.set_decoder Nissan.decoder Nissan.pwm_data Nissan.base].
  rewrite nissan_completed_set_decoder.
  assert (Hd : subghz_protocol_blocks_add_bit d1 b
               = add_bits (Nissan.decoder s) (front ++ [b])).
  { unfold d1, add_bits. rewrite fold_left_app. reflexivity. }
  rewrite Hd. reflexivity.
Qed.

(** The accumulator after the 72 bits of nine bytes, whatever the decoder:
    the first byte has left the 64-bit word. *)
Lemma frame_word {Step : Type} (d : SubGhzBlockDecoder Step)
    (b0 b1 b2 b3 b4 b5 b6 b7 b8 : Z) :
  decode_data d = 0 ->
  Forall is_u8 [b0; b1; b2; b3; b4; b5; b6; b7; b8] ->
  decode_data (add_bits d (bits_of_bytes [b0; b1; b2; b3; b4; b5; b6; b7; b8]))
  = b1 * 2 ^ 56 + b2 * 2 ^ 48 + b3 * 2 ^ 40 + b4 * 2 ^ 32
    + b5 * 2 ^ 24 + b6 * 2 ^ 16 + b7 * 2 ^ 8 + b8.
Proof.
  intros Hd HB.
  repeat match goal with
         | H : Forall _ (_ :: _) |- _ => inversion H; subst; clear H
         end.
  rewrite add_bits_data by (rewrite Hd; lia).
  rewrite Hd. cbn [bits_of_bytes flat_map].
  rewrite !bits_value_app, !length_app, !bits_msb_length.
  rewrite !bits_msb_byte by assumption.
  change (bits_value []) with 0. cbn [List.length Nat.add].
  unfold is_u8 in *.
  change (Z.of_nat 0) with 0. change (Z.of_nat 8) with 8.
  change (Z.of_nat 16) with 16. change (Z.of_nat 24) with 24.
  change (Z.of_nat 32) with 32. change (Z.of_nat 40) with 40.
  change (Z.of_nat 48) with 48. change (Z.of_nat 56) with 56.
  change (Z.of_nat 64) with 64. change (Z.of_nat 72) with 72.
  Z.div_mod_to_equations. lia.
Qed.

(** The byte buffer after those 72 bits: the sync byte, then bytes 1 to 8
    of the nine bytes sent. *)
Lemma nissan_frame_buffer (d : SubGhzBlockDecoder Nissan.NissanDecoderStep)
    (b0 b1 b2 b3 b4 b5 b6 b7 b8 : Z) :
  decode_data d = 0 ->
  Forall is_u8 [b0; b1; b2; b3; b4; b5; b6; b7; b8] ->
  unpack_bytes
    (decode_data (add_bits d (bits_of_bytes [b0; b1; b2; b3; b4; b5; b6; b7; b8])))
    7 1 8 (array_set (memset_zero 9) 0 Nissan.NISSAN_SYNC_PATTERN)
  = [Nissan.NISSAN_SYNC_PATTERN; b1; b2; b3; b4; b5; b6; b7; b8].
Proof.
  intros Hd HB. rewrite (frame_word d b0 b1 b2 b3 b4 b5 b6 b7 b8 Hd HB).
  repeat match goal with
         | H : Forall _ (_ :: _) |- _ => inversion H; subst; clear H
         end.
  unfold is_u8 in *.
  cbv [unpack_bytes memset_zero repeat seq fold_left array_set Nat.add].
  change ((7 - Z.of_nat 0) * 8) with 56. change ((7 - Z.of_nat 1) * 8) with 48.
  change ((7 - Z.of_nat 2) * 8) with 40. change ((7 - Z.of_nat 3) * 8) with 32.
  change ((7 - Z.of_nat 4) * 8) with 24. change ((7 - Z.of_nat 5) * 8) with 16.
  change ((7 - Z.of_nat 6) * 8) with 8. change ((7 - Z.of_nat 7) * 8) with 0.
  rewrite !shiftr_land_ff by lia.
  apply f_equal.
  repeat (apply f_equal2; [Z.div_mod_to_equations; lia |]).
  reflexivity.
Qed.

Lemma nissan_completed_fields (s : Nissan.TPMSProtocolDecoderNissan) d :
  let buf :=
    unpack_bytes (decode_data d) 7 1 8
                 (array_set (Nissan.pwm_data s) 0 Nissan.NISSAN_SYNC_PATTERN) in
  Nissan.pwm_data (nissan_completed s d) = buf
  /\ parser_step (Nissan.decoder (nissan_completed s d)) = Nissan.NissanDecoderStepReset
  /\ Nissan.generic (nissan_completed s d)
     = (if Nissan.tpms_protocol_nissan_check_crc buf
        then Nissan.tpms_protocol_nissan_analyze (Nissan.generic s) buf
        else Nissan.generic s).
Proof.
  intros buf. unfold nissan_completed. fold buf.
  destruct (Nissan.tpms_protocol_nissan_check_crc buf);
    destruct s as [sb [sst sdd scc] sg sbuf sl sld]; repeat split.
Qed.

(** The sync phase of a frame: the long high edge and the pulses of the
    preamble and of the sync byte take any instance in the Reset step to the
    data step with an empty accumulator and a cleared byte buffer. *)
Lemma nissan_sync_acquired base dd cc g buf ll ld :
  feed_all tpms_protocol_nissan_decoder
    (Nissan.mk base (mkBlockDecoder Nissan.NissanDecoderStepReset dd cc) g buf ll ld)
    ((true, 104)
     :: nissan_pulses (bits_msb 20 0xAAAAA ++ bits_msb 8 Nissan.NISSAN_SYNC_PATTERN))
  = (Nissan.mk base (mkBlockDecoder Nissan.NissanDecoderStepData 0 0)
               g (memset_zero 9) false 52, []).
Proof. vm_compute. reflexivity. Qed.

Lemma nissan_frame_run (s : Nissan.TPMSProtocolDecoderNissan) (B : list Z) :
  parser_step (Nissan.decoder s) = Nissan.NissanDecoderStepReset ->
  frame_ok 9 B ->
  exists s2 d,
    Nissan.generic s2 = Nissan.generic s
    /\ Nissan.base s2 = Nissan.base s
    /\ unpack_bytes (decode_data d) 7 1 8
         (array_set (Nissan.pwm_data s2) 0 Nissan.NISSAN_SYNC_PATTERN)
       = Nissan.NISSAN_SYNC_PATTERN :: tl B
    /\ feed_all tpms_protocol_nissan_decoder s (nissan_frame_edges B)
       = (nissan_completed s2 d,
          if Nissan.tpms_protocol_nissan_check_crc
               (unpack_bytes (decode_data d) 7 1 8
                  (array_set (Nissan.pwm_data s2) 0 Nissan.NISSAN_SYNC_PATTERN))
             && callback (Nissan.base s2)
          then [nissan_completed s2 d] else []).
Proof.
  intros Hstep [Hlen HB].
  destruct B as [| b0 [| b1 [| b2 [| b3 [| b4 [| b5 [| b6 [| b7 [| b8 [| ? ?]]]]]]]]]];
    try discriminate Hlen.
  destruct s as [sb [sst sdd scc] sg sbuf sl sld].
  cbn [Nissan.decoder parser_step] in Hstep. subst sst.
  set (s2 := Nissan.mk sb (mkBlockDecoder Nissan.NissanDecoderStepData 0 0)
                       sg (memset_zero 9) false 52).
  set (bits := bits_of_bytes [b0; b1; b2; b3; b4; b5; b6; b7; b8]).
  exists s2, (add_bits (Nissan.decoder s2) bits).
  split; [reflexivity |]. split; [reflexivity |]. split.
  - apply (nissan_frame_buffer (Nissan.decoder s2) b0 b1 b2 b3 b4 b5 b6 b7 b8);
      [reflexivity | exact HB].
  - assert (Hedges : nissan_frame_edges [b0; b1; b2; b3; b4; b5; b6; b7; b8]
                     = ((true, 104)
                        :: nissan_pulses (bits_msb 20 0xAAAAA
                                          ++ bits_msb 8 Nissan.NISSAN_SYNC_PATTERN))
                       ++ nissan_pulses bits).
    { reflexivity. }
    rewrite Hedges, feed_all_app, nissan_sync_acquired.
    fold s2. cbn [fst snd app].
    rewrite <- surjective_pairing.
    apply (nissan_collect bits s2); reflexivity.
Qed.

(** X11.  The Nissan decoder on a whole frame.  From any instance in the
    Reset step, a long high edge followed by the pulses of a 20-bit preamble,
    of the sync byte 0x5A and of nine bytes leaves the decoder in the Reset
    step with the sync byte and bytes 1 to 8 of the nine in the byte buffer:
    the first of the nine bytes is shifted out of the 64-bit accumulator.
    The reading is analysed and the callback invoked once exactly when the
    CRC of the received bytes passes; otherwise the reading is untouched and
    no callback is made.  The first pulse begins with a second high edge,
    without which the decoder does not leave the sync search. *)
Theorem nissan_frame_round_trip (s : Nissan.TPMSProtocolDecoderNissan) (B : list Z) :
  parser_step (Nissan.decoder s) = Nissan.NissanDecoderStepReset ->
  frame_ok 9 B ->
  let received := Nissan.NISSAN_SYNC_PATTERN :: tl B in
  let r := feed_all tpms_protocol_nissan_decoder s (nissan_frame_edges B) in
  Nissan.pwm_data (fst r) = received
  /\ parser_step (Nissan.decoder (fst r)) = Nissan.NissanDecoderStepReset
  /\ Nissan.generic (fst r)
     = (if Nissan.tpms_protocol_nissan_check_crc received
        then Nissan.tpms_protocol_nissan_analyze (Nissan.generic s) received
        else Nissan.generic s)
  /\ snd r
     = (if Nissan.tpms_protocol_nissan_check_crc received && callback (Nissan.base s)
        then [fst r] else []).
Proof.
  intros Hstep HB received r.
  destruct (nissan_frame_run s B Hstep HB) as (s2 & d & Hg & Hb & Hbuf & Hrun).
  fold received in Hbuf. unfold r. rewrite Hrun. cbn [fst snd].
  destruct (nissan_completed_fields s2 d) as (F1 & F2 & F3).
  rewrite Hbuf, Hg in *. rewrite Hb.
  split; [exact F1 |]. split; [exact F2 |]. split; [exact F3 |]. reflexivity.
Qed.

Lemma nissan_frame_round_trip_witness :
  let B := [0xFF; 0x01; 0x02; 0x03; 0x04; 0x03; 0x84; 0x3C; 0xCD] in
  let r := feed_all tpms_protocol_nissan_decoder nissan_start (nissan_frame_edges B) in
  Nissan.pwm_data (fst r) = [0x5A; 0x01; 0x02; 0x03; 0x04; 0x03; 0x84; 0x3C; 0xCD]
  /\ parser_step (Nissan.decoder (fst r)) = Nissan.NissanDecoderStepReset
  /\ Generic.id (Nissan.generic (fst r)) = 0x01020304
  /\ List.length (snd r) = 1%nat.
Proof.
  intros B r.
  assert (HB : frame_ok 9 B).
  { split; [reflexivity |]. repeat constructor; unfold is_u8; lia. }
  destruct (nissan_frame_round_trip nissan_start B eq_refl HB)
    as (Hbuf & Hstep & Hgen & Hcalls).
  fold r in Hbuf, Hstep, Hgen, Hcalls.
  split; [exact Hbuf |]. split; [exact Hstep |].
  split.
  - rewrite Hgen. vm_compute. reflexivity.
  - rewrite Hcalls. vm_compute. reflexivity.
Defined.

(** ** The bit count in the data step *)

(** Closes the goals left by the case analysis of a call in any step. *)
Ltac data_goal :=
  intros; unfold data_inv, completes_frame in *; feed_simpl; intros;
  try discriminate;
  bool_arith;
  repeat match goal with
  | H : ?a = ?a -> _ |- _ => specialize (H eq_refl)
  end;
  try match goal with
  | H : 0 <= ?c < _ |- _ => rewrite (u8_succ c) in * by lia
  end;
  first [ lia | repeat split; first [reflexivity | lia] ].

Lemma ford_data_inv (s : Ford.TPMSProtocolDecoderFord) level duration :
  data_inv tpms_protocol_ford_decoder s ->
  data_inv tpms_protocol_ford_decoder
           (fst (Ford.tpms_protocol_decoder_ford_feed s level duration))
  /\ (snd (Ford.tpms_protocol_decoder_ford_feed s level duration) = true ->
      completes_frame tpms_protocol_ford_decoder s
        (fst (Ford.tpms_protocol_decoder_ford_feed s level duration))).
Proof.
  destruct s as [sb [st sdd scc] sg sbuf sm].
  unfold Ford.tpms_protocol_decoder_ford_feed.
  destruct st; feed_simpl; split_feed; split; data_goal.
Qed.

Lemma gm_data_inv (s : GM.TPMSProtocolDecoderGM) level duration :
  data_inv tpms_protocol_gm_decoder s ->
  data_inv tpms_protocol_gm_decoder
           (fst (GM.tpms_protocol_decoder_gm_feed s level duration))
  /\ (snd (GM.tpms_protocol_decoder_gm_feed s level duration) = true ->
      completes_frame tpms_protocol_gm_decoder s
        (fst (GM.tpms_protocol_decoder_gm_feed s level duration))).
Proof.
  destruct s as [sb [st sdd scc] sg sbuf sm].
  unfold GM.tpms_protocol_decoder_gm_feed.
  destruct st; feed_simpl; split_feed; split; data_goal.
Qed.

Lemma hyundai_data_inv (s : Hyundai.TPMSProtocolDecoderHyundai) level duration :
  data_inv tpms_protocol_hyundai_decoder s ->
  data_inv tpms_protocol_hyundai_decoder
           (fst (Hyundai.tpms_protocol_decoder_hyundai_feed s level duration))
  /\ (snd (Hyundai.tpms_protocol_decoder_hyundai_feed s level duration) = true ->
      completes_frame tpms_protocol_hyundai_decoder s
        (fst (Hyundai.tpms_protocol_decoder_hyundai_feed s level duration))).
Proof.
  destruct s as [sb [st sdd scc] sg sbuf sm].
  unfold Hyundai.tpms_protocol_decoder_hyundai_feed.
  destruct st; feed_simpl; split_feed; split; data_goal.
Qed.

Lemma toyota_data_inv (s : Toyota.TPMSProtocolDecoderToyota) level duration :
  data_inv tpms_protocol_toyota_decoder s ->
  data_inv tpms_protocol_toyota_decoder
           (fst (Toyota.tpms_protocol_decoder_toyota_feed s level duration))
  /\ (snd (Toyota.tpms_protocol_decoder_toyota_feed s level duration) = true ->
      completes_frame tpms_protocol_toyota_decoder s
        (fst (Toyota.tpms_protocol_decoder_toyota_feed s level duration))).
Proof.
  destruct s as [sb [st sdd scc] sg sbuf smb slf ssf].
  unfold Toyota.tpms_protocol_decoder_toyota_feed.
  destruct st; feed_simpl; split_feed; split; data_goal.
Qed.

Lemma nissan_data_inv (s : Nissan.TPMSProtocolDecoderNissan) level duration :
  data_inv tpms_protocol_nissan_decoder s ->
  data_inv tpms_protocol_nissan_decoder
           (fst (Nissan.tpms_protocol_decoder_nissan_feed s level duration))
  /\ (snd (Nissan.tpms_protocol_decoder_nissan_feed s level duration) = true ->
      completes_frame tpms_protocol_nissan_decoder s
        (fst (Nissan.tpms_protocol_decoder_nissan_feed s level duration))).
Proof.
  destruct s as [sb [st sdd scc] sg sbuf sl sld].
  unfold Nissan.tpms_protocol_decoder_nissan_feed.
  destruct st; feed_simpl; split_feed; split; data_goal.
Qed.

Lemma every_data_inv (p : TPMSProtocol) (s : instance (protocol_decoder p))
    (level : bool) (duration : Z) :
  let D := protocol_decoder p in
  data_inv D s ->
  data_inv D (fst (feed D s level duration))
  /\ (snd (feed D s level duration) = true ->
      completes_frame D s (fst (feed D s level duration))).
Proof.
  destruct p; intros D Hinv.
  - apply toyota_data_inv. exact Hinv.
  - apply ford_data_inv. exact Hinv.
  - apply gm_data_inv. exact Hinv.
  - apply nissan_data_inv. exact Hinv.
  - apply hyundai_data_inv. exact Hinv.
Qed.

Lemma reset_data_inv (p : TPMSProtocol) (s : instance (protocol_decoder p)) :
  data_inv (protocol_decoder p) (reset (protocol_decoder p) s).
Proof. unfold data_inv. rewrite reset_phase. discriminate. Qed.

Lemma feed_all_full_count (p : TPMSProtocol) (edges : list Edge) :
  forall s : instance (protocol_decoder p),
    data_inv (protocol_decoder p) s ->
    data_inv (protocol_decoder p) (fst (feed_all (protocol_decoder p) s edges))
    /\ Forall (full_count (protocol_decoder p))
              (snd (feed_all (protocol_decoder p) s edges)).
Proof.
  induction edges as [| [level duration] rest IH]; intros s Hinv.
  - split; [exact Hinv | constructor].
  - cbn [feed_all].
    destruct (every_data_inv p s level duration Hinv) as [Hnext Hcall].
    destruct (feed (protocol_decoder p) s level duration) as [s1 called].
    cbn [fst snd] in Hnext, Hcall.
    destruct (IH s1 Hnext) as [Hend Hcalls].
    destruct (feed_all (protocol_decoder p) s1 rest) as [s2 calls].
    cbn [fst snd] in *. split; [exact Hend |].
    destruct called; [| exact Hcalls].
    constructor; [| exact Hcalls].
    destruct (Hcall eq_refl) as (_ & _ & Hcount & _). exact Hcount.
Qed.

(** X12.  The bit count of a frame.  If the decoder starts with fewer bits
    counted than a frame has whenever it is in the data step (as it does in
    the Reset step, and after [reset]), then so it stays under every sequence
    of [feed] and [reset] calls, so that the 8-bit count does not wrap while a
    frame is collected.  Every call of [feed] that invokes the callback is
    made in the data step with one bit missing; the bit it shifts in brings
    the count to exactly the frame length (64 for Ford, 72 for GM, Nissan and
    Toyota, 80 for Hyundai) before the callback is invoked, and the count is
    not written after it; the step is Reset when the call returns, not yet
    when the callback runs.  So every callback of a run sees exactly one
    frame counted. *)
Theorem callback_on_complete_frame (p : TPMSProtocol)
    (s0 : instance (protocol_decoder p)) (edges : list Edge) :
  let D := protocol_decoder p in
  data_inv D s0 ->
  (forall s, reachable D s0 s -> data_inv D s)
  /\ (forall s level duration,
         reachable D s0 s ->
         snd (feed D s level duration) = true ->
         completes_frame D s (fst (feed D s level duration)))
  /\ Forall (full_count D) (snd (feed_all D s0 edges)).
Proof.
  intros D Hinv.
  assert (Hreach : forall s, reachable D s0 s -> data_inv D s).
  { intros s Hreach. induction Hreach as [| s s' _ IH Hstep].
    - exact Hinv.
    - destruct Hstep as [s level duration | s].
      + apply every_data_inv. exact IH.
      + apply reset_data_inv. }
  split; [exact Hreach |]. split.
  - intros s level duration Hs Hcalled.
    apply every_data_inv; [apply Hreach; exact Hs | exact Hcalled].
  - apply feed_all_full_count. exact Hinv.
Qed.

Lemma callback_on_complete_frame_witness :
  let D := protocol_decoder TPMSToyota in
  let r := feed_all D toyota_start (toyota_frame_edges toyota_good_frame) in
  List.length (snd r) = 1%nat /\ Forall (full_count D) (snd r).
Proof.
  intros D r. split; [vm_compute; reflexivity |].
  apply (callback_on_complete_frame TPMSToyota toyota_start
           (toyota_frame_edges toyota_good_frame)).
  unfold data_inv. discriminate.
Defined.

(** ** The frame handed to the analysis *)

Lemma array_set_length (l : list Z) (i : nat) (v : Z) :
  List.length (array_set l i v) = List.length l.
Proof.
  revert i. induction l as [| x l IH]; intros i; [reflexivity |].
  destruct i; cbn [array_set List.length]; [reflexivity | rewrite IH; reflexivity].
Qed.

Lemma array_set_bytes (l : list Z) (i : nat) (v : Z) :
  is_u8 v -> Forall is_u8 l -> Forall is_u8 (array_set l i v).
Proof.
  intros Hv. revert i. induction l as [| x l IH]; intros i Hl; [constructor |].
  inversion Hl; subst.
  destruct i; cbn [array_set]; constructor; auto.
Qed.

Lemma array_set_firstn (l : list Z) (i k : nat) (v : Z) :
  (k <= i)%nat -> firstn k (array_set l i v) = firstn k l.
Proof.
  revert i k. induction l as [| x l IH]; intros i k Hk; [reflexivity |].
  destruct i.
  - replace k with 0%nat by lia. reflexivity.
  - destruct k; cbn [array_set firstn]; [reflexivity |].
    rewrite IH by lia. reflexivity.
Qed.

Lemma land_ff_byte (x : Z) : is_u8 (Z.land x 0xFF).
Proof.
  unfold is_u8. change 0xFF with (Z.ones 8). rewrite Z.land_ones by lia.
  apply Z.mod_pos_bound. lia.
Qed.

Lemma unpack_bytes_buffer (d top : Z) (off n : nat) (buf : list Z) :
  List.length (unpack_bytes d top off n buf) = List.length buf
  /\ (Forall is_u8 buf -> Forall is_u8 (unpack_bytes d top off n buf))
  /\ (forall k, (k <= off)%nat ->
        firstn k (unpack_bytes d top off n buf) = firstn k buf).
Proof.
  unfold unpack_bytes. generalize (seq 0 n) as l. intros l. revert buf.
  induction l as [| i l IH]; intros buf; cbn [fold_left].
  - repeat split; auto.
  - destruct (IH (array_set buf (off + i)
                    (Z.land (Z.shiftr d ((top - Z.of_nat i) * 8)) 0xFF)))
      as (Hlen & Hbytes & Hfirst).
    split; [| split].
    + rewrite Hlen. apply array_set_length.
    + intros Hbuf. apply Hbytes. apply array_set_bytes; [apply land_ff_byte | exact Hbuf].
    + intros k Hk. rewrite Hfirst by exact Hk. apply array_set_firstn. lia.
Qed.

Lemma memset_zero_ok (n : nat) : frame_ok n (memset_zero n).
Proof.
  unfold frame_ok, memset_zero. split; [apply repeat_length |].
  apply Forall_forall. intros x Hx. apply repeat_spec in Hx. subst x.
  unfold is_u8. lia.
Qed.

Lemma unpack_bytes_ok (n : nat) (d top : Z) (off m : nat) (buf : list Z) :
  frame_ok n buf -> frame_ok n (unpack_bytes d top off m buf).
Proof.
  intros [Hlen Hbytes]. destruct (unpack_bytes_buffer d top off m buf) as (H1 & H2 & _).
  split; [rewrite H1; exact Hlen | apply H2; exact Hbytes].
Qed.

Lemma array_set_ok (n : nat) (buf : list Z) (i : nat) (v : Z) :
  is_u8 v -> frame_ok n buf -> frame_ok n (array_set buf i v).
Proof.
  intros Hv [Hlen Hbytes].
  split; [rewrite array_set_length; exact Hlen | apply array_set_bytes; assumption].
Qed.

(** Closes the goals left by the case analysis of a call of [feed]. *)
Ltac buffer_goal :=
  intros; feed_simpl;
  try discriminate;
  try assumption;
  try apply memset_zero_ok;
  repeat first [ apply unpack_bytes_ok
               | apply array_set_ok; [unfold is_u8, Nissan.NISSAN_SYNC_PATTERN; lia |]
               | assumption ];
  try (split; reflexivity).

Lemma ford_callback_reading (s : Ford.TPMSProtocolDecoderFord) level duration :
  let r := Ford.tpms_protocol_decoder_ford_feed s level duration in
  (frame_ok 8 (Ford.manchester_data s) -> frame_ok 8 (Ford.manchester_data (fst r)))
  /\ (snd r = true ->
      Ford.manchester_data (fst r)
      = unpack_bytes (decode_data (Ford.decoder (fst r))) 7 0 8 (Ford.manchester_data s)
      /\ Ford.generic (fst r)
         = Ford.tpms_protocol_ford_analyze (Ford.generic s) (Ford.manchester_data (fst r))).
Proof.
  destruct s as [sb [st sdd scc] sg sbuf sm].
  intros r. unfold r, Ford.tpms_protocol_decoder_ford_feed. clear r.
  destruct st; feed_simpl; split_feed; split; buffer_goal.
Qed.

Lemma gm_callback_reading (s : GM.TPMSProtocolDecoderGM) level duration :
  let r := GM.tpms_protocol_decoder_gm_feed s level duration in
  (frame_ok 9 (GM.manchester_data s) -> frame_ok 9 (GM.manchester_data (fst r)))
  /\ (snd r = true ->
      GM.manchester_data (fst r)
      = unpack_bytes (decode_data (GM.decoder (fst r))) 6 2 7
          (array_set (array_set (GM.manchester_data s) 0 0x55) 1 0x5D)
      /\ GM.generic (fst r)
         = GM.tpms_protocol_gm_analyze (GM.generic s) (GM.manchester_data (fst r))).
Proof.
  destruct s as [sb [st sdd scc] sg sbuf sm].
  intros r. unfold r, GM.tpms_protocol_decoder_gm_feed. clear r.
  destruct st; feed_simpl; split_feed; split; buffer_goal.
Qed.

Lemma hyundai_callback_reading (s : Hyundai.TPMSProtocolDecoderHyundai) level duration :
  let r := Hyundai.tpms_protocol_decoder_hyundai_feed s level duration in
  (frame_ok 10 (Hyundai.manchester_data s) ->
   frame_ok 10 (Hyundai.manchester_data (fst r)))
  /\ (snd r = true ->
      Hyundai.manchester_data (fst r)
      = unpack_bytes (decode_data (Hyundai.decoder (fst r))) 6 3 7
          (array_set (array_set (array_set (Hyundai.manchester_data s) 0 0x55) 1 0x55)
                     2 0x56)
      /\ Hyundai.generic (fst r)
         = Hyundai.tpms_protocol_hyundai_analyze (Hyundai.generic s)
             (Hyundai.manchester_data (fst r))).
Proof.
  destruct s as [sb [st sdd scc] sg sbuf sm].
  intros r. unfold r, Hyundai.tpms_protocol_decoder_hyundai_feed. clear r.
  destruct st; feed_simpl; split_feed; split; buffer_goal.
Qed.

Lemma toyota_callback_reading (s : Toyota.TPMSProtocolDecoderToyota) level duration :
  let r := Toyota.tpms_protocol_decoder_toyota_feed s level duration in
  (frame_ok 10 (Toyota.manchester_data s) ->
   frame_ok 10 (Toyota.manchester_data (fst r)))
  /\ (snd r = true ->
      Toyota.manchester_data (fst r)
      = unpack_bytes (decode_data (Toyota.decoder (fst r))) 8 0 9
          (Toyota.manchester_data s)
      /\ Toyota.generic (fst r)
         = Toyota.tpms_protocol_toyota_analyze (Toyota.generic s)
             (Toyota.manchester_data (fst r))).
Proof.
  destruct s as [sb [st sdd scc] sg sbuf smb slf ssf].
  intros r. unfold r, Toyota.tpms_protocol_decoder_toyota_feed. clear r.
  destruct st; feed_simpl; split_feed; split; buffer_goal.
Qed.

Lemma nissan_callback_reading (s : Nissan.TPMSProtocolDecoderNissan) level duration :
  let r := Nissan.tpms_protocol_decoder_nissan_feed s level duration in
  (frame_ok 9 (Nissan.pwm_data s) -> frame_ok 9 (Nissan.pwm_data (fst r)))
  /\ (snd r = true ->
      Nissan.pwm_data (fst r)
      = unpack_bytes (decode_data (Nissan.decoder (fst r))) 7 1 8
          (array_set (Nissan.pwm_data s) 0 Nissan.NISSAN_SYNC_PATTERN)
      /\ Nissan.generic (fst r)
         = Nissan.tpms_protocol_nissan_analyze (Nissan.generic s)
             (Nissan.pwm_data (fst r))).
Proof.
  destruct s as [sb [st sdd scc] sg sbuf sl sld].
  intros r. unfold r, Nissan.tpms_protocol_decoder_nissan_feed. clear r.
  destruct st; feed_simpl; split_feed; split; buffer_goal.
Qed.

Lemma assembled_ok (p : TPMSProtocol) (d : Z) (buf : list Z) :
  frame_ok (buffer_size p) buf ->
  frame_ok (buffer_size p) (assembled p d buf)
  /\ firstn (List.length (sync_bytes p)) (assembled p d buf) = sync_bytes p.
Proof.
  intros Hok. split.
  - destruct p; cbn [assembled buffer_size] in *;
      repeat first [ apply unpack_bytes_ok
                   | apply array_set_ok;
                     [unfold is_u8, Nissan.NISSAN_SYNC_PATTERN; lia |]
                   | exact Hok ].
  - destruct Hok as [Hlen _].
    destruct p; cbn [assembled buffer_size sync_bytes List.length] in *;
      try reflexivity;
      match goal with
      | |- firstn ?k (unpack_bytes ?d ?top ?off ?n ?b) = _ =>
          let H := fresh in
          destruct (unpack_bytes_buffer d top off n b) as (_ & _ & H);
          rewrite H by lia
      end;
      do 3 (destruct buf as [| ? buf]; [discriminate Hlen |]);
      reflexivity.
Qed.

(** X13.  What a callback is handed.  In a call of [feed] that invokes the
    callback, the byte buffer is the one assembled from the 64-bit
    accumulator in that call: the constant bytes of the protocol (0x55 0x5D
    for GM, 0x55 0x55 0x56 for Hyundai, 0x5A for Nissan, none for Ford and
    Toyota) followed by the bytes unpacked from the accumulator; it passes the
    validation; and the reading is the analysis of that buffer applied to the
    reading before the call.  The buffer keeps its size and holds bytes in
    every call. *)
Theorem callback_reading (p : TPMSProtocol) (s : instance (protocol_decoder p))
    (level : bool) (duration : Z) :
  let D := protocol_decoder p in
  let r := feed D s level duration in
  buffer_ok p s ->
  buffer_ok p (fst r)
  /\ (snd r = true ->
      frame D (fst r) = assembled p (accumulator D (fst r)) (frame D s)
      /\ firstn (List.length (sync_bytes p)) (frame D (fst r)) = sync_bytes p
      /\ validate D (frame D (fst r)) = true
      /\ reading D (fst r) = analyze p (reading D s) (frame D (fst r))).
Proof.
  intros D r Hok.
  assert (Hcall : (buffer_ok p s -> buffer_ok p (fst r))
                  /\ (snd r = true ->
                      frame D (fst r) = assembled p (accumulator D (fst r)) (frame D s)
                      /\ reading D (fst r)
                         = analyze p (reading D s) (frame D (fst r)))).
  { unfold r, D, buffer_ok. clear Hok r D.
    destruct p;
      cbn [protocol_decoder feed frame reading accumulator analyze assembled buffer_size
           tpms_protocol_toyota_decoder tpms_protocol_ford_decoder
           tpms_protocol_gm_decoder tpms_protocol_nissan_decoder
           tpms_protocol_hyundai_decoder].
    - apply toyota_callback_reading.
    - apply ford_callback_reading.
    - apply gm_callback_reading.
    - apply nissan_callback_reading.
    - apply hyundai_callback_reading. }
  destruct Hcall as [Hbuf Hcall].
  split; [exact (Hbuf Hok) |].
  intros Hcalled. destruct (Hcall Hcalled) as [Hframe Hreading].
  destruct (assembled_ok p (accumulator D (fst r)) (frame D s) Hok) as [_ Hprefix].
  split; [exact Hframe |]. split; [rewrite Hframe; exact Hprefix |].
  split; [| exact Hreading].
  destruct (every_feed_outcome p s level duration) as [[Hno _] | [Hvalid _]].
  - fold D in Hno. fold r in Hno. rewrite Hno in Hcalled. discriminate Hcalled.
  - exact Hvalid.
Qed.

Lemma callback_reading_witness :
  let D := protocol_decoder TPMSNissan in
  let B := [0xFF; 0x01; 0x02; 0x03; 0x04; 0x03; 0x84; 0x3C; 0xCD] in
  let s := fst (feed_all D nissan_start (removelast (nissan_frame_edges B))) in
  let r := feed D s false 52 in
  snd r = true
  /\ firstn 1 (frame D (fst r)) = [0x5A]
  /\ reading D (fst r) = analyze TPMSNissan (reading D s) (frame D (fst r)).
Proof.
  intros D B s r.
  assert (Hok : buffer_ok TPMSNissan s).
  { split; [vm_compute; reflexivity |]. vm_compute. repeat constructor; discriminate. }
  assert (Hcalled : snd r = true) by (vm_compute; reflexivity).
  destruct (callback_reading TPMSNissan s false 52 Hok) as [_ H].
  destruct (H Hcalled) as (_ & Hprefix & _ & Hreading).
  split; [exact Hcalled |]. split; [exact Hprefix | exact Hreading].
Defined.

(** ** The accumulator that [reset] leaves *)

(** In the Reset step a call of [feed] either leaves the instance alone or
    starts a search with an empty accumulator: what the accumulator held
    does not matter. *)
Lemma stale_accumulator_step (p : TPMSProtocol) (s : instance (protocol_decoder p))
    (d c : Z) (level : bool) (duration : Z) :
  let D := protocol_decoder p in
  phase D s = PhaseReset ->
  (feed D s level duration = (s, false)
   /\ feed D (set_accumulator p s d c) level duration = (set_accumulator p s d c, false))
  \/ (feed D (set_accumulator p s d c) level duration = feed D s level duration
      /\ snd (feed D s level duration) = false).
Proof.
  intros D. unfold D. clear D.
  destruct p;
    cbn [protocol_decoder feed phase set_accumulator
         tpms_protocol_toyota_decoder tpms_protocol_ford_decoder
         tpms_protocol_gm_decoder tpms_protocol_nissan_decoder
         tpms_protocol_hyundai_decoder].
  - destruct s as [sb [st sdd scc] sg sbuf smb slf ssf].
    unfold Toyota.tpms_protocol_decoder_toyota_feed.
    destruct st; feed_simpl; try discriminate; intros _.
    match goal with |- context [if ?c then _ else _] => destruct c end;
      [right | left]; split; reflexivity.
  - destruct s as [sb [st sdd scc] sg sbuf sm].
    unfold Ford.tpms_protocol_decoder_ford_feed.
    destruct st; feed_simpl; try discriminate; intros _.
    match goal with |- context [if ?c then _ else _] => destruct c end;
      [right | left]; split; reflexivity.
  - destruct s as [sb [st sdd scc] sg sbuf sm].
    unfold GM.tpms_protocol_decoder_gm_feed.
    destruct st; feed_simpl; try discriminate; intros _.
    match goal with |- context [if ?c then _ else _] => destruct c end;
      [right | left]; split; reflexivity.
  - destruct s as [sb [st sdd scc] sg sbuf sl sld].
    unfold Nissan.tpms_protocol_decoder_nissan_feed.
    destruct st; feed_simpl; try discriminate; intros _.
    match goal with |- context [if ?c then _ else _] => destruct c end;
      [right | left]; split; reflexivity.
  - destruct s as [sb [st sdd scc] sg sbuf sm].
    unfold Hyundai.tpms_protocol_decoder_hyundai_feed.
    destruct st; feed_simpl; try discriminate; intros _.
    match goal with |- context [if ?c then _ else _] => destruct c end;
      [right | left]; split; reflexivity.
Qed.

Lemma stale_accumulator_run (p : TPMSProtocol) (d c : Z) (edges : list Edge) :
  forall s : instance (protocol_decoder p),
    let D := protocol_decoder p in
    phase D s = PhaseReset ->
    snd (feed_all D (set_accumulator p s d c) edges) = snd (feed_all D s edges)
    /\ (fst (feed_all D (set_accumulator p s d c) edges) = fst (feed_all D s edges)
        \/ (fst (feed_all D s edges) = s
            /\ fst (feed_all D (set_accumulator p s d c) edges)
               = set_accumulator p s d c)).
Proof.
  induction edges as [| [level duration] rest IH]; intros s D Hphase.
  - cbn [feed_all fst snd]. split; [reflexivity | right; split; reflexivity].
  - cbn [feed_all].
    destruct (stale_accumulator_step p s d c level duration Hphase)
      as [[Hs Hs'] | [Hsame Hcalled]]; fold D in Hs, Hs' || fold D in Hsame, Hcalled.
    + rewrite Hs, Hs'. specialize (IH s Hphase). fold D in IH.
      destruct (feed_all D s rest) as [s2 calls].
      destruct (feed_all D (set_accumulator p s d c) rest) as [s2' calls'].
      cbn [fst snd] in *. exact IH.
    + rewrite Hsame.
      destruct (feed D s level duration) as [s1 called]. cbn [snd] in Hcalled.
      subst called.
      destruct (feed_all D s1 rest) as [s2 calls]. cbn [fst snd].
      split; [reflexivity | left; reflexivity].
Qed.

Lemma observed_set_accumulator (p : TPMSProtocol) (s : instance (protocol_decoder p))
    (d c : Z) :
  let D := protocol_decoder p in
  phase D (set_accumulator p s d c) = phase D s
  /\ reading D (set_accumulator p s d c) = reading D s
  /\ frame D (set_accumulator p s d c) = frame D s.
Proof. destruct p; destruct s as [? [? ? ?]]; repeat split. Qed.

(** X14.  The accumulator that [reset] leaves cannot be observed through
    [feed].  [reset] returns to the Reset step without clearing
    [decode_data] and [decode_count_bit]; yet for every sequence of edges fed
    afterwards, the callbacks (the instances as [feed] returns them) and the final
    step, reading and byte buffer are the same as from the instance whose
    accumulator and count are zero. *)
Theorem reset_accumulator_unobservable (p : TPMSProtocol)
    (s0 : instance (protocol_decoder p)) (edges : list Edge) :
  let D := protocol_decoder p in
  let s := reset D s0 in
  let cleared := set_accumulator p s 0 0 in
  phase D s = PhaseReset
  /\ accumulator D s = accumulator D s0
  /\ count_bit D s = count_bit D s0
  /\ snd (feed_all D s edges) = snd (feed_all D cleared edges)
  /\ phase D (fst (feed_all D s edges)) = phase D (fst (feed_all D cleared edges))
  /\ reading D (fst (feed_all D s edges)) = reading D (fst (feed_all D cleared edges))
  /\ frame D (fst (feed_all D s edges)) = frame D (fst (feed_all D cleared edges)).
Proof.
  intros D s cleared.
  assert (Hphase : phase D s = PhaseReset) by apply reset_phase.
  split; [exact Hphase |].
  split; [destruct p; destruct s0 as [? [? ? ?]]; reflexivity |].
  split; [destruct p; destruct s0 as [? [? ? ?]]; reflexivity |].
  destruct (stale_accumulator_run p 0 0 edges s Hphase) as [Hcalls Hend].
  fold D in Hcalls, Hend. fold cleared in Hcalls, Hend.
  split; [symmetry; exact Hcalls |].
  destruct Hend as [Heq | [Hs Hc]].
  - rewrite Heq. repeat split.
  - rewrite Hs, Hc. unfold cleared.
    destruct (observed_set_accumulator p s 0 0) as (H1 & H2 & H3).
    fold D in H1, H2, H3. rewrite H1, H2, H3. repeat split.
Qed.

(** ** The application *)

(** X15.  The frequency and modulation shown.  For a frequency below 1 GHz
    the two numbers printed are the MHz and the hundredths of a MHz of the
    frequency truncated, not rounded, to 10 kHz, and they fit the three and
    two digits of the format; for every preset that [tpms_set_preset]
    accepts, the modulation printed is the first two characters of the name
    it stores: AM, FM or CU. *)
Theorem frequency_modulation_shown (frequency : Z) (preset name : string) :
  0 <= frequency < 1000000000 ->
  tpms_set_preset preset = Some name ->
  let shown := tpms_get_frequency_modulation frequency name in
  let mhz := fst (fst shown) in
  let hundredths := snd (fst shown) in
  0 <= mhz < 1000
  /\ 0 <= hundredths < 100
  /\ (100 * mhz + hundredths) * 10000 <= frequency
     < (100 * mhz + hundredths + 1) * 10000
  /\ In (snd shown) ["AM"; "FM"; "CU"]%string.
Proof.
  intros Hf Hpreset shown mhz hundredths.
  unfold mhz, hundredths, shown, tpms_get_frequency_modulation. cbn [fst snd].
  split; [| split; [| split]].
  - apply Z.mod_pos_bound. lia.
  - apply Z.mod_pos_bound. lia.
  - Z.div_mod_to_equations. lia.
  - unfold tpms_set_preset in Hpreset.
    repeat match type of Hpreset with
           | (if ?c then _ else _) = _ => destruct c
           end;
      try discriminate Hpreset;
      injection Hpreset as <-; cbn; auto.
Qed.

Lemma frequency_modulation_shown_witness :
  tpms_get_frequency_modulation 433919999 "AM650" = ((433, 91), "AM"%string)
  /\ In "AM"%string ["AM"; "FM"; "CU"]%string.
Proof.
  split; [reflexivity |].
  apply (frequency_modulation_shown 433919999 "FuriHalSubGhzPresetOok650Async" "AM650");
    [lia | reflexivity].
Defined.
